(** * capa-iam-controller: the reconcilers and their finalizer handling

    A shallow embedding of the controllers of the repository
    ([AWSMachineTemplateReconciler], [AWSManagedControlPlaneReconciler]),
    of the [key] package and of the expectations of the [SecretReconciler]
    test, over an explicit model of the two systems of record the code talks
    to: the Kubernetes object store and the remote IAM service.

    Go's [error] is an inductive type; a function returning [(T, error)] is a
    computation in a state-and-error monad over the [World]; every call that
    leaves the process is recorded in a trace, so that ordering properties
    ("DeleteRole before any finalizer is removed") are statements about that
    trace.  Logging has no effect on either system and is not modelled. *)

From stdpp Require Import gmap strings list fin_maps.
From Stdlib Require Import DecimalString.

Open Scope string_scope.

(** ** Errors *)

(** [metav1.StatusReason], the classes of failure the API server reports. *)
Inductive StatusReason :=
| StatusReasonUnknown
| StatusReasonNotFound
| StatusReasonAlreadyExists
| StatusReasonConflict
| StatusReasonInvalid
| StatusReasonForbidden
| StatusReasonTimeout
| StatusReasonServerTimeout
| StatusReasonInternalError.

#[global] Instance StatusReason_eq_dec : EqDecision StatusReason.
Proof. solve_decision. Defined.

(** A non-nil Go [error].  [StatusError] is [k8serrors.StatusError],
    [AwsError] an [awserr.Error] with its code, [Errorf] the result of
    [fmt.Errorf], [Wrap] what [errors.WithStack], [errors.Wrap] and
    [microerror.Mask] build around a cause, and [Aggregate] is
    [errutils.Aggregate]. *)
#[warnings="-register-all"]
Inductive error :=
| StatusError (reason : StatusReason)
| AwsError (code : string)
| Errorf (msg : string)
| Wrap (cause : error)
| Aggregate (errs : list error).

(** [errors.Cause]: the innermost error of a chain of wrappers. *)
Fixpoint Cause (e : error) : error :=
  match e with
  | Wrap c => Cause c
  | _ => e
  end.

(** [microerror.Mask] and [errors.WithStack] map nil to nil. *)
Definition WithStack (err : option error) : option error := Wrap <$> err.
Definition Mask (err : option error) : option error := Wrap <$> err.

(** [k8serrors.ReasonForError]: the reason of an API status error, looked up
    through wrappers; an aggregate is not a status error. *)
Fixpoint ReasonForError (e : error) : StatusReason :=
  match e with
  | StatusError r => r
  | Wrap c => ReasonForError c
  | _ => StatusReasonUnknown
  end.

Definition IsInvalid (e : error) : bool :=
  bool_decide (ReasonForError e = StatusReasonInvalid).
Definition IsNotFound (e : error) : bool :=
  bool_decide (ReasonForError e = StatusReasonNotFound).
Definition IsConflict (e : error) : bool :=
  bool_decide (ReasonForError e = StatusReasonConflict).

(** [client.IgnoreNotFound]. *)
Definition IgnoreNotFound (err : option error) : option error :=
  match err with
  | Some e => if IsNotFound e then None else Some e
  | None => None
  end.

(** [errutils.NewAggregate]: an empty list is nil. *)
Definition NewAggregate (errs : list error) : option error :=
  match errs with
  | [] => None
  | _ => Some (Aggregate errs)
  end.

(** [errutils.FilterOut] on a non-nil error: drops every error [fn] matches,
    recursively through aggregates. *)
Fixpoint FilterOutErr (fn : error → bool) (e : error) : option error :=
  match e with
  | Aggregate errs =>
      NewAggregate
        ((fix filterErrors (l : list error) : list error :=
            match l with
            | [] => []
            | x :: l' =>
                match FilterOutErr fn x with
                | Some r => r :: filterErrors l'
                | None => filterErrors l'
                end
            end) errs)
  | _ => if fn e then None else Some e
  end.

Definition FilterOut (err : option error) (fn : error → bool) : option error :=
  match err with
  | None => None
  | Some e => FilterOutErr fn e
  end.

(** A Go result [(T, error)]. *)
Inductive result (A : Type) :=
| Ok (a : A)
| Err (e : error).
Arguments Ok {A} a.
Arguments Err {A} e.

Definition errOf {A} (r : result A) : option error :=
  match r with
  | Ok _ => None
  | Err e => Some e
  end.

(** ** Objects of the Kubernetes store *)

Inductive Kind :=
| AWSMachineTemplate
| AWSCluster
| AWSManagedControlPlane
| AWSClusterRoleIdentity
| ConfigMap.

#[global] Instance Kind_eq_dec : EqDecision Kind.
Proof. solve_decision. Defined.

#[global] Instance Kind_countable : Countable Kind.
Proof.
  refine (inj_countable'
            (λ k, match k with
                  | AWSMachineTemplate => 0 | AWSCluster => 1
                  | AWSManagedControlPlane => 2 | AWSClusterRoleIdentity => 3
                  | ConfigMap => 4
                  end)
            (λ n, match n with
                  | 0 => AWSMachineTemplate | 1 => AWSCluster
                  | 2 => AWSManagedControlPlane | 3 => AWSClusterRoleIdentity
                  | _ => ConfigMap
                  end) _).
  by intros [].
Defined.

(** [metav1.ObjectMeta], the fields the controllers read or write. *)
Record ObjectMeta := {
  Namespace : string;
  Name : string;
  Labels : gmap string string;
  Finalizers : list string;
  DeletionTimestamp : option nat;
}.

(** The [.Spec] of each kind, the fields the controllers consume. *)
Inductive Spec :=
| AWSMachineTemplateSpec (iamInstanceProfile : string)
| AWSClusterSpec (identityRefName region : string)
                 (additionalTags : gmap string string)
| AWSManagedControlPlaneSpec (roleName : option string)
                             (identityRefName region : string)
| AWSClusterRoleIdentitySpec (roleArn : string)
| ConfigMapData (data : gmap string string).

Record Object := {
  ObjMeta : ObjectMeta;
  ObjSpec : Spec;
}.

Definition kindOf (o : Object) : Kind :=
  match ObjSpec o with
  | AWSMachineTemplateSpec _ => AWSMachineTemplate
  | AWSClusterSpec _ _ _ => AWSCluster
  | AWSManagedControlPlaneSpec _ _ _ => AWSManagedControlPlane
  | AWSClusterRoleIdentitySpec _ => AWSClusterRoleIdentity
  | ConfigMapData _ => ConfigMap
  end.

(** [client.ObjectKeyFromObject], together with the kind. *)
Definition ObjectKeyFromObject (o : Object) : Kind * (string * string) :=
  (kindOf o, (Namespace (ObjMeta o), Name (ObjMeta o))).

Definition GetFinalizers (o : Object) : list string := Finalizers (ObjMeta o).

Definition SetFinalizers (o : Object) (f : list string) : Object :=
  {| ObjMeta := {| Namespace := Namespace (ObjMeta o);
                   Name := Name (ObjMeta o);
                   Labels := Labels (ObjMeta o);
                   Finalizers := f;
                   DeletionTimestamp := DeletionTimestamp (ObjMeta o) |};
     ObjSpec := ObjSpec o |}.

(** [.Spec.Template.Spec.IAMInstanceProfile] of an AWSMachineTemplate. *)
Definition IAMInstanceProfile (o : Object) : string :=
  match ObjSpec o with
  | AWSMachineTemplateSpec p => p
  | _ => ""
  end.

(** [.Spec.RoleName] of an AWSManagedControlPlane, a [*string]. *)
Definition SpecRoleName (o : Object) : option string :=
  match ObjSpec o with
  | AWSManagedControlPlaneSpec r _ _ => r
  | _ => None
  end.

Definition SpecIdentityRefName (o : Object) : string :=
  match ObjSpec o with
  | AWSClusterSpec i _ _ => i
  | AWSManagedControlPlaneSpec _ i _ => i
  | _ => ""
  end.

Definition SpecRegion (o : Object) : string :=
  match ObjSpec o with
  | AWSClusterSpec _ r _ => r
  | AWSManagedControlPlaneSpec _ _ r => r
  | _ => ""
  end.

Definition SpecAdditionalTags (o : Object) : gmap string string :=
  match ObjSpec o with
  | AWSClusterSpec _ _ t => t
  | _ => ∅
  end.

Definition SpecRoleArn (o : Object) : string :=
  match ObjSpec o with
  | AWSClusterRoleIdentitySpec a => a
  | _ => ""
  end.

(** [controllerutil.ContainsFinalizer], [RemoveFinalizer], [AddFinalizer]. *)
Definition ContainsFinalizer (o : Object) (finalizer : string) : bool :=
  bool_decide (finalizer ∈ GetFinalizers o).

Definition RemoveFinalizer (o : Object) (finalizer : string) : Object :=
  SetFinalizers o (filter (λ f, f ≠ finalizer) (GetFinalizers o)).

Definition AddFinalizer (o : Object) (finalizer : string) : Object :=
  if ContainsFinalizer o finalizer then o
  else SetFinalizers o (GetFinalizers o ++ [finalizer]).

(** ** The remote IAM service *)

(** A trust (assume-role) policy document is the list of its statements,
    each named by the principal it trusts: a service, a role ARN, or the
    issuer domain of an OIDC provider.  Permission policy documents are
    opaque strings. *)
Record Role := {
  Arn : string;
  AssumeRolePolicyDocument : list string;
  RoleTags : gmap string string;
  RolePolicies : gmap string string;
}.

Record IAMState := {
  Account : string;
  Roles : gmap string Role;
  InstanceProfiles : gmap string (list string);
  OIDCProviders : gset string;
}.

Definition ErrCodeNoSuchEntityException := "NoSuchEntity".
Definition ErrCodeEntityAlreadyExistsException := "EntityAlreadyExists".
Definition ErrCodeDeleteConflictException := "DeleteConflict".
Definition ErrCodeLimitExceededException := "LimitExceeded".

(** ** Calls that leave the process *)

Inductive Op :=
(* controller-runtime client and the cluster-api patch helper *)
| ClientGet (key : Kind * (string * string))
| ClientList (kind : Kind) (matchingLabels : list (string * string))
| ClientPatch (key : Kind * (string * string)) (finalizers : list string)
| PatchNewHelper (key : Kind * (string * string))
(* IAM API *)
| IamGetRole (role : string)
| IamCreateRole (role : string) (doc : list string)
                (tags : list (string * string))
| IamUpdateAssumeRolePolicy (role : string) (doc : list string)
| IamTagRole (role : string) (tags : list (string * string))
| IamListRolePolicies (role : string)
| IamGetRolePolicy (role policy : string)
| IamPutRolePolicy (role policy doc : string)
| IamDeleteRolePolicy (role policy : string)
| IamGetInstanceProfile (profile : string)
| IamCreateInstanceProfile (profile : string) (tags : list (string * string))
| IamAddRoleToInstanceProfile (profile role : string)
| IamRemoveRoleFromInstanceProfile (profile role : string)
| IamDeleteInstanceProfile (profile : string)
| IamDeleteRole (role : string)
| IamDeleteOpenIDConnectProvider (issuer : string)
(* other collaborators: session resolver, STS, EKS, helpers of [key] *)
| GetAWSClientSession (roleArn region : string)
| StsGetCallerIdentity
| IamNew
| GetAWSAccountID (roleArn : string)
| GetIRSAOpenIDURlForEKS (cluster : string)
| GetBaseDomain (cluster namespace : string)
| IRSADomain (baseDomain region accountID cluster : string)
| GetAdditionalIrsaDomain (key : Kind * (string * string)).

(** The methods of [iam.IAMService] and the shared-resource guard, whose
    entry and return the trace records. *)
Inductive Method :=
| MDeleteRole
| MDeleteRolesForIRSA
| MReconcileRole
| MReconcileRolesForIRSA.

#[global] Instance Method_eq_dec : EqDecision Method.
Proof. solve_decision. Defined.

Inductive Event :=
| Called (op : Op) (err : option error)
| Enter (m : Method)
| Leave (m : Method) (err : option error)
| RoleUsed (answer : bool).

(** ** The world: both systems of record, what was called so far, and the
    failures the environment injects *)

(** [faults n op] is the failure, if any, of call [op] when it is the
    [n]-th recorded event; [answers] gives the data the helpers outside
    the model return; [history] lists the IAM state after each IAM call. *)
Record World := {
  objects : gmap (Kind * (string * string)) Object;
  iam : IAMState;
  trace : list Event;
  history : list IAMState;
  faults : nat → Op → option error;
  answers : Op → string;
}.

Definition setObjects (objs : gmap (Kind * (string * string)) Object)
    (w : World) : World :=
  {| objects := objs; iam := iam w; trace := trace w; history := history w;
     faults := faults w; answers := answers w |}.

Definition setIam (s : IAMState) (w : World) : World :=
  {| objects := objects w; iam := s; trace := trace w; history := history w;
     faults := faults w; answers := answers w |}.

Definition record (ev : Event) (w : World) : World :=
  {| objects := objects w; iam := iam w; trace := trace w ++ [ev];
     history := history w; faults := faults w; answers := answers w |}.

Definition observe (w : World) : World :=
  {| objects := objects w; iam := iam w; trace := trace w;
     history := history w ++ [iam w]; faults := faults w;
     answers := answers w |}.

(** ** The monad of the controllers: state and error *)

Definition M (A : Type) : Type := World → result A * World.

#[global] Instance M_ret : MRet M := λ A a w, (Ok a, w).
#[global] Instance M_bind : MBind M := λ A B f m w,
  match m w with
  | (Ok a, w') => f a w'
  | (Err e, w') => (Err e, w')
  end.

Definition fail {A} (e : error) : M A := λ w, (Err e, w).

(** [try m] runs [m] and hands its outcome to the caller, as Go code does
    when it inspects [err] instead of returning it. *)
Definition try {A} (m : M A) : M (result A) := λ w,
  let '(r, w') := m w in (Ok r, w').

Definition emit (ev : Event) : M unit := λ w, (Ok tt, record ev w).

(** Go's [return x, err]: nil error is success. *)
Definition returnErr {A} (a : A) (err : option error) : M A :=
  match err with
  | None => mret a
  | Some e => fail e
  end.

(** One call: an injected fault fails it without effect, otherwise its
    semantics [sem] decides result and new state; the trace records it. *)
Definition invoke {A} (op : Op) (sem : World → result A * World) : M A :=
  λ w,
    match faults w (length (trace w)) op with
    | Some e => (Err e, record (Called op (Some e)) w)
    | None =>
        let '(r, w') := sem w in (r, record (Called op (errOf r)) w')
    end.

(** An IAM call also leaves the state it produced in [history]. *)
Definition invokeIam {A} (op : Op) (sem : IAMState → result A * IAMState)
    : M A :=
  λ w,
    let '(r, w') :=
      invoke op (λ w, let '(r, s) := sem (iam w) in (r, setIam s w)) w in
    (r, observe w').

(** A collaborator outside the model: it fails only by an injected fault
    and answers with the data the environment supplies. *)
Definition external (op : Op) : M string :=
  invoke op (λ w, (Ok (answers w op), w)).

(** A pure helper outside the model: the environment supplies its value. *)
Definition helper (op : Op) : M string := λ w, (Ok (answers w op), w).

(** A Go result handed to the monad. *)
Definition liftResult {A} (r : result A) : M A := λ w, (r, w).

(** ** Semantics of the Kubernetes client *)

Definition isDeleting (o : Object) : bool :=
  bool_decide (is_Some (DeletionTimestamp (ObjMeta o))).

Definition matchesLabels (sel : list (string * string)) (o : Object) : bool :=
  forallb (λ kv, bool_decide (Labels (ObjMeta o) !! kv.1 = Some kv.2)) sel.

Definition Get (key : Kind * (string * string)) : M Object :=
  invoke (ClientGet key) (λ w,
    match objects w !! key with
    | Some o => (Ok o, w)
    | None => (Err (StatusError StatusReasonNotFound), w)
    end).

Definition List (kind : Kind) (matchingLabels : list (string * string))
    : M (list Object) :=
  invoke (ClientList kind matchingLabels) (λ w,
    (Ok (filter (λ o, kindOf o = kind ∧ matchesLabels matchingLabels o = true)
           (map_to_list (objects w)).*2), w)).

(** A merge patch of [metadata.finalizers].  The API server refuses to add
    a finalizer to an object that is being deleted (422, reason Invalid),
    and an object being deleted whose last finalizer goes is removed. *)
Definition clientPatch (o : Object) : M Object :=
  let key := ObjectKeyFromObject o in
  invoke (ClientPatch key (GetFinalizers o)) (λ w,
    match objects w !! key with
    | None => (Err (StatusError StatusReasonNotFound), w)
    | Some cur =>
        if isDeleting cur
           && negb (forallb (λ f, bool_decide (f ∈ GetFinalizers cur))
                      (GetFinalizers o))
        then (Err (StatusError StatusReasonInvalid), w)
        else
          let new := SetFinalizers cur (GetFinalizers o) in
          if isDeleting cur && bool_decide (GetFinalizers o = [])
          then (Ok new, setObjects (delete key (objects w)) w)
          else (Ok new, setObjects (<[key := new]> (objects w)) w)
    end).

(** [patch.Helper]: [NewHelper] snapshots the object, [Patch] sends the
    difference between the snapshot and the object, nothing when there is
    none, and returns the aggregate of the errors of its requests.  The
    controllers change only the finalizers between the two. *)
Record Helper := { beforeObject : Object }.

Definition NewHelper (o : Object) : M Helper :=
  invoke (PatchNewHelper (ObjectKeyFromObject o)) (λ w,
    (Ok {| beforeObject := o |}, w)).

Definition Patch (h : Helper) (o : Object) : M Object :=
  if bool_decide (GetFinalizers (beforeObject h) = GetFinalizers o)
  then mret o
  else
    r ← try (clientPatch o);
    match r with
    | Ok o' => mret o'
    | Err e => fail (Aggregate [e])
    end.

(** [errors.WithStack(err)] and [microerror.Mask(err)] around a call whose
    error is returned at once. *)
Definition wrapped {A} (m : M A) : M A := λ w,
  match m w with
  | (Ok a, w') => (Ok a, w')
  | (Err e, w') => (Err (Wrap e), w')
  end.

(** [strconv.Itoa] on a length, as [%d] prints it. *)
Definition itoa (n : nat) : string := NilEmpty.string_of_uint (Nat.to_uint n).

(** ** Package [key] (src/pkg/key/key.go) *)

Module key.

Definition ClusterNameLabel : string := "cluster.x-k8s.io/cluster-name".

Definition FinalizerName (roleName : string) : string :=
  "capa-iam-controller.finalizers.giantswarm.io/" ++ roleName.

(** Indexing a Go map with a missing key yields the empty string. *)
Definition GetClusterIDFromLabels (t : ObjectMeta) : string :=
  default "" (Labels t !! ClusterNameLabel).

Definition GetAWSClusterByName (clusterName : string) : M Object :=
  awsClusterList ← List AWSCluster [(ClusterNameLabel, clusterName)];
  if bool_decide (length awsClusterList ≠ 1)
  then fail (Errorf ("expected 1 AWSCluster but found "
                       ++ itoa (length awsClusterList)))
  else
    match awsClusterList with
    | item :: _ => mret item
    | [] => fail (Errorf "index out of range")
    end.

End key.

(** ** Semantics of the IAM API ([iamiface.IAMAPI]) *)

Module iamiface.

Definition noSuchEntity {A} : result A :=
  Err (AwsError ErrCodeNoSuchEntityException).

Definition setRoles (r : gmap string Role) (s : IAMState) : IAMState :=
  {| Account := Account s; Roles := r; InstanceProfiles := InstanceProfiles s;
     OIDCProviders := OIDCProviders s |}.

Definition setInstanceProfiles (p : gmap string (list string))
    (s : IAMState) : IAMState :=
  {| Account := Account s; Roles := Roles s; InstanceProfiles := p;
     OIDCProviders := OIDCProviders s |}.

Definition setOIDCProviders (o : gset string) (s : IAMState) : IAMState :=
  {| Account := Account s; Roles := Roles s; InstanceProfiles := InstanceProfiles s;
     OIDCProviders := o |}.

Definition GetRole (role : string) : M Role :=
  invokeIam (IamGetRole role) (λ s,
    match Roles s !! role with
    | Some r => (Ok r, s)
    | None => (noSuchEntity, s)
    end).

Definition CreateRole (role : string) (doc : list string)
    (tags : list (string * string)) : M Role :=
  invokeIam (IamCreateRole role doc tags) (λ s,
    match Roles s !! role with
    | Some _ => (Err (AwsError ErrCodeEntityAlreadyExistsException), s)
    | None =>
        let created :=
          {| Arn := "arn:aws:iam::" ++ Account s ++ ":role/" ++ role;
             AssumeRolePolicyDocument := doc;
             RoleTags := list_to_map tags;
             RolePolicies := ∅ |} in
        (Ok created, setRoles (<[role := created]> (Roles s)) s)
    end).

Definition UpdateAssumeRolePolicy (role : string) (doc : list string)
    : M unit :=
  invokeIam (IamUpdateAssumeRolePolicy role doc) (λ s,
    match Roles s !! role with
    | None => (noSuchEntity, s)
    | Some r =>
        (Ok tt,
         setRoles (<[role := {| Arn := Arn r;
                                AssumeRolePolicyDocument := doc;
                                RoleTags := RoleTags r;
                                RolePolicies := RolePolicies r |}]> (Roles s))
           s)
    end).

Definition TagRole (role : string) (tags : list (string * string)) : M unit :=
  invokeIam (IamTagRole role tags) (λ s,
    match Roles s !! role with
    | None => (noSuchEntity, s)
    | Some r =>
        (Ok tt,
         setRoles (<[role := {| Arn := Arn r;
                                AssumeRolePolicyDocument :=
                                  AssumeRolePolicyDocument r;
                                RoleTags := list_to_map tags ∪ RoleTags r;
                                RolePolicies := RolePolicies r |}]> (Roles s))
           s)
    end).

Definition ListRolePolicies (role : string) : M (list string) :=
  invokeIam (IamListRolePolicies role) (λ s,
    match Roles s !! role with
    | None => (noSuchEntity, s)
    | Some r => (Ok (map_to_list (RolePolicies r)).*1, s)
    end).

Definition GetRolePolicy (role policy : string) : M string :=
  invokeIam (IamGetRolePolicy role policy) (λ s,
    match Roles s !! role with
    | None => (noSuchEntity, s)
    | Some r =>
        match RolePolicies r !! policy with
        | None => (noSuchEntity, s)
        | Some doc => (Ok doc, s)
        end
    end).

Definition PutRolePolicy (role policy doc : string) : M unit :=
  invokeIam (IamPutRolePolicy role policy doc) (λ s,
    match Roles s !! role with
    | None => (noSuchEntity, s)
    | Some r =>
        (Ok tt,
         setRoles (<[role := {| Arn := Arn r;
                                AssumeRolePolicyDocument :=
                                  AssumeRolePolicyDocument r;
                                RoleTags := RoleTags r;
                                RolePolicies :=
                                  <[policy := doc]> (RolePolicies r) |}]>
                     (Roles s)) s)
    end).

Definition DeleteRolePolicy (role policy : string) : M unit :=
  invokeIam (IamDeleteRolePolicy role policy) (λ s,
    match Roles s !! role with
    | None => (noSuchEntity, s)
    | Some r =>
        match RolePolicies r !! policy with
        | None => (noSuchEntity, s)
        | Some _ =>
            (Ok tt,
             setRoles (<[role := {| Arn := Arn r;
                                AssumeRolePolicyDocument :=
                                      AssumeRolePolicyDocument r;
                                    RoleTags := RoleTags r;
                                    RolePolicies :=
                                      delete policy (RolePolicies r) |}]>
                         (Roles s)) s)
        end
    end).

Definition GetInstanceProfile (profile : string) : M (list string) :=
  invokeIam (IamGetInstanceProfile profile) (λ s,
    match InstanceProfiles s !! profile with
    | None => (noSuchEntity, s)
    | Some roles => (Ok roles, s)
    end).

Definition CreateInstanceProfile (profile : string)
    (tags : list (string * string)) : M unit :=
  invokeIam (IamCreateInstanceProfile profile tags) (λ s,
    match InstanceProfiles s !! profile with
    | Some _ => (Err (AwsError ErrCodeEntityAlreadyExistsException), s)
    | None =>
        (Ok tt, setInstanceProfiles (<[profile := []]> (InstanceProfiles s)) s)
    end).

(** An instance profile holds at most one role. *)
Definition AddRoleToInstanceProfile (profile role : string) : M unit :=
  invokeIam (IamAddRoleToInstanceProfile profile role) (λ s,
    match InstanceProfiles s !! profile, Roles s !! role with
    | Some [], Some _ =>
        (Ok tt,
         setInstanceProfiles (<[profile := [role]]> (InstanceProfiles s)) s)
    | Some (_ :: _), Some _ =>
        (Err (AwsError ErrCodeLimitExceededException), s)
    | _, _ => (noSuchEntity, s)
    end).

Definition RemoveRoleFromInstanceProfile (profile role : string) : M unit :=
  invokeIam (IamRemoveRoleFromInstanceProfile profile role) (λ s,
    match InstanceProfiles s !! profile with
    | None => (noSuchEntity, s)
    | Some roles =>
        if bool_decide (role ∈ roles)
        then (Ok tt,
              setInstanceProfiles
                (<[profile := filter (λ r, r ≠ role) roles]>
                   (InstanceProfiles s)) s)
        else (noSuchEntity, s)
    end).

Definition DeleteInstanceProfile (profile : string) : M unit :=
  invokeIam (IamDeleteInstanceProfile profile) (λ s,
    match InstanceProfiles s !! profile with
    | None => (noSuchEntity, s)
    | Some [] =>
        (Ok tt, setInstanceProfiles (delete profile (InstanceProfiles s)) s)
    | Some (_ :: _) => (Err (AwsError ErrCodeDeleteConflictException), s)
    end).

(** A role that still has inline policies or sits in an instance profile
    cannot be deleted. *)
Definition DeleteRole (role : string) : M unit :=
  invokeIam (IamDeleteRole role) (λ s,
    match Roles s !! role with
    | None => (noSuchEntity, s)
    | Some r =>
        if bool_decide (RolePolicies r ≠ ∅)
           || bool_decide (Exists (λ kv : string * list string, role ∈ kv.2)
                             (map_to_list (InstanceProfiles s)))
        then (Err (AwsError ErrCodeDeleteConflictException), s)
        else (Ok tt, setRoles (delete role (Roles s)) s)
    end).

Definition DeleteOpenIDConnectProvider (issuer : string) : M unit :=
  invokeIam (IamDeleteOpenIDConnectProvider issuer) (λ s,
    if bool_decide (issuer ∈ OIDCProviders s)
    then (Ok tt, setOIDCProviders (OIDCProviders s ∖ {[issuer]}) s)
    else (noSuchEntity, s)).

End iamiface.

(** ** Package [iam]: the IAM synchronizer and the IRSA manager *)

Module iam.

(** Modelled from the spec: the role types of the package [pkg/iam], which
    is not among the sources; the controllers compare them as strings, and
    the values are those the policy names of the test show. *)
Definition ControlPlaneRole : string := "control-plane".
Definition BastionRole : string := "bastion".
Definition IRSARole : string := "irsa-role".

(** Modelled from the spec: one entry of the fixed catalog of workload
    identities (section 3, IRSABinding). *)
Record IRSABinding := {
  WorkloadIdentity : string;
  BindingRoleName : string;
  BindingPolicyName : string;
  BindingPolicyDocument : string;
}.

(** Modelled from the spec: [iam.IAMService], built by [iam.New] from the
    [iam.IAMServiceConfig] the controllers fill in; the documents of the
    Policy Document Builder for the main role and the catalog are part of
    the configuration (section 9). *)
Record IAMService := {
  ClusterName : string;
  MainRoleName : string;
  RoleType : string;
  Region : string;
  CustomTags : gmap string string;
  PrincipalRoleARN : string;
  MainTrustPolicy : list string;
  MainPolicyDocument : string;
  Catalog : list IRSABinding;
}.

Definition SetPrincipalRoleARN (s : IAMService) (arn : string) : IAMService :=
  {| ClusterName := ClusterName s; MainRoleName := MainRoleName s;
     RoleType := RoleType s; Region := Region s; CustomTags := CustomTags s;
     PrincipalRoleARN := arn; MainTrustPolicy := MainTrustPolicy s;
     MainPolicyDocument := MainPolicyDocument s; Catalog := Catalog s |}.

Definition IsNoSuchEntity (e : error) : bool :=
  match Cause e with
  | AwsError code => bool_decide (code = ErrCodeNoSuchEntityException)
  | _ => false
  end.

Definition IsAlreadyExists (e : error) : bool :=
  match Cause e with
  | AwsError code => bool_decide (code = ErrCodeEntityAlreadyExistsException)
  | _ => false
  end.

(** A method of the service: the trace brackets its body. *)
Definition method {A} (m : Method) (body : M A) : M A :=
  _ ← emit (Enter m);
  r ← try body;
  _ ← emit (Leave m (errOf r));
  match r with
  | Ok a => mret a
  | Err e => fail e
  end.

Fixpoint forEach {A} (f : A → M unit) (l : list A) : M unit :=
  match l with
  | [] => mret tt
  | x :: l' => _ ← f x; forEach f l'
  end.

(** *** Tag Policy (section 4.2) *)

Definition ownedTagKey : string := "capi-iam-controller/owned".

Definition clusterTagKey (clusterName : string) : string :=
  "sigs.k8s.io/cluster-api-provider-aws/cluster/" ++ clusterName.

(** Modelled from the spec: the ownership marker, the cluster-ownership
    marker, then the custom tags, those on a reserved key left out. *)
Definition tags (s : IAMService) : list (string * string) :=
  (ownedTagKey, "")
  :: (clusterTagKey (ClusterName s), "owned")
  :: map_to_list
       (filter (λ kv : string * string,
                  kv.1 ≠ ownedTagKey ∧ kv.1 ≠ clusterTagKey (ClusterName s))
          (CustomTags s)).

(** *** IAM Synchronizer (section 4.3) *)

Definition tagsPresent (desired : list (string * string)) (r : Role) : bool :=
  forallb (λ kv, bool_decide (RoleTags r !! kv.1 = Some kv.2)) desired.

(** Modelled from the spec: the read-and-reconcile path of [EnsureRole],
    which updates only the fields that differ. *)
Definition convergeRole (roleName : string) (observed : Role)
    (trust : list string) (tags : list (string * string)) : M string :=
  _ ← (if bool_decide (AssumeRolePolicyDocument observed = trust)
       then mret tt
       else iamiface.UpdateAssumeRolePolicy roleName trust);
  _ ← (if tagsPresent tags observed
       then mret tt
       else iamiface.TagRole roleName tags);
  mret (Arn observed).

(** Modelled from the spec: [EnsureRole], look up, create if absent,
    converge if present or if the creation finds the role exists. *)
Definition EnsureRole (roleName : string) (trust : list string)
    (tags : list (string * string)) : M string :=
  r ← try (iamiface.GetRole roleName);
  match r with
  | Ok observed => convergeRole roleName observed trust tags
  | Err e =>
      if IsNoSuchEntity e then
        c ← try (iamiface.CreateRole roleName trust tags);
        match c with
        | Ok created => mret (Arn created)
        | Err e' =>
            if IsAlreadyExists e' then
              observed ← iamiface.GetRole roleName;
              convergeRole roleName observed trust tags
            else fail e'
        end
      else fail e
  end.

(** Modelled from the spec: [EnsureInstanceProfile]; the profile carries
    the name of the role. *)
Definition EnsureInstanceProfile (roleName : string)
    (tags : list (string * string)) : M unit :=
  r ← try (iamiface.GetInstanceProfile roleName);
  attached ←
    match r with
    | Ok roles => mret roles
    | Err e =>
        if IsNoSuchEntity e then
          c ← try (iamiface.CreateInstanceProfile roleName tags);
          match c with
          | Ok _ => mret []
          | Err e' =>
              if IsAlreadyExists e'
              then iamiface.GetInstanceProfile roleName
              else fail e'
          end
        else fail e
    end;
  if bool_decide (roleName ∈ attached)
  then mret tt
  else iamiface.AddRoleToInstanceProfile roleName roleName.

(** Modelled from the spec: [EnsureInlinePolicy]; documents are compared
    as parsed documents, which the model takes them to be. *)
Definition EnsureInlinePolicy (roleName policyName document : string)
    : M unit :=
  names ← iamiface.ListRolePolicies roleName;
  if bool_decide (policyName ∈ names) then
    current ← iamiface.GetRolePolicy roleName policyName;
    if bool_decide (current = document)
    then mret tt
    else iamiface.PutRolePolicy roleName policyName document
  else iamiface.PutRolePolicy roleName policyName document.

(** Not found is success, any other failure is returned. *)
Definition ignoreNoSuchEntity (m : M unit) : M unit :=
  r ← try m;
  match r with
  | Ok _ => mret tt
  | Err e => if IsNoSuchEntity e then mret tt else fail e
  end.

(** Modelled from the spec: the teardown of one role (section 4.3,
    [DeleteRole]): inline policies, instance profile, role. *)
Definition deleteRole (roleName : string) : M unit :=
  r ← try (iamiface.ListRolePolicies roleName);
  names ←
    match r with
    | Ok names => mret names
    | Err e => if IsNoSuchEntity e then mret [] else fail e
    end;
  _ ← forEach (λ p, ignoreNoSuchEntity (iamiface.DeleteRolePolicy roleName p))
        names;
  _ ← ignoreNoSuchEntity
        (iamiface.RemoveRoleFromInstanceProfile roleName roleName);
  _ ← ignoreNoSuchEntity (iamiface.DeleteInstanceProfile roleName);
  ignoreNoSuchEntity (iamiface.DeleteRole roleName).

Definition policyName (s : IAMService) : string :=
  RoleType s ++ "-" ++ ClusterName s ++ "-policy".

(** Modelled from the spec: the methods the controllers call on the main
    role. *)
Definition ReconcileRole (s : IAMService) : M unit :=
  method MReconcileRole
    (_ ← EnsureRole (MainRoleName s) (MainTrustPolicy s) (tags s);
     _ ← EnsureInstanceProfile (MainRoleName s) (tags s);
     EnsureInlinePolicy (MainRoleName s) (policyName s)
       (MainPolicyDocument s)).

Definition DeleteRole (s : IAMService) : M unit :=
  method MDeleteRole (deleteRole (MainRoleName s)).

Definition GetRoleARN (roleName : string) : M string :=
  r ← iamiface.GetRole roleName; mret (Arn r).

(** *** IRSA OIDC Manager (section 4.4) *)

(** A previous issuer domain is recorded and differs from the current. *)
Definition isRotation (irsaDomain oldIrsaDomain : string) : bool :=
  bool_decide (oldIrsaDomain ≠ "" ∧ oldIrsaDomain ≠ irsaDomain).

(** Modelled from the spec: one binding of the catalog.  The trust policy
    names the issuer domains it trusts; the account only qualifies the
    provider ARN and does not enter the model.  During a rotation the
    policy that is put keeps the statement of the previous issuer, the
    role is read back, and only when the read shows the new issuer the
    statements of the previous one are removed. *)
Definition reconcileIRSABinding (s : IAMService)
    (awsAccountID irsaDomain oldIrsaDomain : string) (b : IRSABinding)
    : M unit :=
  let rotation := isRotation irsaDomain oldIrsaDomain in
  let trust := if rotation then [irsaDomain; oldIrsaDomain]
               else [irsaDomain] in
  _ ← EnsureRole (BindingRoleName b) trust (tags s);
  _ ← EnsureInlinePolicy (BindingRoleName b) (BindingPolicyName b)
        (BindingPolicyDocument b);
  if rotation then
    observed ← iamiface.GetRole (BindingRoleName b);
    if bool_decide (irsaDomain ∈ AssumeRolePolicyDocument observed)
    then iamiface.UpdateAssumeRolePolicy (BindingRoleName b)
           (filter (λ issuer, issuer ≠ oldIrsaDomain)
              (AssumeRolePolicyDocument observed))
    else fail (Errorf "trust for the new issuer is not confirmed")
  else mret tt.

(** Modelled from the spec: no role is created while the issuer domain is
    not determined. *)
Definition ReconcileRolesForIRSA (s : IAMService)
    (awsAccountID irsaDomain oldIrsaDomain : string) : M unit :=
  method MReconcileRolesForIRSA
    (if bool_decide (irsaDomain = "")
     then fail (Errorf "issuer domain is not determined")
     else forEach (reconcileIRSABinding s awsAccountID irsaDomain
                     oldIrsaDomain) (Catalog s)).

(** Modelled from the spec: all catalog roles, then the OIDC provider of
    the cluster, not found tolerated throughout. *)
Definition DeleteRolesForIRSA (s : IAMService) : M unit :=
  method MDeleteRolesForIRSA
    (_ ← forEach (λ b, deleteRole (BindingRoleName b)) (Catalog s);
     ignoreNoSuchEntity
       (iamiface.DeleteOpenIDConnectProvider (ClusterName s))).

(** [iam.IAMServiceConfig], the fields the controllers set. *)
Record IAMServiceConfig := {
  ConfigClusterName : string;
  ConfigMainRoleName : string;
  ConfigRoleType : string;
  ConfigRegion : string;
  ConfigCustomTags : gmap string string;
}.

End iam.

(** ** Package [controllers] *)

(** [ctrl.Result]; [time.Duration] counts nanoseconds. *)
Record Result := {
  Requeue : bool;
  RequeueAfter : Z;
}.

Definition Minute : Z := 60 * 1000000000.

Definition emptyResult : Result := {| Requeue := false; RequeueAfter := 0 |}.

(** *** AWSMachineTemplateReconciler (src/main.go) *)

Definition maxPatchRetries : nat := 5.

Record AWSMachineTemplateReconciler := {
  EnableKiamRole : bool;
  EnableRoute53Role : bool;
}.

(** The loop of [removeFinalizer], entered with counter [i] and
    [remaining = maxPatchRetries + 1 - i] iterations to go.  [r.Get]
    overwrites the object; a successful patch updates it from the
    response. *)
Fixpoint removeFinalizerLoop (remaining i : nat) (object : Object) : M unit :=
  match remaining with
  | 0 => mret tt
  | S remaining' =>
      patchHelper ← wrapped (NewHelper object);
      let object := RemoveFinalizer object
                      (key.FinalizerName iam.ControlPlaneRole) in
      r ← try (Patch patchHelper object);
      let err := errOf r in
      let object := match r with Ok o => o | Err _ => object end in
      let invalidErr := FilterOut err (λ err, negb (IsInvalid err)) in
      if bool_decide (is_Some invalidErr) && bool_decide (i < maxPatchRetries)
      then
        object ← wrapped (Get (ObjectKeyFromObject object));
        removeFinalizerLoop remaining' (S i) object
      else
        match err with
        | Some e => fail (Wrap e)
        | None => removeFinalizerLoop remaining' (S i) object
        end
  end.

Definition removeFinalizer (object : Object) : M unit :=
  if negb (ContainsFinalizer object (key.FinalizerName iam.ControlPlaneRole))
  then mret tt
  else removeFinalizerLoop maxPatchRetries 1 object.

(** Modelled from the spec: the shared-resource guard (section 4.5), whose
    source is not among the files: it scans the tracked objects for a
    reference to the role name by an object other than the requesting one.
    The call in [reconcileDelete] passes the client and the role name; the
    model is handed the requesting object as well, to tell the references
    of the others from the requester's own as the spec words it. *)
Definition isRoleUsedElsewhere (self : Object) (roleName : string) : M bool :=
  items ← wrapped (List AWSMachineTemplate []);
  let used :=
    existsb (λ o, bool_decide (ObjectKeyFromObject o ≠ ObjectKeyFromObject self)
                  && bool_decide (IAMInstanceProfile o = roleName)) items in
  _ ← emit (RoleUsed used);
  mret used.

(** [key.GetAWSClusterByName] is called with the namespace as well; the
    function of src/pkg/key/key.go lists by label only. *)
Definition reconcileDelete (r : AWSMachineTemplateReconciler)
    (iamService : iam.IAMService) (awsMachineTemplate : Object)
    (clusterName namespace role : string) : M Result :=
  roleUsed ← isRoleUsedElsewhere awsMachineTemplate
               (IAMInstanceProfile awsMachineTemplate);
  _ ← (if negb roleUsed then
         _ ← iam.DeleteRole iamService;
         if bool_decide (role = iam.ControlPlaneRole) then
           if EnableRoute53Role r
           then iam.DeleteRolesForIRSA iamService
           else mret tt
         else mret tt
       else mret tt);
  awsCluster ← key.GetAWSClusterByName clusterName;
  _ ← removeFinalizer awsCluster;
  _ ← removeFinalizer awsMachineTemplate;
  cm ← try (Get (ConfigMap, (namespace, clusterName ++ "-" ++ "cluster-values")));
  match cm with
  | Err err => returnErr emptyResult (WithStack (IgnoreNotFound (Some err)))
  | Ok cm =>
      _ ← removeFinalizer cm;
      mret emptyResult
  end.

(** [reconcileNormal] (src/main.go). *)
Definition reconcileNormal (r : AWSMachineTemplateReconciler)
    (iamService : iam.IAMService) (awsMachineTemplate : Object)
    (clusterName namespace role : string) : M Result :=
  _ ← (if negb (ContainsFinalizer awsMachineTemplate
                  (key.FinalizerName iam.ControlPlaneRole)) then
         patchHelper ← wrapped (NewHelper awsMachineTemplate);
         _ ← wrapped (Patch patchHelper
                        (AddFinalizer awsMachineTemplate
                           (key.FinalizerName iam.ControlPlaneRole)));
         mret tt
       else mret tt);
  awsCluster ← wrapped (key.GetAWSClusterByName clusterName);
  _ ← iam.ReconcileRole iamService;
  if bool_decide (role = iam.ControlPlaneRole) then
    if EnableRoute53Role r then
      awsClusterRoleIdentity ←
        wrapped (Get (AWSClusterRoleIdentity,
                      ("", SpecIdentityRefName awsCluster)));
      accountID ←
        wrapped (external (GetAWSAccountID (SpecRoleArn awsClusterRoleIdentity)));
      baseDomain ← wrapped (external (GetBaseDomain clusterName namespace));
      irsaDomain ← helper (IRSADomain baseDomain (SpecRegion awsCluster)
                             accountID clusterName);
      oldIrsaDomain ← helper (GetAdditionalIrsaDomain
                                (ObjectKeyFromObject awsMachineTemplate));
      _ ← wrapped (iam.ReconcileRolesForIRSA iamService accountID irsaDomain
                     oldIrsaDomain);
      mret emptyResult
    else mret emptyResult
  else mret emptyResult.

(** The helpers of [key] and the constructor [iam.New] that the
    reconcilers call are not among the sources: the reconcilers take
    them as parameters.  [key.GetAWSClusterRoleIdentity] reads the
    cluster-scoped AWSClusterRoleIdentity of that name. *)
Section Reconcilers.

Variable GetClusterIDFromLabels : ObjectMeta → result string.
Variable HasCapiWatchLabel : gmap string string → bool.
Variable IsControlPlaneAWSMachineTemplate : gmap string string → bool.
Variable IsBastionAWSMachineTemplate : gmap string string → bool.
Variable New : iam.IAMServiceConfig → result iam.IAMService.

(** [AWSMachineTemplateReconciler.Reconcile] (src/main.go). *)
Definition AWSMachineTemplateReconciler_Reconcile
    (r : AWSMachineTemplateReconciler) (req : string * string) : M Result :=
  got ← try (Get (AWSMachineTemplate, req));
  match got with
  | Err err => if IsNotFound err then mret emptyResult else fail err
  | Ok awsMachineTemplate =>
      let labels := Labels (ObjMeta awsMachineTemplate) in
      if negb (HasCapiWatchLabel labels) then mret emptyResult
      else
        let role :=
          if IsControlPlaneAWSMachineTemplate labels
          then Some iam.ControlPlaneRole
          else if IsBastionAWSMachineTemplate labels
               then Some iam.BastionRole
               else None in
        match role with
        | None => mret emptyResult
        | Some role =>
            clusterName ←
              wrapped (liftResult
                         (GetClusterIDFromLabels (ObjMeta awsMachineTemplate)));
            if bool_decide (IAMInstanceProfile awsMachineTemplate = "")
            then mret emptyResult
            else
              awsCluster ← wrapped (key.GetAWSClusterByName clusterName);
              awsClusterRoleIdentity ←
                wrapped (Get (AWSClusterRoleIdentity,
                              ("", SpecIdentityRefName awsCluster)));
              _ ← external (GetAWSClientSession
                              (SpecRoleArn awsClusterRoleIdentity)
                              (SpecRegion awsCluster));
              iamService ←
                liftResult
                  (New {| iam.ConfigClusterName := clusterName;
                          iam.ConfigMainRoleName :=
                            IAMInstanceProfile awsMachineTemplate;
                          iam.ConfigRoleType := role;
                          iam.ConfigRegion := SpecRegion awsCluster;
                          iam.ConfigCustomTags :=
                            SpecAdditionalTags awsCluster |});
              if isDeleting awsMachineTemplate
              then reconcileDelete r iamService awsMachineTemplate
                     clusterName req.1 role
              else reconcileNormal r iamService awsMachineTemplate
                     clusterName req.1 role
        end
  end.

(** [AWSManagedControlPlaneReconciler.Reconcile] (src/unnamed/part_000).
    It calls [ReconcileRolesForIRSA] without a previous issuer domain. *)
Definition AWSManagedControlPlaneReconciler_Reconcile
    (req : string * string) : M Result :=
  got ← try (Get (AWSManagedControlPlane, req));
  match got with
  | Err err => if IsNotFound err then mret emptyResult else fail (Wrap err)
  | Ok eksCluster =>
      clusterName ←
        wrapped (liftResult (GetClusterIDFromLabels (ObjMeta eksCluster)));
      if negb (HasCapiWatchLabel (Labels (ObjMeta eksCluster)))
      then mret emptyResult
      else
        match SpecRoleName eksCluster with
        | None => mret {| Requeue := true; RequeueAfter := Minute |}
        | Some roleName =>
            awsClusterRoleIdentity ←
              wrapped (Get (AWSClusterRoleIdentity,
                            ("", SpecIdentityRefName eksCluster)));
            _ ← wrapped (external (GetAWSClientSession
                                     (SpecRoleArn awsClusterRoleIdentity)
                                     (SpecRegion eksCluster)));
            _ ← wrapped (external StsGetCallerIdentity);
            iamService ←
              wrapped (liftResult
                         (New {| iam.ConfigClusterName := clusterName;
                                 iam.ConfigMainRoleName := roleName;
                                 iam.ConfigRoleType := iam.IRSARole;
                                 iam.ConfigRegion := "";
                                 iam.ConfigCustomTags := ∅ |}));
            _ ← (if isDeleting eksCluster then
                   _ ← wrapped (iam.DeleteRolesForIRSA iamService);
                   if ContainsFinalizer eksCluster
                        (key.FinalizerName iam.IRSARole) then
                     patchHelper ← wrapped (NewHelper eksCluster);
                     _ ← wrapped (Patch patchHelper
                                    (RemoveFinalizer eksCluster
                                       (key.FinalizerName iam.IRSARole)));
                     mret tt
                   else mret tt
                 else
                   _ ← (if negb (ContainsFinalizer eksCluster
                                   (key.FinalizerName iam.IRSARole)) then
                          patchHelper ← wrapped (NewHelper eksCluster);
                          _ ← wrapped (Patch patchHelper
                                         (AddFinalizer eksCluster
                                            (key.FinalizerName iam.IRSARole)));
                          mret tt
                        else mret tt);
                   accountID ←
                     wrapped (external (GetAWSAccountID
                                          (SpecRoleArn awsClusterRoleIdentity)));
                   eksOpenIdDomain ←
                     wrapped (external (GetIRSAOpenIDURlForEKS
                                          (Name (ObjMeta eksCluster))));
                   eksRoleARN ← wrapped (iam.GetRoleARN roleName);
                   wrapped (iam.ReconcileRolesForIRSA
                              (iam.SetPrincipalRoleARN iamService eksRoleARN)
                              accountID eksOpenIdDomain ""));
            mret {| Requeue := true; RequeueAfter := 0 |}
        end
  end.

End Reconcilers.

(** ** Vocabulary of the statements *)

(** The AWSClusters the label selector of [GetAWSClusterByName] yields. *)
Definition clustersNamed (clusterName : string) (w : World) : list Object :=
  filter (λ o, kindOf o = AWSCluster
               ∧ matchesLabels [(key.ClusterNameLabel, clusterName)] o = true)
    (map_to_list (objects w)).*2.

(** The events a run from [w] to [w'] added to the trace. *)
Definition since (w w' : World) : list Event :=
  drop (length (trace w)) (trace w').

Definition isPatchCall (ev : Event) : bool :=
  match ev with
  | Called (ClientPatch _ _) _ => true
  | _ => false
  end.

Definition isGetCall (ev : Event) : bool :=
  match ev with
  | Called (ClientGet _) _ => true
  | _ => false
  end.

Definition count (p : Event → bool) (t : list Event) : nat :=
  length (filter (λ ev, p ev = true) t).

(** Every object of the store sits under its own key. *)
Definition wellKeyed (w : World) : Prop :=
  map_Forall (λ k o, ObjectKeyFromObject o = k) (objects w).

(** What a computation may touch: the failures and answers of the
    environment never change; [keepObjects] and [keepIam] say which system
    of record it leaves alone. *)
Definition frame (keepObjects keepIam : bool) (w w' : World) : Prop :=
  faults w' = faults w
  ∧ answers w' = answers w
  ∧ (keepObjects = true → objects w' = objects w)
  ∧ (keepIam = true → iam w' = iam w ∧ history w' = history w).

(** [steps P ko ki m]: from any world, [m] only appends events satisfying
    [P] to the trace and stays within the frame. *)
Definition steps {A} (P : Event → Prop) (keepObjects keepIam : bool)
    (m : M A) : Prop :=
  ∀ w, frame keepObjects keepIam w (m w).2
       ∧ ∃ t, trace (m w).2 = (trace w ++ t)%list ∧ Forall P t.

(** No call fails unless the semantics of the systems say so. *)
Definition noFaults (w : World) : Prop := ∀ n op, faults w n op = None.

(** The failure of a patch is one the loop of [removeFinalizer] retries:
    filtering out what is not Invalid leaves something. *)
Definition retryable (err : error) : bool :=
  bool_decide (is_Some (FilterOut (Some err) (λ e, negb (IsInvalid e)))).

(** The finalizer of the AWSMachineTemplate reconciler, and the world
    after one failed attempt of [removeFinalizer] on [object]: the snapshot
    of the patch helper, then the patch request failing with [e]. *)
Definition controlPlaneFinalizer : string :=
  key.FinalizerName iam.ControlPlaneRole.

Definition afterFailedAttempt (object : Object) (e : error) (w : World)
    : World :=
  record (Called (ClientPatch (ObjectKeyFromObject object)
                    (filter (λ f, f ≠ controlPlaneFinalizer)
                       (GetFinalizers object))) (Some e))
    (record (Called (PatchNewHelper (ObjectKeyFromObject object)) None) w).

(** An environment in which every patch request fails with the retryable
    reason Invalid, and reading and snapshotting never fail. *)
Definition patchAlwaysInvalid (w : World) : Prop :=
  (∀ n k f, faults w n (ClientPatch k f)
            = Some (StatusError StatusReasonInvalid))
  ∧ (∀ n k, faults w n (ClientGet k) = None)
  ∧ (∀ n k, faults w n (PatchNewHelper k) = None).

(** The events of one failed attempt and of one refetch. *)
Definition failedAttempt (key : Kind * (string * string))
    (finalizers : list string) (e : error) : list Event :=
  [Called (PatchNewHelper key) None;
   Called (ClientPatch key (filter (λ f, f ≠ controlPlaneFinalizer) finalizers))
     (Some e)].

Definition refetch (key : Kind * (string * string)) : list Event :=
  [Called (ClientGet key) None].

(** [atMost p n m]: from any world, [m] appends at most [n] events
    satisfying [p]. *)
Definition atMost {A} (p : Event → bool) (n : nat) (m : M A) : Prop :=
  ∀ w, ∃ t, trace (m w).2 = (trace w ++ t)%list ∧ (count p t ≤ n)%nat.

(** ** Sample objects and worlds

    The cluster of the test suite: AWSCluster [myawsc] of cluster
    [test-cluster], and two AWSMachineTemplates that name the same IAM
    instance profile. *)

Definition sampleNamespace : string := "org-test".

Definition sampleLabels : gmap string string :=
  {[ key.ClusterNameLabel := "test-cluster";
     "cluster.x-k8s.io/watch-filter" := "capi" ]}.

Definition sampleObject (name : string) (finalizers : list string)
    (deletionTimestamp : option nat) (spec : Spec) : Object :=
  {| ObjMeta := {| Namespace := sampleNamespace; Name := name;
                   Labels := sampleLabels; Finalizers := finalizers;
                   DeletionTimestamp := deletionTimestamp |};
     ObjSpec := spec |}.

Definition sampleRoleName : string := "control-plane-test-cluster".

Definition templateA : Object :=
  sampleObject "test-cluster-control-plane-a" [controlPlaneFinalizer]
    (Some 1) (AWSMachineTemplateSpec sampleRoleName).

Definition templateB : Object :=
  sampleObject "test-cluster-control-plane-b" [controlPlaneFinalizer]
    None (AWSMachineTemplateSpec sampleRoleName).

Definition sampleCluster : Object :=
  sampleObject "myawsc" [controlPlaneFinalizer] None
    (AWSClusterSpec "default" "eu-west-1" ∅).

Definition sampleConfigMap : Object :=
  sampleObject "test-cluster-cluster-values" [controlPlaneFinalizer] None
    (ConfigMapData ∅).

Definition storeOf (l : list Object)
    : gmap (Kind * (string * string)) Object :=
  list_to_map ((λ o, (ObjectKeyFromObject o, o)) <$> l).

Definition emptyIam : IAMState :=
  {| Account := "999666333"; Roles := ∅; InstanceProfiles := ∅;
     OIDCProviders := ∅ |}.

Definition sampleWorld (l : list Object) (s : IAMState)
    (f : nat → Op → option error) : World :=
  {| objects := storeOf l; iam := s; trace := []; history := [];
     faults := f; answers := λ _, "" |}.

Definition noFault : nat → Op → option error := λ _ _, None.

(** Every patch request fails with the given status reason. *)
Definition patchFails (reason : StatusReason) : nat → Op → option error :=
  λ _ op,
    match op with
    | ClientPatch _ _ => Some (StatusError reason)
    | _ => None
    end.

(** Classes of events. *)
Definition isK8sOp (op : Op) : bool :=
  match op with
  | ClientGet _ | ClientList _ _ | ClientPatch _ _ | PatchNewHelper _ => true
  | _ => false
  end.

Definition isIamOp (op : Op) : bool :=
  match op with
  | IamGetRole _ | IamCreateRole _ _ _ | IamUpdateAssumeRolePolicy _ _
  | IamTagRole _ _ | IamListRolePolicies _ | IamGetRolePolicy _ _
  | IamPutRolePolicy _ _ _ | IamDeleteRolePolicy _ _
  | IamGetInstanceProfile _ | IamCreateInstanceProfile _ _
  | IamAddRoleToInstanceProfile _ _ | IamRemoveRoleFromInstanceProfile _ _
  | IamDeleteInstanceProfile _ | IamDeleteRole _
  | IamDeleteOpenIDConnectProvider _ => true
  | _ => false
  end.

Definition isK8sCall (ev : Event) : Prop :=
  match ev with
  | Called op _ => isK8sOp op = true
  | _ => False
  end.

Definition isIamCall (ev : Event) : Prop :=
  match ev with
  | Called op _ => isIamOp op = true
  | _ => False
  end.

(** A remote IAM call that changes the remote state when it succeeds. *)
Definition isIamMutation (op : Op) : bool :=
  match op with
  | IamCreateRole _ _ _ | IamUpdateAssumeRolePolicy _ _ | IamTagRole _ _
  | IamPutRolePolicy _ _ _ | IamDeleteRolePolicy _ _
  | IamCreateInstanceProfile _ _ | IamAddRoleToInstanceProfile _ _
  | IamRemoveRoleFromInstanceProfile _ _ | IamDeleteInstanceProfile _
  | IamDeleteRole _ | IamDeleteOpenIDConnectProvider _ => true
  | _ => false
  end.

(** What a method of the IAM service adds to the trace: IAM calls between
    its entry and its return. *)
Definition isIamEvent (ev : Event) : Prop :=
  match ev with
  | Called op _ => isIamOp op = true
  | Enter _ | Leave _ _ => True
  | RoleUsed _ => False
  end.

(** An AWSManagedControlPlane whose role has not been created yet. *)
Definition sampleControlPlane (roleName : option string)
    (deletionTimestamp : option nat) : Object :=
  sampleObject "test-cluster" [key.FinalizerName iam.IRSARole]
    deletionTimestamp (AWSManagedControlPlaneSpec roleName "default" "eu-west-1").

(** Instances of the helpers the reconcilers are parameterised by. *)
Definition sampleGetClusterIDFromLabels (t : ObjectMeta) : result string :=
  match Labels t !! key.ClusterNameLabel with
  | Some clusterName => Ok clusterName
  | None => Err (Errorf "missing cluster name label")
  end.

Definition sampleHasCapiWatchLabel (labels : gmap string string) : bool :=
  bool_decide (labels !! "cluster.x-k8s.io/watch-filter" = Some "capi").

Definition sampleCatalog (clusterName : string) : list iam.IRSABinding :=
  [ {| iam.WorkloadIdentity := "external-dns";
       iam.BindingRoleName := clusterName ++ "-Route53Manager-Role";
       iam.BindingPolicyName := "irsa-role-" ++ clusterName ++ "-policy";
       iam.BindingPolicyDocument := "route53" |};
    {| iam.WorkloadIdentity := "cert-manager";
       iam.BindingRoleName := clusterName ++ "-CertManager-Role";
       iam.BindingPolicyName := "irsa-role-" ++ clusterName ++ "-policy";
       iam.BindingPolicyDocument := "cert-manager" |} ].

Definition sampleNew (c : iam.IAMServiceConfig) : result iam.IAMService :=
  Ok {| iam.ClusterName := iam.ConfigClusterName c;
        iam.MainRoleName := iam.ConfigMainRoleName c;
        iam.RoleType := iam.ConfigRoleType c;
        iam.Region := iam.ConfigRegion c;
        iam.CustomTags := iam.ConfigCustomTags c;
        iam.PrincipalRoleARN := "";
        iam.MainTrustPolicy := ["ec2.amazonaws.com"];
        iam.MainPolicyDocument := "control-plane";
        iam.Catalog := sampleCatalog (iam.ConfigClusterName c) |}.

(** The three phases of [reconcileDelete]: guard and remote teardown, the
    finalizers of AWSCluster and AWSMachineTemplate, the finalizer of the
    cluster-values ConfigMap. *)
Definition reconcileDelete_teardown (r : AWSMachineTemplateReconciler)
    (iamService : iam.IAMService) (awsMachineTemplate : Object)
    (role : string) : M unit :=
  roleUsed ← isRoleUsedElsewhere awsMachineTemplate
               (IAMInstanceProfile awsMachineTemplate);
  if negb roleUsed then
    _ ← iam.DeleteRole iamService;
    if bool_decide (role = iam.ControlPlaneRole) then
      if EnableRoute53Role r
      then iam.DeleteRolesForIRSA iamService
      else mret tt
    else mret tt
  else mret tt.

Definition reconcileDelete_finalizers (awsMachineTemplate : Object)
    (clusterName : string) : M unit :=
  awsCluster ← key.GetAWSClusterByName clusterName;
  _ ← removeFinalizer awsCluster;
  removeFinalizer awsMachineTemplate.

Definition clusterValuesKey (clusterName namespace : string)
    : Kind * (string * string) :=
  (ConfigMap, (namespace, clusterName ++ "-" ++ "cluster-values")).

Definition reconcileDelete_configMap (clusterName namespace : string)
    : M Result :=
  cm ← try (Get (clusterValuesKey clusterName namespace));
  match cm with
  | Err err => returnErr emptyResult (WithStack (IgnoreNotFound (Some err)))
  | Ok cm =>
      _ ← removeFinalizer cm;
      mret emptyResult
  end.

(** [failsWith Q m]: [m] only extends the trace, and when it returns an
    error, that error satisfies [Q] and is the error of the last call
    made. *)
Definition failsWith {A} (Q : error → Prop) (m : M A) : Prop :=
  ∀ w,
    (∃ t, trace (m w).2 = (trace w ++ t)%list)
    ∧ ∀ e, (m w).1 = Err e →
           Q e ∧ ∃ op t, trace (m w).2
                         = (trace w ++ t ++ [Called op (Some e)])%list.

(** The service of the sample cluster, for the role of the templates. *)
Definition sampleService : iam.IAMService :=
  {| iam.ClusterName := "test-cluster";
     iam.MainRoleName := sampleRoleName;
     iam.RoleType := iam.ControlPlaneRole;
     iam.Region := "eu-west-1";
     iam.CustomTags := ∅;
     iam.PrincipalRoleARN := "";
     iam.MainTrustPolicy := ["ec2.amazonaws.com"];
     iam.MainPolicyDocument := "control-plane";
     iam.Catalog := sampleCatalog "test-cluster" |}.

Definition sampleReconciler : AWSMachineTemplateReconciler :=
  {| EnableKiamRole := true; EnableRoute53Role := true |}.

(** The AWSMachineTemplates the guard lists, and its answer in a world
    where the list succeeds. *)
Definition templatesOf (w : World) : list Object :=
  filter (λ o, kindOf o = AWSMachineTemplate ∧ matchesLabels [] o = true)
    (map_to_list (objects w)).*2.

Definition usedElsewhere (self : Object) (roleName : string) (w : World)
    : bool :=
  existsb (λ o, bool_decide (ObjectKeyFromObject o ≠ ObjectKeyFromObject self)
                && bool_decide (IAMInstanceProfile o = roleName))
    (templatesOf w).

(** The remote roles guarded by the finalizers of [reconcileDelete] have
    been deleted: [DeleteRole] returned success, and so did
    [DeleteRolesForIRSA] where the reconciler calls it. *)
Definition tornDown (r : AWSMachineTemplateReconciler) (role : string)
    (t : list Event) : Prop :=
  Leave MDeleteRole None ∈ t
  ∧ (role = iam.ControlPlaneRole → EnableRoute53Role r = true →
     Leave MDeleteRolesForIRSA None ∈ t).

(** A patch request whose finalizer list lacks [finalizer]. *)
Definition removesFinalizer (finalizer : string) (ev : Event) : bool :=
  match ev with
  | Called (ClientPatch _ finalizers) _ => bool_decide (finalizer ∉ finalizers)
  | _ => false
  end.

Definition irsaFinalizer : string := key.FinalizerName iam.IRSARole.

(** The traces of the first phase of [reconcileDelete], by outcome: the
    list of the guard fails; the guard finds the role used; [DeleteRole]
    fails; [DeleteRole] succeeds and nothing else is due; [DeleteRole]
    succeeds and [DeleteRolesForIRSA] follows. *)
Inductive teardownTrace (r : AWSMachineTemplateReconciler) (role : string)
    : result unit → list Event → Prop :=
| TeardownListFails e :
    teardownTrace r role (Err (Wrap e))
      [Called (ClientList AWSMachineTemplate []) (Some e)]
| TeardownSkipped :
    teardownTrace r role (Ok tt)
      [Called (ClientList AWSMachineTemplate []) None; RoleUsed true]
| TeardownDeleteRoleFails e td :
    Forall isIamCall td →
    teardownTrace r role (Err e)
      ([Called (ClientList AWSMachineTemplate []) None; RoleUsed false;
        Enter MDeleteRole] ++ td ++ [Leave MDeleteRole (Some e)])
| TeardownRoleDeleted td :
    Forall isIamCall td →
    ¬ (role = iam.ControlPlaneRole ∧ EnableRoute53Role r = true) →
    teardownTrace r role (Ok tt)
      ([Called (ClientList AWSMachineTemplate []) None; RoleUsed false;
        Enter MDeleteRole] ++ td ++ [Leave MDeleteRole None])
| TeardownIRSA td ti res :
    Forall isIamCall td → Forall isIamCall ti →
    role = iam.ControlPlaneRole → EnableRoute53Role r = true →
    teardownTrace r role res
      ([Called (ClientList AWSMachineTemplate []) None; RoleUsed false;
        Enter MDeleteRole] ++ td
       ++ [Leave MDeleteRole None; Enter MDeleteRolesForIRSA] ++ ti
       ++ [Leave MDeleteRolesForIRSA (errOf res)]).

(** Calls that change neither system of record: everything but a patch
    and the IAM API. *)
Definition isQuietOp (op : Op) : bool :=
  match op with
  | ClientPatch _ _ => false
  | _ => negb (isIamOp op)
  end.

Definition isQuietCall (ev : Event) : Prop :=
  match ev with
  | Called op _ => isQuietOp op = true
  | _ => False
  end.

(** An event that neither removes the IRSA finalizer nor is a return of
    [DeleteRolesForIRSA]. *)
Definition keepsIRSAFinalizer (ev : Event) : Prop :=
  removesFinalizer irsaFinalizer ev = false
  ∧ ∀ err, ev ≠ Leave MDeleteRolesForIRSA err.

(** The deletion branch of [AWSManagedControlPlaneReconciler.Reconcile]
    and the addition of the finalizer in the other branch. *)
Definition deleteManagedControlPlane (iamService : iam.IAMService)
    (eksCluster : Object) : M unit :=
  _ ← wrapped (iam.DeleteRolesForIRSA iamService);
  if ContainsFinalizer eksCluster (key.FinalizerName iam.IRSARole) then
    patchHelper ← wrapped (NewHelper eksCluster);
    _ ← wrapped (Patch patchHelper
                   (RemoveFinalizer eksCluster (key.FinalizerName iam.IRSARole)));
    mret tt
  else mret tt.

Definition reconcileManagedControlPlane (iamService : iam.IAMService)
    (eksCluster awsClusterRoleIdentity : Object) (roleName : string)
    : M unit :=
  _ ← (if negb (ContainsFinalizer eksCluster
                  (key.FinalizerName iam.IRSARole)) then
         patchHelper ← wrapped (NewHelper eksCluster);
         _ ← wrapped (Patch patchHelper
                        (AddFinalizer eksCluster
                           (key.FinalizerName iam.IRSARole)));
         mret tt
       else mret tt);
  accountID ←
    wrapped (external (GetAWSAccountID (SpecRoleArn awsClusterRoleIdentity)));
  eksOpenIdDomain ←
    wrapped (external (GetIRSAOpenIDURlForEKS (Name (ObjMeta eksCluster))));
  eksRoleARN ← wrapped (iam.GetRoleARN roleName);
  wrapped (iam.ReconcileRolesForIRSA
             (iam.SetPrincipalRoleARN iamService eksRoleARN)
             accountID eksOpenIdDomain "").

(** The shape of a run of [AWSManagedControlPlaneReconciler.Reconcile]:
    either nothing in it removes the IRSA finalizer or returns from
    [DeleteRolesForIRSA], or it is the deletion branch: quiet calls, the
    teardown between its brackets, then calls of the Kubernetes client,
    none of them if the teardown failed. *)
Definition managedControlPlaneShape (k : M Result) : Prop :=
  ∀ w, ∃ t,
    trace (k w).2 = (trace w ++ t)%list
    ∧ (Forall keepsIRSAFinalizer t
       ∨ ∃ t0 ti t3 err,
           t = (t0 ++ Enter MDeleteRolesForIRSA :: ti
                ++ [Leave MDeleteRolesForIRSA err] ++ t3)%list
           ∧ Forall isQuietCall t0 ∧ Forall isIamCall ti
           ∧ Forall isK8sCall t3
           ∧ (∀ e, err = Some e →
                   t3 = [] ∧ (k w).1 = Err (Wrap e)
                   ∧ objects (k w).2 = objects w)).

(** The store after [removeFinalizer] released object [o], read fresh from
    it: without the finalizer, or gone when it was being deleted and this
    was its last finalizer. *)
Definition released (o : Object)
    (objs : gmap (Kind * (string * string)) Object)
    : gmap (Kind * (string * string)) Object :=
  if ContainsFinalizer o controlPlaneFinalizer then
    if isDeleting o
       && bool_decide (GetFinalizers (RemoveFinalizer o controlPlaneFinalizer)
                       = [])
    then delete (ObjectKeyFromObject o) objs
    else <[ObjectKeyFromObject o := RemoveFinalizer o controlPlaneFinalizer]> objs
  else objs.

(** The store after a [reconcileDelete] that meets no failure: the
    finalizers of the AWSCluster, of the AWSMachineTemplate and of the
    cluster-values ConfigMap, if there is one, are released in turn. *)
Definition releasedConfigMap (clusterName namespace : string)
    (objs : gmap (Kind * (string * string)) Object)
    : gmap (Kind * (string * string)) Object :=
  match objs !! clusterValuesKey clusterName namespace with
  | Some cm => released cm objs
  | None => objs
  end.

Definition isEnterDeleteRole (ev : Event) : bool :=
  match ev with
  | Enter MDeleteRole => true
  | _ => false
  end.

(** Another tracked object, stored under [k], references the role of
    [self]. *)
Definition referencedBy (self : Object) (w : World)
    (k : Kind * (string * string)) (other : Object) : Prop :=
  objects w !! k = Some other
  ∧ kindOf other = AWSMachineTemplate
  ∧ ObjectKeyFromObject other ≠ ObjectKeyFromObject self
  ∧ IAMInstanceProfile other = IAMInstanceProfile self.

(** The API server marks an object that has finalizers as being deleted. *)
Definition markDeleted (o : Object) : Object :=
  {| ObjMeta := {| Namespace := Namespace (ObjMeta o);
                   Name := Name (ObjMeta o);
                   Labels := Labels (ObjMeta o);
                   Finalizers := Finalizers (ObjMeta o);
                   DeletionTimestamp :=
                     Some (default 1 (DeletionTimestamp (ObjMeta o))) |};
     ObjSpec := ObjSpec o |}.

Definition requestDeletion (o : Object) (w : World) : World :=
  setObjects (<[ObjectKeyFromObject o := markDeleted o]> (objects w)) w.

(** The remote state of the sample cluster: the role of the templates with
    its inline policy and its instance profile. *)
Definition sampleIam : IAMState :=
  {| Account := "999666333";
     Roles := {[ sampleRoleName :=
                   {| Arn := "arn:aws:iam::999666333:role/" ++ sampleRoleName;
                      AssumeRolePolicyDocument := ["ec2.amazonaws.com"];
                      RoleTags := list_to_map (iam.tags sampleService);
                      RolePolicies :=
                        {[ iam.policyName sampleService := "control-plane" ]} |} ]};
     InstanceProfiles := {[ sampleRoleName := [sampleRoleName] ]};
     OIDCProviders := {[ "test-cluster" ]} |}.

Definition sampleStore : list Object :=
  [templateA; templateB; sampleCluster; sampleConfigMap].

(** ** The SecretReconciler test (src/unnamed/part_001) *)

(** [expectedIAMTags], the tags the test expects on every role and
    instance profile of cluster [test-cluster]. *)
Definition expectedIAMTags : list (string * string) :=
  [ ("capi-iam-controller/owned", "");
    ("sigs.k8s.io/cluster-api-provider-aws/cluster/test-cluster", "owned") ].

(** The reserved markers of a service, as a map. *)
Definition reservedTags (s : iam.IAMService) : gmap string string :=
  {[ iam.ownedTagKey := "" ]}
  ∪ {[ iam.clusterTagKey (iam.ClusterName s) := "owned" ]}.

(** ** Vocabulary of the rotation of the issuer domain *)

(** The trust policy of role [roleName], if the role exists, has a
    statement for the current or for the previous issuer. *)
Definition trusts (irsaDomain oldIrsaDomain roleName : string)
    (s : IAMState) : Prop :=
  match Roles s !! roleName with
  | Some r => irsaDomain ∈ AssumeRolePolicyDocument r
              ∨ oldIrsaDomain ∈ AssumeRolePolicyDocument r
  | None => True
  end.

(** A step from [s] to [s'] takes the statement of the previous issuer out
    of the trust policy of [roleName] only if the current issuer is
    trusted before the step and after it. *)
Definition establishedBefore (irsaDomain oldIrsaDomain roleName : string)
    (s s' : IAMState) : Prop :=
  match Roles s !! roleName, Roles s' !! roleName with
  | Some r, Some r' =>
      oldIrsaDomain ∈ AssumeRolePolicyDocument r →
      oldIrsaDomain ∉ AssumeRolePolicyDocument r' →
      irsaDomain ∈ AssumeRolePolicyDocument r
      ∧ irsaDomain ∈ AssumeRolePolicyDocument r'
  | _, _ => True
  end.

Definition rotationStep (irsaDomain oldIrsaDomain roleName : string)
    (s s' : IAMState) : Prop :=
  (trusts irsaDomain oldIrsaDomain roleName s →
   trusts irsaDomain oldIrsaDomain roleName s')
  ∧ establishedBefore irsaDomain oldIrsaDomain roleName s s'.

(** Every step of the sequence [s :: hs] satisfies [R]. *)
Fixpoint chain (R : IAMState → IAMState → Prop) (s : IAMState)
    (hs : list IAMState) : Prop :=
  match hs with
  | [] => True
  | s' :: hs' => R s s' ∧ chain R s' hs'
  end.

(** A trust-policy update of [roleName] whose document has no statement
    for [oldIrsaDomain]. *)
Definition removesIssuer (oldIrsaDomain roleName : string) (ev : Event)
    : Prop :=
  match ev with
  | Called (IamUpdateAssumeRolePolicy role doc) _ =>
      role = roleName ∧ oldIrsaDomain ∉ doc
  | _ => False
  end.

(** Every update in [t] that removes the previous issuer from [roleName]
    keeps the current one and comes directly after a successful read of
    the role. *)
Definition confirmedFirst (irsaDomain oldIrsaDomain roleName : string)
    (t : list Event) : Prop :=
  ∀ pre ev post,
    t = (pre ++ ev :: post)%list → removesIssuer oldIrsaDomain roleName ev →
    (∃ doc err,
       ev = Called (IamUpdateAssumeRolePolicy roleName doc) err
       ∧ irsaDomain ∈ doc)
    ∧ last pre = Some (Called (IamGetRole roleName) None).

(** The helpers of [key] derive [irsaDomain] as the issuer domain and
    report [oldIrsaDomain] as the previous one. *)
Definition issuers (irsaDomain oldIrsaDomain : string) (ans : Op → string)
    : Prop :=
  (∀ baseDomain region accountID cluster,
     ans (IRSADomain baseDomain region accountID cluster) = irsaDomain)
  ∧ ∀ k, ans (GetAdditionalIrsaDomain k) = oldIrsaDomain.

(** What a run from [w] to [w'] shows of role [roleName]: the IAM states
    it passed through and the events it appended. *)
Definition rotationOutcome (irsaDomain oldIrsaDomain roleName : string)
    (w w' : World) : Prop :=
  ∃ hs t,
    history w' = (history w ++ hs)%list
    ∧ trace w' = (trace w ++ t)%list
    ∧ Forall (trusts irsaDomain oldIrsaDomain roleName) hs
    ∧ chain (establishedBefore irsaDomain oldIrsaDomain roleName) (iam w) hs
    ∧ confirmedFirst irsaDomain oldIrsaDomain roleName t.

(** [rotationSafe J n o role m]: in an environment whose answers satisfy
    [J], every step of the IAM state that [m] makes is a [rotationStep],
    its removals of the previous issuer are confirmed first, and the
    answers of the environment stay as they are. *)
Definition rotationSafe {A} (J : (Op → string) → Prop)
    (irsaDomain oldIrsaDomain roleName : string) (m : M A) : Prop :=
  ∀ w, J (answers w) →
    answers (m w).2 = answers w
    ∧ ∃ hs t,
        history (m w).2 = (history w ++ hs)%list
        ∧ trace (m w).2 = (trace w ++ t)%list
        ∧ chain (rotationStep irsaDomain oldIrsaDomain roleName) (iam w) hs
        ∧ iam (m w).2 = default (iam w) (last hs)
        ∧ confirmedFirst irsaDomain oldIrsaDomain roleName t.

(** A cluster whose issuer domain changes from [old.example.com] to
    [new.example.com]; the role of external-dns trusts the old one. *)
Definition oldIssuer : string := "old.example.com".
Definition newIssuer : string := "new.example.com".

Definition sampleIdentity : Object :=
  {| ObjMeta := {| Namespace := ""; Name := "default"; Labels := ∅;
                   Finalizers := []; DeletionTimestamp := None |};
     ObjSpec := AWSClusterRoleIdentitySpec
                  "arn:aws:iam::999666333:role/capa-controller" |}.

Definition rotationAnswers (op : Op) : string :=
  match op with
  | IRSADomain _ _ _ _ => newIssuer
  | GetAdditionalIrsaDomain _ => oldIssuer
  | GetAWSAccountID _ => "999666333"
  | GetBaseDomain _ _ => "example.com"
  | _ => ""
  end.

Definition route53Role : string := "test-cluster-Route53Manager-Role".

Definition rotationIam : IAMState :=
  {| Account := "999666333";
     Roles := <[ route53Role :=
                   {| Arn := "arn:aws:iam::999666333:role/" ++ route53Role;
                      AssumeRolePolicyDocument := [oldIssuer];
                      RoleTags := list_to_map (iam.tags sampleService);
                      RolePolicies :=
                        {[ "irsa-role-test-cluster-policy" := "route53" ]} |} ]>
                (Roles sampleIam);
     InstanceProfiles := InstanceProfiles sampleIam;
     OIDCProviders := OIDCProviders sampleIam |}.

Definition rotationWorld : World :=
  {| objects := storeOf [templateB; sampleCluster; sampleIdentity];
     iam := rotationIam; trace := []; history := [];
     faults := noFault; answers := rotationAnswers |}.

(** The trust policy of [roleName] in each state of a history. *)
Definition trustHistory (roleName : string) (hs : list IAMState)
    : list (option (list string)) :=
  (λ s, AssumeRolePolicyDocument <$> Roles s !! roleName) <$> hs.

(** ** Further samples *)

Definition sampleIsControlPlaneAWSMachineTemplate
    (labels : gmap string string) : bool :=
  bool_decide (labels !! "cluster.x-k8s.io/role" = Some iam.ControlPlaneRole).

Definition sampleIsBastionAWSMachineTemplate
    (labels : gmap string string) : bool :=
  bool_decide (labels !! "cluster.x-k8s.io/role" = Some iam.BastionRole).

(** ** Vocabulary of the reconcile of a live template *)

(** An event that is no entry to or return from a method of the IAM
    service other than those of [ms]. *)
Definition withinMethods (ms : list Method) (ev : Event) : Prop :=
  match ev with
  | Enter m | Leave m _ => m ∈ ms
  | _ => True
  end.

(** In [t], every event satisfying [Q] has the event [guard] before it. *)
Definition precedes (guard : Event) (Q : Event → Prop) (t : list Event)
    : Prop :=
  ∀ pre ev post, t = (pre ++ ev :: post)%list → Q ev → guard ∈ pre.

(** The two phases of [reconcileNormal]: the finalizer of the template,
    then the roles. *)
Definition reconcileNormal_finalizer (awsMachineTemplate : Object) : M unit :=
  if negb (ContainsFinalizer awsMachineTemplate
             (key.FinalizerName iam.ControlPlaneRole)) then
    patchHelper ← wrapped (NewHelper awsMachineTemplate);
    _ ← wrapped (Patch patchHelper
                   (AddFinalizer awsMachineTemplate
                      (key.FinalizerName iam.ControlPlaneRole)));
    mret tt
  else mret tt.

Definition reconcileNormal_irsa (iamService : iam.IAMService)
    (awsMachineTemplate awsCluster : Object) (clusterName namespace : string)
    : M Result :=
  awsClusterRoleIdentity ←
    wrapped (Get (AWSClusterRoleIdentity,
                  ("", SpecIdentityRefName awsCluster)));
  accountID ←
    wrapped (external (GetAWSAccountID (SpecRoleArn awsClusterRoleIdentity)));
  baseDomain ← wrapped (external (GetBaseDomain clusterName namespace));
  irsaDomain ← helper (IRSADomain baseDomain (SpecRegion awsCluster)
                         accountID clusterName);
  oldIrsaDomain ← helper (GetAdditionalIrsaDomain
                            (ObjectKeyFromObject awsMachineTemplate));
  _ ← wrapped (iam.ReconcileRolesForIRSA iamService accountID irsaDomain
                 oldIrsaDomain);
  mret emptyResult.

Definition reconcileNormal_roles (r : AWSMachineTemplateReconciler)
    (iamService : iam.IAMService) (awsMachineTemplate : Object)
    (clusterName namespace role : string) : M Result :=
  awsCluster ← wrapped (key.GetAWSClusterByName clusterName);
  _ ← iam.ReconcileRole iamService;
  if bool_decide (role = iam.ControlPlaneRole) then
    if EnableRoute53Role r
    then reconcileNormal_irsa iamService awsMachineTemplate awsCluster
           clusterName namespace
    else mret emptyResult
  else mret emptyResult.

(** A live template without the finalizer, in a store without failures. *)
Definition templateC : Object :=
  sampleObject "test-cluster-control-plane-c" [] None
    (AWSMachineTemplateSpec sampleRoleName).

Definition liveWorld : World :=
  {| objects := storeOf [templateC; sampleCluster; sampleIdentity];
     iam := emptyIam; trace := []; history := [];
     faults := noFault; answers := rotationAnswers |}.

(** A template that is being deleted, alone with its role. *)
Definition deletionWorld : World :=
  sampleWorld [templateA; sampleCluster; sampleConfigMap] sampleIam noFault.

(** The same store without the AWSCluster. *)
Definition orphanWorld : World :=
  sampleWorld [templateA; sampleConfigMap] sampleIam noFault.

(** A copy of [templateA] read before another controller removed its
    finalizer from the stored object. *)
Definition staleFinalizer : string :=
  "awsmachinetemplate.infrastructure.cluster.x-k8s.io".

Definition staleTemplateA : Object :=
  SetFinalizers templateA [staleFinalizer; controlPlaneFinalizer].

(** What sends no patch request. *)
Definition sendsNoPatch (ev : Event) : Prop := ¬ isPatchCall ev = true.

(** [masked Q m]: every error [m] returns is wrapped by [microerror.Mask],
    and every value it returns satisfies [Q]. *)
Definition masked {A} (Q : A → Prop) (m : M A) : Prop :=
  ∀ w, match (m w).1 with
       | Ok a => Q a
       | Err e => ∃ e', e = Wrap e'
       end.

(** A template with the control-plane role label. *)
Definition withLabel (o : Object) (k v : string) : Object :=
  {| ObjMeta := {| Namespace := Namespace (ObjMeta o);
                   Name := Name (ObjMeta o);
                   Labels := <[k := v]> (Labels (ObjMeta o));
                   Finalizers := Finalizers (ObjMeta o);
                   DeletionTimestamp := DeletionTimestamp (ObjMeta o) |};
     ObjSpec := ObjSpec o |}.

Definition controlPlaneTemplateA : Object :=
  withLabel templateA "cluster.x-k8s.io/role" iam.ControlPlaneRole.

Definition handledWorld : World :=
  sampleWorld [controlPlaneTemplateA; sampleCluster; sampleConfigMap;
               sampleIdentity] sampleIam noFault.

(** ** The shared role and a held template *)

(** Template A held by the finalizer of another controller as well. *)
Definition heldTemplateA : Object :=
  sampleObject "test-cluster-control-plane-a"
    [controlPlaneFinalizer; "other.controller/finalizer"%string]
    (Some 1) (AWSMachineTemplateSpec sampleRoleName).

Definition heldStore : list Object :=
  [heldTemplateA; templateB; sampleCluster; sampleConfigMap].

(** ** Not found during deletion *)

(** The store of the sample cluster after template A has gone from it. *)
Definition goneWorld : World :=
  sampleWorld [templateB; sampleCluster; sampleConfigMap] sampleIam noFault.

(** A patch request that was answered not found, with the error [e]. *)
Definition patchNotFound (e : error) (ev : Event) : Prop :=
  ∃ key finalizers,
    ev = Called (ClientPatch key finalizers) (Some e) ∧ IsNotFound e = true.

(** [surfaces m]: when a patch request of [m] is answered not found, [m]
    makes no further call and returns that error, aggregated by the patch
    helper and masked. *)
Definition surfaces {A} (m : M A) : Prop :=
  ∀ w, ∃ t, trace (m w).2 = (trace w ++ t)%list
    ∧ ∀ pre ev post e, t = (pre ++ ev :: post)%list → patchNotFound e ev →
        post = [] ∧ (m w).1 = Err (Wrap (Aggregate [e])).

(** The outcome of a call the teardown goes on after: success or not
    found. *)
Definition tolerated (err : option error) : Prop :=
  ∀ e, err = Some e → iam.IsNoSuchEntity e = true.

(** The calls of a teardown of role [roleName] that took every step: the
    inline policies are listed and deleted, the role is taken out of its
    instance profile, the profile is deleted, the role is deleted, each
    call succeeding or answered not found. *)
Definition completeTeardown (roleName : string) (t : list Event) : Prop :=
  ∃ listed removed profile role policies,
    t = (Called (IamListRolePolicies roleName) listed :: policies
         ++ [Called (IamRemoveRoleFromInstanceProfile roleName roleName)
               removed;
             Called (IamDeleteInstanceProfile roleName) profile;
             Called (IamDeleteRole roleName) role])%list
    ∧ tolerated listed ∧ tolerated removed ∧ tolerated profile
    ∧ tolerated role
    ∧ Forall (λ ev, ∃ policy err,
                ev = Called (IamDeleteRolePolicy roleName policy) err
                ∧ tolerated err) policies.

(** The role shares its instance profile with no other role and sits in
    no other profile, as the synchronizer creates them; what an interrupted
    teardown leaves behind is of this kind. *)
Definition ownProfile (roleName : string) (s : IAMState) : Prop :=
  (∀ roles, InstanceProfiles s !! roleName = Some roles →
            Forall (λ r, r = roleName) roles)
  ∧ (∀ profile roles, InstanceProfiles s !! profile = Some roles →
                      roleName ∈ roles → profile = roleName).

(** What an interrupted teardown of the sample role left: the inline
    policy and the instance profile are gone, the role is still there. *)
Definition partialIam : IAMState :=
  {| Account := "999666333";
     Roles := {[ sampleRoleName :=
                   {| Arn := "arn:aws:iam::999666333:role/" ++ sampleRoleName;
                      AssumeRolePolicyDocument := ["ec2.amazonaws.com"%string];
                      RoleTags := list_to_map (iam.tags sampleService);
                      RolePolicies := ∅ |} ]};
     InstanceProfiles := ∅;
     OIDCProviders := {[ "test-cluster"%string ]} |}.

(** ** The role-ensure operation *)

(** The calls [EnsureRole] may make for a role, given the IAM state [s] it
    starts from: reads of the role, its creation, a trust-policy update when
    the trust policy of the role in [s] differs from the desired one, a tag
    update when the role in [s] lacks a desired tag. *)
Definition ensureRoleCall (roleName : string) (trust : list string)
    (tags : list (string * string)) (s : IAMState) (ev : Event) : Prop :=
  (∃ err, ev = Called (IamGetRole roleName) err)
  ∨ (∃ err, ev = Called (IamCreateRole roleName trust tags) err)
  ∨ (∃ err observed,
       ev = Called (IamUpdateAssumeRolePolicy roleName trust) err
       ∧ Roles s !! roleName = Some observed
       ∧ AssumeRolePolicyDocument observed ≠ trust)
  ∨ (∃ err observed,
       ev = Called (IamTagRole roleName tags) err
       ∧ Roles s !! roleName = Some observed
       ∧ iam.tagsPresent tags observed = false).

(** The sample role as the synchronizer wants it, and with a tag missing. *)
Definition sampleTrust : list string := ["ec2.amazonaws.com"%string].

Definition untaggedIam : IAMState :=
  {| Account := "999666333";
     Roles := {[ sampleRoleName :=
                   {| Arn := "arn:aws:iam::999666333:role/" ++ sampleRoleName;
                      AssumeRolePolicyDocument := sampleTrust;
                      RoleTags := {[ iam.ownedTagKey := ""%string ]};
                      RolePolicies := ∅ |} ]};
     InstanceProfiles := ∅;
     OIDCProviders := ∅ |}.

(** ** What comes before the IRSA roles *)

(** [guardedBy guard Q m]: [m] only extends the trace, and every event
    satisfying [Q] that it adds comes after an event [guard] that it
    added before. *)
Definition guardedBy {A} (guard : Event → Prop) (Q : Event → Prop) (m : M A)
    : Prop :=
  ∀ w, ∃ t,
    trace (m w).2 = (trace w ++ t)%list
    ∧ ∀ pre ev post, t = (pre ++ ev :: post)%list → Q ev →
                     ∃ g, g ∈ pre ∧ guard g.

(** The entry to [ReconcileRolesForIRSA]. *)
Definition entersIRSA (ev : Event) : Prop := ev = Enter MReconcileRolesForIRSA.

(** A live control plane with the role CAPA created for it. *)
Definition eksRoleName : string := "test-cluster-eks-role".

Definition liveControlPlane : Object :=
  SetFinalizers (sampleControlPlane (Some eksRoleName) None) [].

Definition eksIam : IAMState :=
  {| Account := "999666333";
     Roles := {[ eksRoleName :=
                   {| Arn := "arn:aws:iam::999666333:role/" ++ eksRoleName;
                      AssumeRolePolicyDocument := ["eks.amazonaws.com"];
                      RoleTags := ∅;
                      RolePolicies := ∅ |} ]};
     InstanceProfiles := ∅;
     OIDCProviders := ∅ |}.

Definition eksAnswers (op : Op) : string :=
  match op with
  | GetAWSAccountID _ => "999666333"
  | GetIRSAOpenIDURlForEKS _ => "oidc.eks.eu-west-1.amazonaws.com/id/ABC"
  | _ => ""
  end.

Definition eksWorld : World :=
  {| objects := storeOf [liveControlPlane; sampleIdentity];
     iam := eksIam; trace := []; history := [];
     faults := noFault; answers := eksAnswers |}.
(** * Properties *)

Open Scope list_scope.
Open Scope nat_scope.

(** ** Running the monad *)

Lemma run_bind {A B} (m : M A) (f : A → M B) (w : World) :
  (m ≫= f) w = match m w with
               | (Ok a, w') => f a w'
               | (Err e, w') => (Err e, w')
               end.
Proof. reflexivity. Qed.

Lemma run_invoke_fault {A} op (sem : World → result A * World) w e :
  faults w (length (trace w)) op = Some e →
  invoke op sem w = (Err e, record (Called op (Some e)) w).
Proof. intros H. unfold invoke. by rewrite H. Qed.

Lemma run_invoke_sem {A} op (sem : World → result A * World) w :
  faults w (length (trace w)) op = None →
  invoke op sem w = ((sem w).1, record (Called op (errOf (sem w).1)) (sem w).2).
Proof. intros H. unfold invoke. rewrite H. by destruct (sem w). Qed.

Lemma run_invokeIam {A} op (sem : IAMState → result A * IAMState) w :
  invokeIam op sem w
  = match faults w (length (trace w)) op with
    | Some e => (Err e, observe (record (Called op (Some e)) w))
    | None =>
        ((sem (iam w)).1,
         observe (record (Called op (errOf (sem (iam w)).1))
                    (setIam (sem (iam w)).2 w)))
    end.
Proof.
  unfold invokeIam, invoke. destruct (faults w _ op); [done|].
  by destruct (sem (iam w)).
Qed.

(** ** key.GetAWSClusterByName *)

Lemma GetAWSClusterByName_run clusterName w :
  (key.GetAWSClusterByName clusterName w).1 =
    match faults w (length (trace w))
            (ClientList AWSCluster [(key.ClusterNameLabel, clusterName)]) with
    | Some e => Err e
    | None =>
        match clustersNamed clusterName w with
        | [item] => Ok item
        | items =>
            Err (Errorf ("expected 1 AWSCluster but found "
                           ++ itoa (length items)))
        end
    end.
Proof.
  unfold key.GetAWSClusterByName, List. rewrite run_bind.
  destruct (faults w _ _) as [e|] eqn:Hf.
  - by rewrite (run_invoke_fault _ _ _ e).
  - rewrite run_invoke_sem by done. cbn [fst snd].
    fold (clustersNamed clusterName w).
    destruct (clustersNamed clusterName w) as [|item [|item' items]]; done.
Qed.

(** ** Frames and traces *)

Lemma frame_refl ko ki w : frame ko ki w w.
Proof. unfold frame. tauto. Qed.

Lemma frame_trans ko ki w1 w2 w3 :
  frame ko ki w1 w2 → frame ko ki w2 w3 → frame ko ki w1 w3.
Proof. unfold frame. intuition congruence. Qed.

Lemma frame_weaken ko ki ko' ki' w w' :
  (ko' = true → ko = true) → (ki' = true → ki = true) →
  frame ko ki w w' → frame ko' ki' w w'.
Proof. unfold frame. intuition. Qed.

Lemma frame_record ko ki ev w : frame ko ki w (record ev w).
Proof. unfold frame. cbn. tauto. Qed.

Lemma steps_weaken {A} (P Q : Event → Prop) ko ki ko' ki' (m : M A) :
  (∀ ev, P ev → Q ev) →
  (ko' = true → ko = true) → (ki' = true → ki = true) →
  steps P ko ki m → steps Q ko' ki' m.
Proof.
  intros HPQ ?? Hm w. destruct (Hm w) as [Hf (t&Ht&HP)]. split.
  - eapply frame_weaken; eauto.
  - exists t. split; [done|]. eapply Forall_impl; eauto.
Qed.

Lemma steps_ret {A} P ko ki (a : A) : steps P ko ki (mret a).
Proof. intros w. split; [apply frame_refl|]. exists []. by rewrite app_nil_r. Qed.

Lemma steps_fail {A} P ko ki e : steps P ko ki (@fail A e).
Proof. intros w. split; [apply frame_refl|]. exists []. by rewrite app_nil_r. Qed.

Lemma steps_bind {A B} P ko ki (m : M A) (f : A → M B) :
  steps P ko ki m → (∀ a, steps P ko ki (f a)) → steps P ko ki (m ≫= f).
Proof.
  intros Hm Hf w. rewrite run_bind.
  destruct (Hm w) as [Hfr (t&Ht&HP)]. destruct (m w) as [[a|e] w1]; cbn in *.
  - destruct (Hf a w1) as [Hfr' (t'&Ht'&HP')]. split.
    + eapply frame_trans; eauto.
    + exists (t ++ t'). rewrite Ht', Ht, app_assoc. split; [done|].
      by apply Forall_app.
  - split; [done|]. by exists t.
Qed.

Lemma steps_try {A} P ko ki (m : M A) : steps P ko ki m → steps P ko ki (try m).
Proof. intros Hm w. unfold try. specialize (Hm w). by destruct (m w). Qed.

Lemma steps_wrapped {A} P ko ki (m : M A) :
  steps P ko ki m → steps P ko ki (wrapped m).
Proof. intros Hm w. unfold wrapped. specialize (Hm w). by destruct (m w) as [[]]. Qed.

Lemma steps_returnErr {A} P ko ki (a : A) err : steps P ko ki (returnErr a err).
Proof. destruct err; [apply steps_fail|apply steps_ret]. Qed.

Lemma steps_emit P ko ki ev : P ev → steps P ko ki (emit ev).
Proof.
  intros HP w. split; [apply frame_record|]. exists [ev]. split; [done|].
  by apply Forall_singleton.
Qed.

Lemma steps_invoke {A} P ko ki op (sem : World → result A * World) :
  (∀ err, P (Called op err)) →
  (∀ w, frame ko ki w (sem w).2 ∧ trace (sem w).2 = trace w) →
  steps P ko ki (invoke op sem).
Proof.
  intros HP Hsem w. unfold invoke. destruct (faults w _ op) as [e|].
  - split; [apply frame_record|]. exists [Called op (Some e)].
    split; [done|]. by apply Forall_singleton.
  - destruct (Hsem w) as [Hfr Ht]. destruct (sem w) as [r w1]. cbn in *.
    split.
    + eapply frame_trans; [done|apply frame_record].
    + exists [Called op (errOf r)]. rewrite Ht. split; [done|].
      by apply Forall_singleton.
Qed.

(** C10: [GetAWSClusterByName] returns an AWSCluster if and only if the
    label-selector list for the cluster name succeeds and yields exactly one
    item, which is then the cluster returned; for zero or several matches it
    returns no cluster but the error "expected 1 AWSCluster but found N". *)
Theorem GetAWSClusterByName_exactly_one (clusterName : string) (w : World) :
  ((∃ awsCluster, (key.GetAWSClusterByName clusterName w).1 = Ok awsCluster)
   ↔ faults w (length (trace w))
       (ClientList AWSCluster [(key.ClusterNameLabel, clusterName)]) = None
     ∧ length (clustersNamed clusterName w) = 1)
  ∧ (∀ awsCluster,
       (key.GetAWSClusterByName clusterName w).1 = Ok awsCluster →
       clustersNamed clusterName w = [awsCluster])
  ∧ (faults w (length (trace w))
       (ClientList AWSCluster [(key.ClusterNameLabel, clusterName)]) = None →
     length (clustersNamed clusterName w) ≠ 1 →
     (key.GetAWSClusterByName clusterName w).1
     = Err (Errorf ("expected 1 AWSCluster but found "
                      ++ itoa (length (clustersNamed clusterName w))))).
Proof.
  rewrite GetAWSClusterByName_run.
  destruct (faults w _ _) as [e|].
  - split; [|split]; [split| |]; try done.
    + by intros [? ?].
    + by intros [? ?].
  - destruct (clustersNamed clusterName w) as [|item [|item' items]] eqn:Hl;
      cbn [length].
    + split; [|split]; [split| |]; try done.
      * by intros [? ?].
      * by intros [? ?].
    + split; [|split]; [split| |]; try done.
      * eauto.
      * by intros ? [= ->].
    + split; [|split]; [split| |]; try done.
      * by intros [? ?].
      * by intros [? ?].
Qed.

(** ** The patch helper and the finalizer loop *)

Lemma ObjectKey_SetFinalizers o f :
  ObjectKeyFromObject (SetFinalizers o f) = ObjectKeyFromObject o.
Proof. reflexivity. Qed.

Lemma ObjectKey_RemoveFinalizer o f :
  ObjectKeyFromObject (RemoveFinalizer o f) = ObjectKeyFromObject o.
Proof. reflexivity. Qed.

Lemma GetFinalizers_RemoveFinalizer o f :
  GetFinalizers (RemoveFinalizer o f) = filter (λ x, x ≠ f) (GetFinalizers o).
Proof. reflexivity. Qed.

Lemma filter_ne_id (f : string) (l : list string) :
  f ∉ l → filter (λ x, x ≠ f) l = l.
Proof.
  induction l as [|x l IH]; [done|]. intros Hn.
  apply not_elem_of_cons in Hn as [Hx Hl].
  rewrite filter_cons_True by congruence. by rewrite IH.
Qed.

Lemma filter_ne_changes (f : string) (l : list string) :
  f ∈ l → filter (λ x, x ≠ f) l ≠ l.
Proof.
  intros Hin Heq. rewrite <- Heq in Hin.
  apply list_elem_of_filter in Hin as [Hne _]. done.
Qed.

Lemma ContainsFinalizer_true o f : ContainsFinalizer o f = true ↔ f ∈ GetFinalizers o.
Proof. unfold ContainsFinalizer. by rewrite bool_decide_eq_true. Qed.

Lemma ContainsFinalizer_false o f : ContainsFinalizer o f = false ↔ f ∉ GetFinalizers o.
Proof. unfold ContainsFinalizer. by rewrite bool_decide_eq_false. Qed.

Lemma ContainsFinalizer_RemoveFinalizer o f :
  ContainsFinalizer (RemoveFinalizer o f) f = false.
Proof.
  apply ContainsFinalizer_false. rewrite GetFinalizers_RemoveFinalizer.
  intros Hin. apply list_elem_of_filter in Hin as [Hne _]. done.
Qed.

(** A status error in the aggregate of a patch is retried exactly when its
    reason is Invalid. *)
Lemma retryable_status reason :
  retryable (Aggregate [StatusError reason])
  = bool_decide (reason = StatusReasonInvalid).
Proof. by destruct reason. Qed.

Lemma run_NewHelper o w :
  faults w (length (trace w)) (PatchNewHelper (ObjectKeyFromObject o)) = None →
  NewHelper o w
  = (Ok {| beforeObject := o |},
     record (Called (PatchNewHelper (ObjectKeyFromObject o)) None) w).
Proof. intros H. unfold NewHelper. by rewrite run_invoke_sem. Qed.

Lemma run_Patch_fault h o w e :
  GetFinalizers (beforeObject h) ≠ GetFinalizers o →
  faults w (length (trace w))
    (ClientPatch (ObjectKeyFromObject o) (GetFinalizers o)) = Some e →
  Patch h o w
  = (Err (Aggregate [e]),
     record (Called (ClientPatch (ObjectKeyFromObject o) (GetFinalizers o))
               (Some e)) w).
Proof.
  intros Hne Hf. unfold Patch. rewrite bool_decide_eq_false_2 by done.
  rewrite run_bind. unfold try, clientPatch.
  by rewrite (run_invoke_fault _ _ _ e).
Qed.

Lemma run_Patch_nothing h o w :
  GetFinalizers (beforeObject h) = GetFinalizers o → Patch h o w = (Ok o, w).
Proof. intros He. unfold Patch. by rewrite bool_decide_eq_true_2. Qed.

Lemma run_Get_found key o w :
  faults w (length (trace w)) (ClientGet key) = None →
  objects w !! key = Some o →
  Get key w = (Ok o, record (Called (ClientGet key) None) w).
Proof. intros Hf Ho. unfold Get. rewrite run_invoke_sem by done. by rewrite Ho. Qed.

(** One iteration of the loop whose patch request fails with [e]: it
    refetches and goes on when the aggregate is retryable and the counter
    is below the ceiling, and returns the aggregate otherwise. *)
Lemma removeFinalizerLoop_failed_attempt remaining i object w e :
  ContainsFinalizer object controlPlaneFinalizer = true →
  faults w (length (trace w)) (PatchNewHelper (ObjectKeyFromObject object))
  = None →
  faults w (S (length (trace w)))
    (ClientPatch (ObjectKeyFromObject object)
       (filter (λ f, f ≠ controlPlaneFinalizer) (GetFinalizers object)))
  = Some e →
  removeFinalizerLoop (S remaining) i object w
  = if retryable (Aggregate [e]) && bool_decide (i < maxPatchRetries)
    then (object' ← wrapped (Get (ObjectKeyFromObject object));
          removeFinalizerLoop remaining (S i) object')
           (afterFailedAttempt object e w)
    else (Err (Wrap (Aggregate [e])), afterFailedAttempt object e w).
Proof.
  intros Hc Hh Hp. cbn [removeFinalizerLoop].
  rewrite run_bind. unfold wrapped at 1. rewrite run_NewHelper by done.
  rewrite run_bind. unfold try at 1.
  rewrite (run_Patch_fault _ _ _ e); cycle 1.
  - cbn [beforeObject]. rewrite GetFinalizers_RemoveFinalizer.
    intros Heq. symmetry in Heq. revert Heq. apply filter_ne_changes.
    by apply ContainsFinalizer_true.
  - cbn [trace record]. rewrite length_app. cbn [length].
    rewrite Nat.add_1_r. exact Hp.
  - cbn [errOf]. fold controlPlaneFinalizer.
    change (bool_decide (is_Some (FilterOut (Some (Aggregate [e]))
                                    (λ err, negb (IsInvalid err)))))
      with (retryable (Aggregate [e])).
    rewrite ObjectKey_RemoveFinalizer.
    by destruct (retryable (Aggregate [e]) && bool_decide (i < maxPatchRetries)).
Qed.

Lemma removeFinalizerLoop_always_invalid remaining :
  ∀ i object stored w,
    i + remaining = maxPatchRetries →
    patchAlwaysInvalid w →
    ContainsFinalizer object controlPlaneFinalizer = true →
    objects w !! ObjectKeyFromObject object = Some stored →
    ObjectKeyFromObject stored = ObjectKeyFromObject object →
    ContainsFinalizer stored controlPlaneFinalizer = true →
    (removeFinalizerLoop (S remaining) i object w).1
    = Err (Wrap (Aggregate [StatusError StatusReasonInvalid]))
    ∧ trace (removeFinalizerLoop (S remaining) i object w).2
      = trace w
        ++ failedAttempt (ObjectKeyFromObject object) (GetFinalizers object)
             (StatusError StatusReasonInvalid)
        ++ concat (replicate remaining
             (refetch (ObjectKeyFromObject object)
              ++ failedAttempt (ObjectKeyFromObject object)
                   (GetFinalizers stored) (StatusError StatusReasonInvalid)))
    ∧ objects (removeFinalizerLoop (S remaining) i object w).2 = objects w.
Proof.
  induction remaining as [|remaining IH];
    intros i object stored w Hi Hall Hc Hs Hk Hcs;
    pose proof Hall as (Hp & Hg & Hh).
  - rewrite (removeFinalizerLoop_failed_attempt _ _ _ _
               (StatusError StatusReasonInvalid)) by done.
    rewrite retryable_status, bool_decide_eq_true_2 by done.
    rewrite (bool_decide_eq_false_2 (i < maxPatchRetries)) by lia.
    cbn -[controlPlaneFinalizer].
    split; [done|]. split; [|done]. by rewrite <- app_assoc.
  - rewrite (removeFinalizerLoop_failed_attempt _ _ _ _
               (StatusError StatusReasonInvalid)) by done.
    rewrite retryable_status, bool_decide_eq_true_2 by done.
    rewrite (bool_decide_eq_true_2 (i < maxPatchRetries)) by lia.
    cbn [andb]. rewrite run_bind. unfold wrapped.
    rewrite (run_Get_found _ stored); [|apply Hg|exact Hs].
    set (w1 := record _ (afterFailedAttempt object _ w)).
    destruct (IH (S i) stored stored w1) as (Hr & Ht & Ho); try done.
    + lia.
    + by rewrite Hk.
    + rewrite Hr. split; [done|]. rewrite Ht, Ho, Hk. split; [|done].
      cbn -[controlPlaneFinalizer]. by rewrite <- !app_assoc.
Qed.

(** ** Counting calls *)

Lemma count_app p t1 t2 : count p (t1 ++ t2) = count p t1 + count p t2.
Proof. unfold count. by rewrite filter_app, length_app. Qed.

Lemma since_app w w' t : trace w' = trace w ++ t → since w w' = t.
Proof. intros H. unfold since. by rewrite H, drop_app_length. Qed.

Lemma atMost_mono {A} p n n' (m : M A) : n ≤ n' → atMost p n m → atMost p n' m.
Proof. intros Hle Hm w. destruct (Hm w) as (t&?&?). exists t. split; [done|lia]. Qed.

Lemma atMost_ret {A} p (a : A) : atMost p 0 (mret a).
Proof. intros w. exists []. by rewrite app_nil_r. Qed.

Lemma atMost_fail {A} p e : atMost p 0 (@fail A e).
Proof. intros w. exists []. by rewrite app_nil_r. Qed.

Lemma atMost_bind {A B} p n k (m : M A) (f : A → M B) :
  atMost p n m → (∀ a, atMost p k (f a)) → atMost p (n + k) (m ≫= f).
Proof.
  intros Hm Hf w. rewrite run_bind. destruct (Hm w) as (t&Ht&Hn).
  destruct (m w) as [[a|e] w1]; cbn in *.
  - destruct (Hf a w1) as (t'&Ht'&Hk). exists (t ++ t').
    rewrite Ht', Ht, app_assoc, count_app. split; [done|lia].
  - exists t. split; [done|lia].
Qed.

Lemma atMost_try {A} p n (m : M A) : atMost p n m → atMost p n (try m).
Proof. intros Hm w. unfold try. specialize (Hm w). by destruct (m w). Qed.

Lemma atMost_wrapped {A} p n (m : M A) : atMost p n m → atMost p n (wrapped m).
Proof. intros Hm w. unfold wrapped. specialize (Hm w). by destruct (m w) as [[]]. Qed.

Lemma atMost_invoke {A} p op (sem : World → result A * World) :
  (∀ w, trace (sem w).2 = trace w) →
  atMost p 1 (invoke op sem).
Proof.
  intros Hsem w. unfold invoke. destruct (faults w _ op) as [e|].
  - exists [Called op (Some e)]. split; [done|].
    unfold count. cbn. case_decide; cbn; lia.
  - specialize (Hsem w). destruct (sem w) as [r w1]. cbn in *.
    exists [Called op (errOf r)]. rewrite Hsem. split; [done|].
    unfold count. cbn. case_decide; cbn; lia.
Qed.

Lemma atMost_invoke_other {A} p op (sem : World → result A * World) :
  (∀ err, p (Called op err) = false) →
  (∀ w, trace (sem w).2 = trace w) →
  atMost p 0 (invoke op sem).
Proof.
  intros Hp Hsem w. unfold invoke. destruct (faults w _ op) as [e|].
  - exists [Called op (Some e)]. split; [done|].
    unfold count. cbn. rewrite Hp. by case_decide.
  - specialize (Hsem w). destruct (sem w) as [r w1]. cbn in *.
    exists [Called op (errOf r)]. rewrite Hsem. split; [done|].
    unfold count. cbn. rewrite Hp. by case_decide.
Qed.

Lemma atMost_NewHelper o : atMost isPatchCall 0 (NewHelper o).
Proof. by apply atMost_invoke_other. Qed.

Lemma atMost_Get k : atMost isPatchCall 0 (Get k).
Proof.
  apply atMost_invoke_other; [done|]. intros w. by destruct (objects w !! k).
Qed.

Lemma clientPatch_sem_trace o w :
  trace (match objects w !! ObjectKeyFromObject o with
         | None => (Err (StatusError StatusReasonNotFound), w)
         | Some cur =>
             if isDeleting cur
                && negb (forallb (λ f, bool_decide (f ∈ GetFinalizers cur))
                           (GetFinalizers o))
             then (Err (StatusError StatusReasonInvalid), w)
             else
               if isDeleting cur && bool_decide (GetFinalizers o = [])
               then (Ok (SetFinalizers cur (GetFinalizers o)),
                     setObjects (delete (ObjectKeyFromObject o) (objects w)) w)
               else (Ok (SetFinalizers cur (GetFinalizers o)),
                     setObjects (<[ObjectKeyFromObject o :=
                                     SetFinalizers cur (GetFinalizers o)]>
                                   (objects w)) w)
         end).2 = trace w.
Proof.
  destruct (objects w !! _); [|done].
  destruct (_ && negb _); [done|]. by destruct (_ && bool_decide _).
Qed.

Lemma atMost_Patch h o : atMost isPatchCall 1 (Patch h o).
Proof.
  unfold Patch. case_bool_decide.
  - eapply atMost_mono; [|apply atMost_ret]. lia.
  - apply (atMost_bind _ 1 0).
    + apply atMost_try, atMost_invoke. intros w. apply clientPatch_sem_trace.
    + intros [o'|e]; [apply atMost_ret|apply atMost_fail].
Qed.

Lemma atMost_removeFinalizerLoop remaining :
  ∀ i object, atMost isPatchCall remaining (removeFinalizerLoop remaining i object).
Proof.
  induction remaining as [|remaining IH]; intros i object.
  - apply atMost_ret.
  - cbn [removeFinalizerLoop].
    apply (atMost_bind _ 0 (S remaining));
      [apply atMost_wrapped, atMost_NewHelper|]. intros h.
    apply (atMost_bind _ 1 remaining); [apply atMost_try, atMost_Patch|].
    intros r. destruct (_ && _).
    + apply (atMost_bind _ 0 remaining);
        [apply atMost_wrapped, atMost_Get|]. intros o. apply IH.
    + destruct (errOf r).
      * eapply atMost_mono; [|apply atMost_fail]. lia.
      * apply IH.
Qed.

Lemma atMost_removeFinalizer object :
  atMost isPatchCall maxPatchRetries (removeFinalizer object).
Proof.
  unfold removeFinalizer. destruct (negb _).
  - eapply atMost_mono; [|apply atMost_ret]. lia.
  - apply atMost_removeFinalizerLoop.
Qed.

Lemma removeFinalizer_eq object :
  removeFinalizer object
  = if negb (ContainsFinalizer object controlPlaneFinalizer)
    then mret tt
    else removeFinalizerLoop maxPatchRetries 1 object.
Proof. reflexivity. Qed.

(** C4: when the patch fails with a retryable (Invalid) error on every
    attempt, [removeFinalizer] makes exactly [maxPatchRetries] = 5 attempts,
    refetching the object between two attempts, then returns the error and
    leaves the store as it was; and whatever the environment does, it never
    sends more than [maxPatchRetries] patch requests. *)
Theorem removeFinalizer_stops_at_ceiling (object stored : Object) (w : World) :
  patchAlwaysInvalid w →
  ContainsFinalizer object controlPlaneFinalizer = true →
  objects w !! ObjectKeyFromObject object = Some stored →
  ObjectKeyFromObject stored = ObjectKeyFromObject object →
  ContainsFinalizer stored controlPlaneFinalizer = true →
  (removeFinalizer object w).1
  = Err (Wrap (Aggregate [StatusError StatusReasonInvalid]))
  ∧ since w (removeFinalizer object w).2
    = failedAttempt (ObjectKeyFromObject object) (GetFinalizers object)
        (StatusError StatusReasonInvalid)
      ++ concat (replicate (maxPatchRetries - 1)
           (refetch (ObjectKeyFromObject object)
            ++ failedAttempt (ObjectKeyFromObject object)
                 (GetFinalizers stored) (StatusError StatusReasonInvalid)))
  ∧ count isPatchCall (since w (removeFinalizer object w).2) = maxPatchRetries
  ∧ count isGetCall (since w (removeFinalizer object w).2)
    = maxPatchRetries - 1
  ∧ objects (removeFinalizer object w).2 = objects w
  ∧ (∀ object' w',
       count isPatchCall (since w' (removeFinalizer object' w').2)
       ≤ maxPatchRetries).
Proof.
  intros Hall Hc Hs Hk Hcs.
  assert (Hrun := removeFinalizerLoop_always_invalid 4 1 object stored w
                    eq_refl Hall Hc Hs Hk Hcs).
  rewrite removeFinalizer_eq, Hc. cbn [negb].
  change maxPatchRetries with 5 in *. destruct Hrun as (Hr & Ht & Ho).
  apply since_app in Ht. rewrite Hr, Ht, Ho.
  repeat split.
  intros object' w'.
  destruct (atMost_removeFinalizer object' w') as (t & Ht' & Hn).
  apply since_app in Ht'. by rewrite Ht'.
Qed.

Lemma removeFinalizer_stops_at_ceiling_witness :
  patchAlwaysInvalid
    (sampleWorld [templateA] emptyIam (patchFails StatusReasonInvalid))
  ∧ (removeFinalizer templateA
       (sampleWorld [templateA] emptyIam (patchFails StatusReasonInvalid))).1
    = Err (Wrap (Aggregate [StatusError StatusReasonInvalid]))
  ∧ count isPatchCall
      (since (sampleWorld [templateA] emptyIam (patchFails StatusReasonInvalid))
         (removeFinalizer templateA
            (sampleWorld [templateA] emptyIam
               (patchFails StatusReasonInvalid))).2) = 5
  ∧ count isGetCall
      (since (sampleWorld [templateA] emptyIam (patchFails StatusReasonInvalid))
         (removeFinalizer templateA
            (sampleWorld [templateA] emptyIam
               (patchFails StatusReasonInvalid))).2) = 4.
Proof.
  assert (Hall : patchAlwaysInvalid
            (sampleWorld [templateA] emptyIam (patchFails StatusReasonInvalid))).
  { split; [|split]; intros; reflexivity. }
  split; [exact Hall|].
  destruct (removeFinalizer_stops_at_ceiling templateA templateA
              (sampleWorld [templateA] emptyIam (patchFails StatusReasonInvalid))
              Hall eq_refl eq_refl eq_refl eq_refl)
    as (Hr & _ & Hp & Hg & _).
  exact (conj Hr (conj Hp Hg)).
Defined.

(** A version conflict on the first patch: [removeFinalizer] returns it
    after one attempt and reads nothing back. *)
Lemma removeFinalizer_conflict_not_retried :
  (removeFinalizer templateA
     (sampleWorld [templateA] emptyIam (patchFails StatusReasonConflict))).1
  = Err (Wrap (Aggregate [StatusError StatusReasonConflict]))
  ∧ trace (removeFinalizer templateA
             (sampleWorld [templateA] emptyIam
                (patchFails StatusReasonConflict))).2
    = [Called (PatchNewHelper (ObjectKeyFromObject templateA)) None;
       Called (ClientPatch (ObjectKeyFromObject templateA) [])
         (Some (StatusError StatusReasonConflict))]
  ∧ count isGetCall
      (trace (removeFinalizer templateA
                (sampleWorld [templateA] emptyIam
                   (patchFails StatusReasonConflict))).2) = 0.
Proof. vm_compute. repeat split. Qed.

(** C5, as the code has it: a patch failure is retried, by refetching the
    object and running the next iteration, exactly when filtering its
    aggregate for Invalid errors leaves something and the counter is below
    [maxPatchRetries]; for a status error that is the reason Invalid (422)
    alone.  Every other failure, a version conflict included, is returned
    on the attempt where it occurs, and so is an Invalid one at the
    ceiling. *)
Theorem removeFinalizer_retries_invalid_only
    (remaining i : nat) (object : Object) (w : World) (e : error) :
  ContainsFinalizer object controlPlaneFinalizer = true →
  faults w (length (trace w)) (PatchNewHelper (ObjectKeyFromObject object))
  = None →
  faults w (S (length (trace w)))
    (ClientPatch (ObjectKeyFromObject object)
       (filter (λ f, f ≠ controlPlaneFinalizer) (GetFinalizers object)))
  = Some e →
  (retryable (Aggregate [e]) = true → i < maxPatchRetries →
   removeFinalizerLoop (S remaining) i object w
   = (object' ← wrapped (Get (ObjectKeyFromObject object));
      removeFinalizerLoop remaining (S i) object')
       (afterFailedAttempt object e w))
  ∧ (retryable (Aggregate [e]) = false ∨ maxPatchRetries ≤ i →
     removeFinalizerLoop (S remaining) i object w
     = (Err (Wrap (Aggregate [e])), afterFailedAttempt object e w))
  ∧ (∀ reason,
       retryable (Aggregate [StatusError reason]) = true
       ↔ reason = StatusReasonInvalid).
Proof.
  intros Hc Hh Hp.
  rewrite (removeFinalizerLoop_failed_attempt _ _ _ _ e) by done.
  split; [|split].
  - intros -> Hi. by rewrite bool_decide_eq_true_2.
  - intros [->|Hi]; [done|].
    rewrite (bool_decide_eq_false_2 (i < maxPatchRetries)) by lia.
    by rewrite andb_false_r.
  - intros reason. by rewrite retryable_status, bool_decide_eq_true.
Qed.

Lemma removeFinalizer_retries_invalid_only_witness :
  removeFinalizerLoop 5 1 templateA
    (sampleWorld [templateA] emptyIam (patchFails StatusReasonConflict))
  = (Err (Wrap (Aggregate [StatusError StatusReasonConflict])),
     afterFailedAttempt templateA (StatusError StatusReasonConflict)
       (sampleWorld [templateA] emptyIam (patchFails StatusReasonConflict))).
Proof.
  apply (removeFinalizer_retries_invalid_only 4 1 templateA
           (sampleWorld [templateA] emptyIam (patchFails StatusReasonConflict))
           (StatusError StatusReasonConflict) eq_refl eq_refl eq_refl).
  left. reflexivity.
Defined.

(** ** What the operations touch *)

Create HintDb steps.

Lemma steps_invokeIam {A} P op (sem : IAMState → result A * IAMState) :
  (∀ err, P (Called op err)) → steps P true false (invokeIam op sem).
Proof.
  intros HP w. unfold invokeIam, invoke.
  destruct (faults w _ op) as [e|].
  - split; [by unfold frame|]. exists [Called op (Some e)].
    split; [done|]. by apply Forall_singleton.
  - destruct (sem (iam w)) as [r s]. split; [by unfold frame|].
    exists [Called op (errOf r)]. split; [done|]. by apply Forall_singleton.
Qed.

Lemma steps_if {A} P ko ki (b : bool) (m1 m2 : M A) :
  steps P ko ki m1 → steps P ko ki m2 → steps P ko ki (if b then m1 else m2).
Proof. by destruct b. Qed.

Lemma steps_Get k : steps isK8sCall false true (Get k).
Proof.
  apply steps_invoke; [done|]. intros w.
  destruct (objects w !! k); split; try done; apply frame_refl.
Qed.

Lemma steps_List kind sel : steps isK8sCall false true (List kind sel).
Proof. apply steps_invoke; [done|]. intros w. split; [apply frame_refl|done]. Qed.

Lemma steps_NewHelper o : steps isK8sCall false true (NewHelper o).
Proof. apply steps_invoke; [done|]. intros w. split; [apply frame_refl|done]. Qed.

Lemma steps_clientPatch o : steps isK8sCall false true (clientPatch o).
Proof.
  apply steps_invoke; [done|]. intros w.
  destruct (objects w !! _); [|split; [apply frame_refl|done]].
  destruct (_ && negb _); [split; [apply frame_refl|done]|].
  destruct (_ && bool_decide _); split; try done; by unfold frame.
Qed.

Lemma steps_Patch h o : steps isK8sCall false true (Patch h o).
Proof.
  unfold Patch. apply steps_if; [apply steps_ret|].
  apply steps_bind; [apply steps_try, steps_clientPatch|].
  intros [?|?]; [apply steps_ret|apply steps_fail].
Qed.

Lemma steps_liftResult {A} P ko ki (r : result A) : steps P ko ki (liftResult r).
Proof. intros w. split; [apply frame_refl|]. exists []. by rewrite app_nil_r. Qed.

Lemma steps_helper P ko ki op : steps P ko ki (helper op).
Proof. intros w. split; [apply frame_refl|]. exists []. by rewrite app_nil_r. Qed.

#[export] Hint Resolve steps_ret steps_fail steps_try steps_wrapped
  steps_returnErr steps_Get steps_List steps_NewHelper steps_clientPatch
  steps_Patch steps_liftResult steps_helper : steps.

(** Decomposes a goal [steps P ko ki m] along the structure of [m]. *)
Ltac steps_go :=
  repeat first
    [ apply steps_bind; [|intros ?]
    | apply steps_if
    | apply steps_try
    | apply steps_wrapped
    | apply steps_ret
    | apply steps_fail
    | apply steps_returnErr
    | apply steps_liftResult
    | apply steps_helper
    | match goal with
      | |- steps _ _ _ (match ?x with _ => _ end) => destruct x
      end
    | solve [eauto with steps] ].

Lemma steps_removeFinalizerLoop remaining :
  ∀ i object, steps isK8sCall false true (removeFinalizerLoop remaining i object).
Proof.
  induction remaining as [|remaining IH]; intros i object; cbn [removeFinalizerLoop].
  - apply steps_ret.
  - steps_go; apply IH.
Qed.

Lemma steps_removeFinalizer object :
  steps isK8sCall false true (removeFinalizer object).
Proof.
  unfold removeFinalizer.
  apply steps_if; [apply steps_ret|apply steps_removeFinalizerLoop].
Qed.

Lemma steps_GetAWSClusterByName clusterName :
  steps isK8sCall false true (key.GetAWSClusterByName clusterName).
Proof. unfold key.GetAWSClusterByName. steps_go. Qed.

#[export] Hint Resolve steps_removeFinalizer steps_GetAWSClusterByName : steps.

Lemma steps_iamiface_GetRole r : steps isIamCall true false (iamiface.GetRole r).
Proof. by apply steps_invokeIam. Qed.
Lemma steps_iamiface_CreateRole r d t :
  steps isIamCall true false (iamiface.CreateRole r d t).
Proof. by apply steps_invokeIam. Qed.
Lemma steps_iamiface_UpdateAssumeRolePolicy r d :
  steps isIamCall true false (iamiface.UpdateAssumeRolePolicy r d).
Proof. by apply steps_invokeIam. Qed.
Lemma steps_iamiface_TagRole r t : steps isIamCall true false (iamiface.TagRole r t).
Proof. by apply steps_invokeIam. Qed.
Lemma steps_iamiface_ListRolePolicies r :
  steps isIamCall true false (iamiface.ListRolePolicies r).
Proof. by apply steps_invokeIam. Qed.
Lemma steps_iamiface_GetRolePolicy r p :
  steps isIamCall true false (iamiface.GetRolePolicy r p).
Proof. by apply steps_invokeIam. Qed.
Lemma steps_iamiface_PutRolePolicy r p d :
  steps isIamCall true false (iamiface.PutRolePolicy r p d).
Proof. by apply steps_invokeIam. Qed.
Lemma steps_iamiface_DeleteRolePolicy r p :
  steps isIamCall true false (iamiface.DeleteRolePolicy r p).
Proof. by apply steps_invokeIam. Qed.
Lemma steps_iamiface_GetInstanceProfile p :
  steps isIamCall true false (iamiface.GetInstanceProfile p).
Proof. by apply steps_invokeIam. Qed.
Lemma steps_iamiface_CreateInstanceProfile p t :
  steps isIamCall true false (iamiface.CreateInstanceProfile p t).
Proof. by apply steps_invokeIam. Qed.
Lemma steps_iamiface_AddRoleToInstanceProfile p r :
  steps isIamCall true false (iamiface.AddRoleToInstanceProfile p r).
Proof. by apply steps_invokeIam. Qed.
Lemma steps_iamiface_RemoveRoleFromInstanceProfile p r :
  steps isIamCall true false (iamiface.RemoveRoleFromInstanceProfile p r).
Proof. by apply steps_invokeIam. Qed.
Lemma steps_iamiface_DeleteInstanceProfile p :
  steps isIamCall true false (iamiface.DeleteInstanceProfile p).
Proof. by apply steps_invokeIam. Qed.
Lemma steps_iamiface_DeleteRole r :
  steps isIamCall true false (iamiface.DeleteRole r).
Proof. by apply steps_invokeIam. Qed.
Lemma steps_iamiface_DeleteOpenIDConnectProvider i :
  steps isIamCall true false (iamiface.DeleteOpenIDConnectProvider i).
Proof. by apply steps_invokeIam. Qed.

#[export] Hint Resolve steps_iamiface_GetRole steps_iamiface_CreateRole
  steps_iamiface_UpdateAssumeRolePolicy steps_iamiface_TagRole
  steps_iamiface_ListRolePolicies steps_iamiface_GetRolePolicy
  steps_iamiface_PutRolePolicy steps_iamiface_DeleteRolePolicy
  steps_iamiface_GetInstanceProfile steps_iamiface_CreateInstanceProfile
  steps_iamiface_AddRoleToInstanceProfile
  steps_iamiface_RemoveRoleFromInstanceProfile
  steps_iamiface_DeleteInstanceProfile steps_iamiface_DeleteRole
  steps_iamiface_DeleteOpenIDConnectProvider : steps.

Lemma steps_forEach {A} P ko ki (f : A → M unit) (l : list A) :
  (∀ a, steps P ko ki (f a)) → steps P ko ki (iam.forEach f l).
Proof.
  intros Hf. induction l as [|a l IH]; cbn [iam.forEach].
  - apply steps_ret.
  - apply steps_bind; [apply Hf|]. intros _. apply IH.
Qed.

Lemma steps_ignoreNoSuchEntity P ko ki (m : M unit) :
  steps P ko ki m → steps P ko ki (iam.ignoreNoSuchEntity m).
Proof. intros Hm. unfold iam.ignoreNoSuchEntity. steps_go. Qed.

Ltac steps_all :=
  steps_go; repeat (apply steps_forEach; intros ?; steps_go).

Lemma steps_deleteRole roleName : steps isIamCall true false (iam.deleteRole roleName).
Proof.
  unfold iam.deleteRole. steps_all.
Qed.

Lemma steps_convergeRole n o t g : steps isIamCall true false (iam.convergeRole n o t g).
Proof. unfold iam.convergeRole. steps_go. Qed.

Lemma steps_EnsureRole n t g : steps isIamCall true false (iam.EnsureRole n t g).
Proof. unfold iam.EnsureRole. steps_go; apply steps_convergeRole. Qed.

Lemma steps_EnsureInstanceProfile n g :
  steps isIamCall true false (iam.EnsureInstanceProfile n g).
Proof. unfold iam.EnsureInstanceProfile. steps_go. Qed.

Lemma steps_EnsureInlinePolicy n p d :
  steps isIamCall true false (iam.EnsureInlinePolicy n p d).
Proof. unfold iam.EnsureInlinePolicy. steps_go. Qed.

#[export] Hint Resolve steps_deleteRole steps_EnsureRole
  steps_EnsureInstanceProfile steps_EnsureInlinePolicy : steps.

Lemma steps_reconcileIRSABinding s a d o b :
  steps isIamCall true false (iam.reconcileIRSABinding s a d o b).
Proof. unfold iam.reconcileIRSABinding. steps_go. Qed.

(** A method runs its body between its two bracket events. *)
Lemma run_method {A} m (body : M A) w :
  iam.method m body w
  = ((body (record (Enter m) w)).1,
     record (Leave m (errOf (body (record (Enter m) w)).1))
       (body (record (Enter m) w)).2).
Proof.
  unfold iam.method. rewrite run_bind. unfold emit at 1.
  rewrite run_bind. unfold try.
  destruct (body (record (Enter m) w)) as [[a|e] w1]; reflexivity.
Qed.

Lemma isIamCall_isIamEvent ev : isIamCall ev → isIamEvent ev.
Proof. by destruct ev. Qed.

Lemma steps_method {A} m (body : M A) :
  steps isIamCall true false body → steps isIamEvent true false (iam.method m body).
Proof.
  intros Hb w. rewrite run_method. cbn [fst snd].
  destruct (Hb (record (Enter m) w)) as [Hf (t & Ht & HP)].
  split.
  - eapply frame_trans; [apply frame_record|].
    eapply frame_trans; [exact Hf|apply frame_record].
  - exists (Enter m :: t ++ [Leave m (errOf (body (record (Enter m) w)).1)]).
    cbn [trace record]. rewrite Ht. cbn [trace record].
    rewrite <- !app_assoc. split; [done|].
    constructor; [done|]. apply Forall_app. split.
    + eapply Forall_impl; [exact HP|]. apply isIamCall_isIamEvent.
    + by apply Forall_singleton.
Qed.

Lemma steps_iam_DeleteRole s : steps isIamEvent true false (iam.DeleteRole s).
Proof. apply steps_method, steps_deleteRole. Qed.

Lemma steps_iam_DeleteRolesForIRSA s :
  steps isIamEvent true false (iam.DeleteRolesForIRSA s).
Proof.
  apply steps_method. steps_all.
Qed.

Lemma steps_iam_ReconcileRole s : steps isIamEvent true false (iam.ReconcileRole s).
Proof. apply steps_method. steps_go. Qed.

Lemma steps_iam_ReconcileRolesForIRSA s a d o :
  steps isIamEvent true false (iam.ReconcileRolesForIRSA s a d o).
Proof.
  apply steps_method. steps_all.
Qed.

#[export] Hint Resolve steps_iam_DeleteRole steps_iam_DeleteRolesForIRSA
  steps_iam_ReconcileRole steps_iam_ReconcileRolesForIRSA : steps.

(** ** AWSManagedControlPlaneReconciler.Reconcile *)

(** C7: when the AWSManagedControlPlane has no [.spec.RoleName], Reconcile
    calls nothing but the read of the object, so no role is created and IAM
    is not touched; and for an object the controller handles (read without
    failure, with its cluster name and the watch label) it returns success
    with a requeue after one minute. *)
Theorem Reconcile_requeues_without_role_name
    (GetClusterIDFromLabels : ObjectMeta → result string)
    (HasCapiWatchLabel : gmap string string → bool)
    (New : iam.IAMServiceConfig → result iam.IAMService)
    (req : string * string) (w : World) (eksCluster : Object) :
  objects w !! (AWSManagedControlPlane, req) = Some eksCluster →
  SpecRoleName eksCluster = None →
  (iam (AWSManagedControlPlaneReconciler_Reconcile GetClusterIDFromLabels
          HasCapiWatchLabel New req w).2 = iam w
   ∧ history (AWSManagedControlPlaneReconciler_Reconcile GetClusterIDFromLabels
                HasCapiWatchLabel New req w).2 = history w
   ∧ objects (AWSManagedControlPlaneReconciler_Reconcile GetClusterIDFromLabels
                HasCapiWatchLabel New req w).2 = objects w
   ∧ ∃ err,
       since w (AWSManagedControlPlaneReconciler_Reconcile
                  GetClusterIDFromLabels HasCapiWatchLabel New req w).2
       = [Called (ClientGet (AWSManagedControlPlane, req)) err])
  ∧ (faults w (length (trace w)) (ClientGet (AWSManagedControlPlane, req))
     = None →
     (∃ clusterName, GetClusterIDFromLabels (ObjMeta eksCluster) = Ok clusterName) →
     HasCapiWatchLabel (Labels (ObjMeta eksCluster)) = true →
     (AWSManagedControlPlaneReconciler_Reconcile GetClusterIDFromLabels
        HasCapiWatchLabel New req w).1
     = Ok {| Requeue := true; RequeueAfter := Minute |}).
Proof.
  intros Hobj Hrole. unfold AWSManagedControlPlaneReconciler_Reconcile.
  rewrite run_bind. unfold try, Get, invoke.
  destruct (faults w _ _) as [e|] eqn:Hf.
  - split; [|done]. destruct (IsNotFound e); cbn;
      (repeat split; [eexists; by apply since_app]).
  - rewrite Hobj. cbn [errOf]. rewrite run_bind. unfold wrapped, liftResult.
    destruct (GetClusterIDFromLabels (ObjMeta eksCluster)) as [c|e] eqn:Hc.
    + destruct (HasCapiWatchLabel _) eqn:Hl; cbn [negb]; rewrite ?Hrole.
      * split; [|done]. cbn. repeat split. eexists. by apply since_app.
      * split; [|done]. cbn. repeat split. eexists. by apply since_app.
    + split; [|by intros _ [? ?]]. cbn. repeat split. eexists. by apply since_app.
Qed.

Lemma Reconcile_requeues_without_role_name_witness :
  objects (sampleWorld [sampleControlPlane None None] emptyIam noFault)
    !! (AWSManagedControlPlane, (sampleNamespace, "test-cluster"))
  = Some (sampleControlPlane None None)
  ∧ (AWSManagedControlPlaneReconciler_Reconcile sampleGetClusterIDFromLabels
       sampleHasCapiWatchLabel sampleNew (sampleNamespace, "test-cluster")
       (sampleWorld [sampleControlPlane None None] emptyIam noFault)).1
    = Ok {| Requeue := true; RequeueAfter := Minute |}.
Proof.
  split; [reflexivity|].
  apply (Reconcile_requeues_without_role_name sampleGetClusterIDFromLabels
           sampleHasCapiWatchLabel sampleNew (sampleNamespace, "test-cluster")
           (sampleWorld [sampleControlPlane None None] emptyIam noFault)
           (sampleControlPlane None None) eq_refl eq_refl).
  - reflexivity.
  - exists "test-cluster". reflexivity.
  - reflexivity.
Defined.

(** ** AWSMachineTemplateReconciler.reconcileDelete *)

(** Case analysis on the outcome of the computation run first. *)
Ltac run_destruct :=
  rewrite ?run_bind;
  match goal with
  | |- context [match ?x with (_, _) => _ end] =>
      lazymatch x with
      | context [match _ with (_, _) => _ end] => fail
      | _ => destruct x as [[?|?] ?] eqn:?
      end
  end.

Lemma reconcileDelete_phases r iamService awsMachineTemplate clusterName
    namespace role w :
  reconcileDelete r iamService awsMachineTemplate clusterName namespace role w
  = (_ ← reconcileDelete_teardown r iamService awsMachineTemplate role;
     _ ← reconcileDelete_finalizers awsMachineTemplate clusterName;
     reconcileDelete_configMap clusterName namespace) w.
Proof.
  unfold reconcileDelete, reconcileDelete_teardown, reconcileDelete_finalizers,
    reconcileDelete_configMap, clusterValuesKey.
  run_destruct; [|done]. run_destruct; [|done].
  repeat (run_destruct; [|done]). done.
Qed.

(** ** Failures of the teardown *)

Lemma failsWith_weaken {A} (Q Q' : error → Prop) (m : M A) :
  (∀ e, Q e → Q' e) → failsWith Q m → failsWith Q' m.
Proof.
  intros HQ Hm w. destruct (Hm w) as [Ht He]. split; [done|].
  intros e Hr. destruct (He e Hr) as [? ?]. auto.
Qed.

Lemma failsWith_ret {A} Q (a : A) : failsWith Q (mret a).
Proof. intros w. split; [exists []; by rewrite app_nil_r|]. by intros e. Qed.

Lemma failsWith_bind {A B} Q (m : M A) (f : A → M B) :
  failsWith Q m → (∀ a, failsWith Q (f a)) → failsWith Q (m ≫= f).
Proof.
  intros Hm Hf w. rewrite run_bind. destruct (Hm w) as [(t & Ht) He].
  destruct (m w) as [[a|e] w1]; cbn in *.
  - destruct (Hf a w1) as [(t' & Ht') He']. split.
    + exists (t ++ t'). by rewrite Ht', Ht, app_assoc.
    + intros e Hr. destruct (He' e Hr) as (HQ & op & t'' & Ht'').
      split; [done|]. exists op, (t ++ t''). by rewrite Ht'', Ht, !app_assoc.
  - split; [by exists t|]. intros e' [= <-]. by apply He.
Qed.

Lemma failsWith_invokeIam {A} op (sem : IAMState → result A * IAMState) :
  failsWith (λ _, True) (invokeIam op sem).
Proof.
  intros w. unfold invokeIam, invoke. destruct (faults w _ op) as [e|].
  - split; [by exists [Called op (Some e)]|]. intros e' [= <-].
    split; [done|]. by exists op, [].
  - destruct (sem (iam w)) as [r s]. cbn. split; [by eexists|].
    intros e ->. split; [done|]. by exists op, [].
Qed.

Lemma failsWith_ignoreNoSuchEntity (m : M unit) :
  failsWith (λ _, True) m →
  failsWith (λ e, iam.IsNoSuchEntity e = false) (iam.ignoreNoSuchEntity m).
Proof.
  intros Hm w. unfold iam.ignoreNoSuchEntity. rewrite run_bind. unfold try.
  destruct (Hm w) as [Ht He]. destruct (m w) as [[[]|e] w1]; cbn in *.
  - split; [done|]. by intros e.
  - destruct (iam.IsNoSuchEntity e) eqn:Hn; cbn.
    + split; [done|]. by intros e'.
    + split; [done|]. intros e' [= <-]. split; [done|].
      by destruct (He e eq_refl).
Qed.

Lemma failsWith_forEach {A} Q (f : A → M unit) (l : list A) :
  (∀ a, failsWith Q (f a)) → failsWith Q (iam.forEach f l).
Proof.
  intros Hf. induction l as [|a l IH]; cbn [iam.forEach].
  - apply failsWith_ret.
  - apply failsWith_bind; [apply Hf|]. intros _. apply IH.
Qed.

Lemma failsWith_tolerated_bind {A B} (m : M A) (dflt : A) (rest : A → M B) :
  failsWith (λ _, True) m →
  (∀ a, failsWith (λ e, iam.IsNoSuchEntity e = false) (rest a)) →
  failsWith (λ e, iam.IsNoSuchEntity e = false)
    (r ← try m;
     a ← match r with
         | Ok a => mret a
         | Err e => if iam.IsNoSuchEntity e then mret dflt else fail e
         end;
     rest a).
Proof.
  intros Hm Hrest w. rewrite run_bind. unfold try.
  destruct (Hm w) as [(t & Ht) He]. destruct (m w) as [[a|e] w1]; cbn in *.
  - rewrite run_bind. cbn. destruct (Hrest a w1) as [(t' & Ht') He']. split.
    + exists (t ++ t'). by rewrite Ht', Ht, app_assoc.
    + intros e Hr. destruct (He' e Hr) as (HQ & op & t'' & Ht'').
      split; [done|]. exists op, (t ++ t''). by rewrite Ht'', Ht, !app_assoc.
  - rewrite run_bind. destruct (iam.IsNoSuchEntity e) eqn:Hn; cbn.
    + destruct (Hrest dflt w1) as [(t' & Ht') He']. split.
      * exists (t ++ t'). by rewrite Ht', Ht, app_assoc.
      * intros e' Hr. destruct (He' e' Hr) as (HQ & op & t'' & Ht'').
        split; [done|]. exists op, (t ++ t''). by rewrite Ht'', Ht, !app_assoc.
    + split; [by exists t|]. intros e' [= <-]. split; [done|].
      by destruct (He e eq_refl).
Qed.

Lemma failsWith_deleteRole roleName :
  failsWith (λ e, iam.IsNoSuchEntity e = false) (iam.deleteRole roleName).
Proof.
  unfold iam.deleteRole.
  apply (failsWith_tolerated_bind _ []); [apply failsWith_invokeIam|].
  intros names. apply failsWith_bind.
  { apply failsWith_forEach. intros p.
    apply failsWith_ignoreNoSuchEntity, failsWith_invokeIam. }
  intros _. apply failsWith_bind;
    [apply failsWith_ignoreNoSuchEntity, failsWith_invokeIam|].
  intros _. apply failsWith_bind;
    [apply failsWith_ignoreNoSuchEntity, failsWith_invokeIam|].
  intros _. apply failsWith_ignoreNoSuchEntity, failsWith_invokeIam.
Qed.

Lemma In_since_app w w' t ev : trace w' = trace w ++ t → ev ∈ t → ev ∈ since w w'.
Proof. intros Ht Hin. by rewrite (since_app _ _ _ Ht). Qed.

Lemma failsWith_method {A} Q m (body : M A) :
  failsWith Q body →
  ∀ w e, (iam.method m body w).1 = Err e →
         Q e ∧ ∃ op, Called op (Some e) ∈ since w (iam.method m body w).2.
Proof.
  intros Hb w e. rewrite run_method. cbn [fst snd]. intros Hr.
  destruct (Hb (record (Enter m) w)) as [_ He].
  destruct (He e Hr) as (HQ & op & t & Ht). split; [done|]. exists op.
  eapply (In_since_app _ _ (Enter m :: t ++ [Called op (Some e)] ++ [Leave m (Some e)])).
  - cbn [trace record]. rewrite Ht, Hr. cbn [trace record errOf].
    by rewrite <- !app_assoc.
  - apply list_elem_of_In. cbn. right. apply in_or_app. right. by left.
Qed.

(** ** The teardown of a role and not found *)

Lemma run_ignoreNoSuchEntity (m : M unit) w :
  iam.ignoreNoSuchEntity m w
  = (match (m w).1 with
     | Ok _ => Ok tt
     | Err e => if iam.IsNoSuchEntity e then Ok tt else Err e
     end, (m w).2).
Proof.
  unfold iam.ignoreNoSuchEntity. rewrite run_bind. unfold try.
  destruct (m w) as [[[]|e] w1]; [done|]. cbn.
  by destruct (iam.IsNoSuchEntity e).
Qed.

(** One tolerant call that let the teardown go on: its outcome is
    tolerated, and unless the environment failed it, the state is the one
    the IAM semantics gives. *)
Lemma tolerant_step op (sem : IAMState → result unit * IAMState) w w' :
  iam.ignoreNoSuchEntity (invokeIam op sem) w = (Ok tt, w') →
  ∃ err, tolerated err
    ∧ trace w' = trace w ++ [Called op err]
    ∧ faults w' = faults w
    ∧ (faults w (length (trace w)) op = None →
       err = errOf (sem (iam w)).1 ∧ iam w' = (sem (iam w)).2).
Proof.
  rewrite run_ignoreNoSuchEntity, run_invokeIam.
  destruct (faults w (length (trace w)) op) as [e|] eqn:Hf.
  - cbn. destruct (iam.IsNoSuchEntity e) eqn:Hn; [|done]. intros [= <-].
    exists (Some e). split_and!; try done. by intros ? [= <-].
  - cbn. destruct (sem (iam w)) as [[[]|e] s] eqn:Hs; cbn.
    + intros [= <-]. exists None. by split_and!.
    + destruct (iam.IsNoSuchEntity e) eqn:Hn; [|done]. intros [= <-].
      exists (Some e). split_and!; try done. by intros ? [= <-].
Qed.

Lemma forEach_tolerant roleName names :
  ∀ w w',
    iam.forEach (λ p, iam.ignoreNoSuchEntity (iamiface.DeleteRolePolicy roleName p))
      names w = (Ok tt, w') →
    ∃ policies,
      trace w' = trace w ++ policies
      ∧ faults w' = faults w
      ∧ Forall (λ ev, ∃ policy err,
                  ev = Called (IamDeleteRolePolicy roleName policy) err
                  ∧ tolerated err) policies.
Proof.
  induction names as [|p names IH]; intros w w'; cbn [iam.forEach].
  - intros [= <-]. exists []. by rewrite app_nil_r.
  - rewrite run_bind.
    destruct (iam.ignoreNoSuchEntity _ w) as [[[]|e] w1] eqn:Hstep; [|done].
    intros Hrest. unfold iamiface.DeleteRolePolicy in Hstep.
    apply tolerant_step in Hstep as (err & Herr & Ht & Hf & _).
    destruct (IH w1 w' Hrest) as (ps & Hps & Hf' & Hall).
    exists (Called (IamDeleteRolePolicy roleName p) err :: ps).
    split_and!.
    + rewrite Hps, Ht. by rewrite <- app_assoc.
    + congruence.
    + constructor; [by eexists _, _|done].
Qed.

(** A teardown that returned success took every step. *)
Lemma deleteRole_complete roleName w w' :
  iam.deleteRole roleName w = (Ok tt, w') →
  ∃ t, trace w' = trace w ++ t ∧ completeTeardown roleName t.
Proof.
  unfold iam.deleteRole. rewrite run_bind. unfold try at 1.
  unfold iamiface.ListRolePolicies at 1. rewrite run_invokeIam.
  assert (Hrun : ∃ r w1,
    match faults w (length (trace w)) (IamListRolePolicies roleName) with
    | Some e => (Err e, observe (record (Called (IamListRolePolicies roleName)
                                           (Some e)) w))
    | None =>
        ((match Roles (iam w) !! roleName with
          | None => (iamiface.noSuchEntity, iam w)
          | Some r => (Ok (map_to_list (RolePolicies r)).*1, iam w)
          end).1,
         observe (record (Called (IamListRolePolicies roleName)
                            (errOf (match Roles (iam w) !! roleName with
                                    | None => (iamiface.noSuchEntity, iam w)
                                    | Some r =>
                                        (Ok (map_to_list (RolePolicies r)).*1,
                                         iam w)
                                    end).1))
                    (setIam (match Roles (iam w) !! roleName with
                             | None => (iamiface.noSuchEntity, iam w)
                             | Some r =>
                                 (Ok (map_to_list (RolePolicies r)).*1, iam w)
                             end).2 w)))
    end = (r, w1)
    ∧ trace w1 = trace w ++ [Called (IamListRolePolicies roleName) (errOf r)]).
  { destruct (faults w _ _) as [e|]; [by eexists _, _|].
    destruct (Roles (iam w) !! roleName); by eexists _, _. }
  destruct Hrun as (r & w1 & -> & Ht1). cbn [fst snd].
  rewrite run_bind.
  assert (Hnames : ∀ (k : list string → M unit),
    (names ← match r with
             | Ok names => mret names
             | Err e => if iam.IsNoSuchEntity e then mret [] else fail e
             end; k names) w1 = (Ok tt, w') →
    tolerated (errOf r) ∧ ∃ names, k names w1 = (Ok tt, w')).
  { intros k. rewrite run_bind. destruct r as [names|e]; cbn.
    - intros Hk. split; [done|]. by exists names.
    - destruct (iam.IsNoSuchEntity e) eqn:Hn; cbn; [|done].
      intros Hk. split; [by intros ? [= <-]|]. by exists []. }
  intros Hrest. apply Hnames in Hrest as (Hlisted & names & Hrest).
  rewrite run_bind in Hrest.
  destruct (iam.forEach _ names w1) as [[[]|e] w2] eqn:Hloop; [|done].
  apply forEach_tolerant in Hloop as (ps & Ht2 & _ & Hps).
  rewrite run_bind in Hrest.
  destruct (iam.ignoreNoSuchEntity _ w2) as [[[]|e] w3] eqn:H3; [|done].
  apply tolerant_step in H3 as (e3 & He3 & Ht3 & _).
  rewrite run_bind in Hrest.
  destruct (iam.ignoreNoSuchEntity _ w3) as [[[]|e] w4] eqn:H4; [|done].
  apply tolerant_step in H4 as (e4 & He4 & Ht4 & _).
  apply tolerant_step in Hrest as (e5 & He5 & Ht5 & _).
  eexists. split.
  - rewrite Ht5, Ht4, Ht3, Ht2, Ht1. rewrite <- !app_assoc. reflexivity.
  - exists (errOf r), e3, e4, e5, ps. cbn. by split_and!.
Qed.

Ltac tolerated_answer :=
  let e := fresh "e" in let H := fresh "H" in
  intros e H; cbv beta in H; cbn in H; unfold iamiface.noSuchEntity in H;
  injection H as <-; reflexivity.

(** A tolerant call that the environment does not fail and whose IAM
    answer is success or not found. *)
Lemma tolerant_run op (sem : IAMState → result unit * IAMState) w :
  faults w (length (trace w)) op = None →
  (∀ e, (sem (iam w)).1 = Err e → iam.IsNoSuchEntity e = true) →
  ∃ w', iam.ignoreNoSuchEntity (invokeIam op sem) w = (Ok tt, w')
        ∧ iam w' = (sem (iam w)).2 ∧ faults w' = faults w.
Proof.
  intros Hf Htol. rewrite run_ignoreNoSuchEntity, run_invokeIam, Hf.
  cbn [fst snd].
  destruct (sem (iam w)) as [[[]|e] s] eqn:Hs; cbn [fst snd] in *.
  - by eexists.
  - rewrite (Htol e eq_refl). by eexists.
Qed.

(** The loop over the listed policies, when nothing fails: it succeeds
    and leaves the role, if there is one, without an inline policy. *)
Lemma forEach_deletes_policies roleName names :
  ∀ w,
    noFaults w →
    (∀ r p, Roles (iam w) !! roleName = Some r →
            is_Some (RolePolicies r !! p) → p ∈ names) →
    ∃ w',
      iam.forEach
        (λ p, iam.ignoreNoSuchEntity (iamiface.DeleteRolePolicy roleName p))
        names w = (Ok tt, w')
      ∧ noFaults w'
      ∧ InstanceProfiles (iam w') = InstanceProfiles (iam w)
      ∧ (∀ r, Roles (iam w') !! roleName = Some r → RolePolicies r = ∅).
Proof.
  induction names as [|p names IH]; intros w Hf Hinv; cbn [iam.forEach].
  - exists w. split_and!; try done. intros r Hr. apply map_empty. intros q.
    destruct (RolePolicies r !! q) eqn:Hq; [|done].
    by destruct (not_elem_of_nil q (Hinv r q Hr (mk_is_Some _ _ Hq))).
  - rewrite run_bind. unfold iamiface.DeleteRolePolicy.
    edestruct (tolerant_run (IamDeleteRolePolicy roleName p)) as
      (w1 & -> & Hiam & Hfaults); [apply Hf| |].
    { cbv beta. destruct (Roles (iam w) !! roleName) as [r|]; [|tolerated_answer].
      destruct (RolePolicies r !! p); [done|tolerated_answer]. }
    assert (Hf1 : noFaults w1) by (intros n op; rewrite Hfaults; apply Hf).
    destruct (IH w1 Hf1) as (w' & Hrun & Hf' & Hprof & Hpol).
    + intros r q. rewrite Hiam.
      destruct (Roles (iam w) !! roleName) as [r0|] eqn:Hr0; cbn [snd];
        [|by rewrite Hr0].
      destruct (RolePolicies r0 !! p) eqn:Hp; cbn [snd].
      * cbn [Roles iamiface.setRoles]. rewrite lookup_insert_eq. intros [= <-].
        cbn [RolePolicies]. intros Hq.
        destruct (decide (q = p)) as [->|Hne];
          [rewrite lookup_delete_eq in Hq; by destruct Hq|].
        rewrite lookup_delete_ne in Hq by done.
        specialize (Hinv r0 q eq_refl Hq).
        apply elem_of_cons in Hinv as [->|Hin]; done.
      * rewrite Hr0. intros [= <-] Hq.
        assert (q ≠ p) by (intros ->; rewrite Hp in Hq; by destruct Hq).
        specialize (Hinv r0 q eq_refl Hq).
        apply elem_of_cons in Hinv as [->|Hin]; done.
    + exists w'. split_and!; try done. rewrite Hprof, Hiam.
      destruct (Roles (iam w) !! roleName) as [r0|]; [|done].
      by destruct (RolePolicies r0 !! p).
Qed.

(** From a state in which the role has its own instance profile, whatever
    of the role, its policies and its profile is still there, the teardown
    succeeds when no call fails: a teardown that was interrupted can be
    run again. *)
Lemma deleteRole_resumes roleName w :
  noFaults w → ownProfile roleName (iam w) →
  (iam.deleteRole roleName w).1 = Ok tt.
Proof.
  intros Hf [Hown Hother]. unfold iam.deleteRole.
  rewrite run_bind. unfold try at 1.
  unfold iamiface.ListRolePolicies at 1. rewrite run_invokeIam, Hf.
  cbn [fst snd].
  set (w1 := observe (record _ (setIam _ w))).
  assert (Hiam1 : iam w1 = iam w).
  { unfold w1. by destruct (Roles (iam w) !! roleName). }
  assert (Hf1 : noFaults w1) by (intros n op; apply Hf).
  rewrite run_bind.
  assert (Hnames : ∃ names,
    (match (match Roles (iam w) !! roleName with
            | Some r => (Ok (map_to_list (RolePolicies r)).*1, iam w)
            | None => (iamiface.noSuchEntity, iam w)
            end).1 with
     | Ok names => mret names
     | Err e => if iam.IsNoSuchEntity e then mret [] else fail e
     end) w1 = (Ok names, w1)
    ∧ ∀ r p, Roles (iam w1) !! roleName = Some r →
             is_Some (RolePolicies r !! p) → p ∈ names).
  { rewrite Hiam1. destruct (Roles (iam w) !! roleName) as [r|] eqn:Hr.
    - eexists. split; [reflexivity|]. intros r' p [= <-] [d Hd].
      apply list_elem_of_fmap. exists (p, d). split; [done|].
      by apply elem_of_map_to_list.
    - exists []. split; [reflexivity|]. by intros r p [=]. }
  destruct Hnames as (names & -> & Hinv).
  rewrite run_bind.
  destruct (forEach_deletes_policies roleName names w1 Hf1 Hinv)
    as (w2 & -> & Hf2 & Hprof2 & Hpol2).
  rewrite Hiam1 in Hprof2.
  (* the role leaves its profile *)
  rewrite run_bind. unfold iamiface.RemoveRoleFromInstanceProfile.
  edestruct (tolerant_run
               (IamRemoveRoleFromInstanceProfile roleName roleName))
    as (w3 & -> & Hiam3 & Hfaults3); [apply Hf2| |].
  { cbv beta. destruct (InstanceProfiles (iam w2) !! roleName) as [roles|];
      [|tolerated_answer].
    case_bool_decide; [done|tolerated_answer]. }
  assert (Hf3 : noFaults w3) by (intros n op; rewrite Hfaults3; apply Hf2).
  assert (Hroles3 : Roles (iam w3) = Roles (iam w2)).
  { rewrite Hiam3. destruct (InstanceProfiles (iam w2) !! roleName);
      [|done]. by case_bool_decide. }
  assert (Hprof3 : (InstanceProfiles (iam w3) !! roleName = None
                    ∨ InstanceProfiles (iam w3) !! roleName = Some [])
                   ∧ ∀ p, p ≠ roleName →
                          InstanceProfiles (iam w3) !! p
                          = InstanceProfiles (iam w) !! p).
  { rewrite Hiam3, Hprof2.
    destruct (InstanceProfiles (iam w) !! roleName) as [roles|] eqn:Hp;
      cbn [snd].
    - specialize (Hown roles eq_refl). case_bool_decide; cbn [snd].
      + cbn [InstanceProfiles iamiface.setInstanceProfiles]. split.
        * right. rewrite lookup_insert_eq. f_equal.
          clear -Hown. induction Hown as [|r roles -> _ IH]; [done|].
          rewrite filter_cons_False by (intros H; by apply H). done.
        * intros p Hne. rewrite lookup_insert_ne by done. first [done|by rewrite Hprof2].
      + split; [|intros p _; first [done|by rewrite Hprof2]]. right. rewrite Hprof2, Hp.
        f_equal. destruct Hown as [|r roles -> _]; [done|].
        exfalso. apply H. apply list_elem_of_here.
    - split; [|intros p _; first [done|by rewrite Hprof2]]. left. first [done|by rewrite Hprof2]. }
  destruct Hprof3 as [Hn3 Ho3].
  (* the profile goes *)
  rewrite run_bind. unfold iamiface.DeleteInstanceProfile.
  edestruct (tolerant_run (IamDeleteInstanceProfile roleName))
    as (w4 & -> & Hiam4 & Hfaults4); [apply Hf3| |].
  { cbv beta. destruct Hn3 as [-> | ->]; [tolerated_answer|done]. }
  assert (Hf4 : noFaults w4) by (intros n op; rewrite Hfaults4; apply Hf3).
  assert (Hroles4 : Roles (iam w4) = Roles (iam w2)).
  { rewrite Hiam4, <- Hroles3. by destruct Hn3 as [-> | ->]. }
  assert (Hprof4 : InstanceProfiles (iam w4) !! roleName = None
                   ∧ ∀ p, p ≠ roleName →
                          InstanceProfiles (iam w4) !! p
                          = InstanceProfiles (iam w) !! p).
  { rewrite Hiam4. destruct Hn3 as [Hn3 | Hn3]; rewrite Hn3; cbn [snd].
    - by split.
    - cbn [InstanceProfiles iamiface.setInstanceProfiles]. split.
      + by rewrite lookup_delete_eq.
      + intros p Hne. rewrite lookup_delete_ne by done. by apply Ho3. }
  destruct Hprof4 as [Hn4 Ho4].
  (* the role goes *)
  rewrite run_ignoreNoSuchEntity. unfold iamiface.DeleteRole.
  rewrite run_invokeIam, Hf4. cbn [fst snd]. rewrite Hroles4.
  destruct (Roles (iam w2) !! roleName) as [r|] eqn:Hr; [|done].
  rewrite (Hpol2 r eq_refl).
  rewrite (bool_decide_eq_false_2 (∅ ≠ ∅)) by (intros H; by apply H).
  rewrite bool_decide_eq_false_2; [done|].
  intros Hex. apply Exists_exists in Hex as ([p roles] & Hin & Hmem).
  apply elem_of_map_to_list in Hin. cbn in Hmem.
  destruct (decide (p = roleName)) as [->|Hne]; [congruence|].
  rewrite Ho4 in Hin by done. by apply Hne, (Hother p roles).
Qed.

(** After a teardown that returned success and that the environment did
    not fail, neither the role nor its instance profile is left. *)
Lemma deleteRole_removes roleName w w' :
  noFaults w →
  iam.deleteRole roleName w = (Ok tt, w') →
  Roles (iam w') !! roleName = None
  ∧ InstanceProfiles (iam w') !! roleName = None.
Proof.
  intros Hf. unfold iam.deleteRole. rewrite run_bind. unfold try at 1.
  destruct (iamiface.ListRolePolicies roleName w) as [r w1] eqn:H1.
  assert (Hf1 : faults w1 = faults w).
  { destruct (steps_iamiface_ListRolePolicies roleName w) as [[Hfr _] _].
    by rewrite H1 in Hfr. }
  cbn [fst snd]. rewrite run_bind.
  destruct ((match r with
             | Ok names => mret names
             | Err e => if iam.IsNoSuchEntity e then mret [] else fail e
             end) w1) as [[names|e] w1'] eqn:Hn; [|done].
  assert (w1' = w1) as ->.
  { destruct r as [l|e]; [by injection Hn|].
    destruct (iam.IsNoSuchEntity e); by injection Hn. }
  rewrite run_bind.
  destruct (iam.forEach _ names w1) as [[[]|e] w2] eqn:H2; [|done].
  apply forEach_tolerant in H2 as (_ & _ & Hf2 & _).
  rewrite run_bind.
  destruct (iam.ignoreNoSuchEntity _ w2) as [[[]|e] w3] eqn:H3; [|done].
  apply tolerant_step in H3 as (_ & _ & _ & Hf3 & _).
  rewrite run_bind.
  destruct (iam.ignoreNoSuchEntity _ w3) as [[[]|e] w4] eqn:H4; [|done].
  unfold iamiface.DeleteInstanceProfile in H4.
  apply tolerant_step in H4 as (e4 & Htol4 & _ & Hf4 & Hsem4).
  intros H5. unfold iamiface.DeleteRole in H5.
  apply tolerant_step in H5 as (e5 & Htol5 & _ & _ & Hsem5).
  assert (Hno : ∀ n op, faults w3 n op = None).
  { intros n op. rewrite Hf3, Hf2, Hf1. apply Hf. }
  destruct (Hsem4 (Hno _ _)) as [He4 Hiam4].
  destruct Hsem5 as [He5 Hiam5]; [rewrite Hf4; apply Hno|].
  assert (Hgone : InstanceProfiles (iam w4) !! roleName = None).
  { rewrite Hiam4.
    destruct (InstanceProfiles (iam w3) !! roleName) as [[|x roles]|] eqn:Hp;
      cbn [snd].
    - cbn [InstanceProfiles iamiface.setInstanceProfiles]. by rewrite lookup_delete_eq.
    - cbn in He4. by specialize (Htol4 _ He4).
    - done. }
  rewrite Hiam5.
  destruct (Roles (iam w4) !! roleName) as [role|] eqn:Hr; cbn [snd].
  - destruct (bool_decide _ || bool_decide _) eqn:Hb; cbn [snd].
    + cbn in He5. by specialize (Htol5 _ He5).
    + cbn [Roles InstanceProfiles iamiface.setRoles]. by rewrite lookup_delete_eq.
  - by rewrite Hr.
Qed.

(** ** A patch answered not found *)

Lemma surfaces_quiet {A} ko ki (m : M A) :
  steps (λ ev, ∀ e, ¬ patchNotFound e ev) ko ki m → surfaces m.
Proof.
  intros Hm w. destruct (Hm w) as [_ (t & Ht & HP)]. exists t.
  split; [done|]. intros pre ev post e -> Hev. exfalso.
  apply Forall_app in HP as [_ HP]. apply Forall_cons in HP as [HP _].
  by apply (HP e).
Qed.

Lemma surfaces_bind {A B} (m : M A) (f : A → M B) :
  surfaces m → (∀ a, surfaces (f a)) → surfaces (m ≫= f).
Proof.
  intros Hm Hf w. rewrite run_bind. destruct (Hm w) as (t1 & Ht1 & H1).
  destruct (m w) as [[a|e0] w1]; cbn [fst snd] in *;
    [|exists t1; split; [done|]; intros pre ev post e Heq Hev;
      destruct (H1 pre ev post e Heq Hev) as [-> [= ->]]; done].
  destruct (Hf a w1) as (t2 & Ht2 & H2). exists (t1 ++ t2).
  split; [by rewrite Ht2, Ht1, app_assoc|].
  intros pre ev post e Heq Hev.
  apply app_eq_app in Heq as [l [[-> Heq]|[-> ->]]].
  - destruct l as [|x l]; cbn in Heq.
    + rewrite app_nil_r in H1. by apply (H2 [] ev post e).
    + injection Heq as <- ->. by destruct (H1 pre ev l e eq_refl Hev).
  - by apply (H2 l ev post e).
Qed.

(** The outcome of a call is looked at, and what follows surfaces. *)
Lemma surfaces_try_bind {A B} ko ki (m : M A) (f : result A → M B) :
  steps (λ ev, ∀ e, ¬ patchNotFound e ev) ko ki m →
  (∀ r, surfaces (f r)) → surfaces (try m ≫= f).
Proof.
  intros Hm Hf. apply surfaces_bind; [|done].
  apply (surfaces_quiet ko ki). by apply steps_try.
Qed.

Lemma isK8sCall_no_patch_failure ev :
  isK8sCall ev → isPatchCall ev = false → ∀ e, ¬ patchNotFound e ev.
Proof. intros _ Hp e (k & fs & -> & _). done. Qed.

Lemma isIamEvent_no_patch_failure ev :
  isIamEvent ev → ∀ e, ¬ patchNotFound e ev.
Proof. intros Hev e (k & fs & -> & _). done. Qed.

(** Not found is not a failure the loop of [removeFinalizer] retries. *)
Lemma retryable_not_found e :
  IsNotFound e = true → retryable (Aggregate [e]) = false.
Proof.
  intros Hnf. unfold retryable. apply bool_decide_eq_false_2.
  unfold IsNotFound in Hnf. apply bool_decide_eq_true_1 in Hnf.
  cbn. destruct e; cbn in *; unfold IsInvalid; cbn;
    try discriminate Hnf; rewrite Hnf; cbn; by intros [? ?].
Qed.

(** What a patch of the helper does: nothing when the finalizers are those
    of the snapshot, else one request, whose error it aggregates. *)
Lemma run_Patch_cases h o w :
  Patch h o w = (Ok o, w)
  ∨ (∃ o' w', Patch h o w = (Ok o', w')
       ∧ trace w' = trace w
                    ++ [Called (ClientPatch (ObjectKeyFromObject o)
                                  (GetFinalizers o)) None])
  ∨ (∃ e w', Patch h o w = (Err (Aggregate [e]), w')
       ∧ trace w' = trace w
                    ++ [Called (ClientPatch (ObjectKeyFromObject o)
                                  (GetFinalizers o)) (Some e)]).
Proof.
  unfold Patch. case_bool_decide; [by left|]. right.
  rewrite run_bind. unfold try, clientPatch.
  destruct (faults w (length (trace w))
              (ClientPatch (ObjectKeyFromObject o) (GetFinalizers o)))
    as [e|] eqn:Hf.
  - right. rewrite (run_invoke_fault _ _ _ e) by done.
    eexists _, _. split; reflexivity.
  - rewrite run_invoke_sem by done.
    pose proof (clientPatch_sem_trace o w) as Ht.
    destruct (match objects w !! ObjectKeyFromObject o with
              | Some cur => _
              | None => _
              end) as [[o'|e] w1]; cbn [fst snd errOf] in *.
    + left. eexists _, _. split; [reflexivity|]. cbn. by rewrite Ht.
    + right. eexists _, _. split; [reflexivity|]. cbn. by rewrite Ht.
Qed.

Lemma steps_invoke_no_patch_failure {A} ko ki op (sem : World → result A * World) :
  (∀ k fs, op ≠ ClientPatch k fs) →
  (∀ w, frame ko ki w (sem w).2 ∧ trace (sem w).2 = trace w) →
  steps (λ ev, ∀ e, ¬ patchNotFound e ev) ko ki (invoke op sem).
Proof.
  intros Hop Hsem. apply steps_invoke; [|done].
  intros err e (k & fs & [= -> _] & _). by apply (Hop k fs).
Qed.

Lemma steps_Get_no_patch_failure k :
  steps (λ ev, ∀ e, ¬ patchNotFound e ev) false true (Get k).
Proof.
  apply steps_invoke_no_patch_failure; [done|]. intros w.
  destruct (objects w !! k); split; try done; apply frame_refl.
Qed.

Lemma steps_NewHelper_no_patch_failure o :
  steps (λ ev, ∀ e, ¬ patchNotFound e ev) false true (NewHelper o).
Proof.
  apply steps_invoke_no_patch_failure; [done|]. intros w. split; [apply frame_refl|done].
Qed.

Lemma steps_List_no_patch_failure kind sel :
  steps (λ ev, ∀ e, ¬ patchNotFound e ev) false true (List kind sel).
Proof.
  apply steps_invoke_no_patch_failure; [done|]. intros w. split; [apply frame_refl|done].
Qed.

Lemma surfaces_removeFinalizerLoop remaining :
  ∀ i object, surfaces (removeFinalizerLoop remaining i object).
Proof.
  induction remaining as [|remaining IH]; intros i object;
    cbn [removeFinalizerLoop].
  - apply (surfaces_quiet true true), steps_ret.
  - apply surfaces_bind.
    { apply (surfaces_quiet false true), steps_wrapped, steps_NewHelper_no_patch_failure. }
    intros patchHelper w. rewrite run_bind. unfold try.
    fold controlPlaneFinalizer.
    destruct (run_Patch_cases patchHelper
                (RemoveFinalizer object controlPlaneFinalizer) w)
      as [H|[(o' & w' & H & Ht)|(e & w' & H & Ht)]]; rewrite H;
      cbn [fst snd errOf FilterOut].
    + rewrite (bool_decide_eq_false_2 (is_Some None)) by (by intros [? ?]).
      cbn [andb]. apply (IH (S i) _ w).
    + rewrite (bool_decide_eq_false_2 (is_Some None)) by (by intros [? ?]).
      cbn [andb]. destruct (IH (S i) o' w') as (t & Ht' & Hs).
      eexists. split; [by rewrite Ht', Ht, <- app_assoc|].
      intros pre ev post e Heq Hev. destruct pre as [|x pre]; cbn in Heq.
      * injection Heq as <- _. by destruct Hev as (? & ? & [=] & _).
      * injection Heq as _ Heq. by apply (Hs pre ev post e).
    + change (bool_decide (is_Some (FilterOutErr (λ err, negb (IsInvalid err))
                                      (Aggregate [e]))))
        with (retryable (Aggregate [e])).
      destruct (retryable (Aggregate [e]) && bool_decide (i < maxPatchRetries))
        eqn:Hretry.
      * assert (Hrest : surfaces
                  (object' ← wrapped
                     (Get (ObjectKeyFromObject
                             (RemoveFinalizer object controlPlaneFinalizer)));
                   removeFinalizerLoop remaining (S i) object')).
        { apply surfaces_bind; [|intros ?; apply IH].
          apply (surfaces_quiet false true), steps_wrapped, steps_Get_no_patch_failure. }
        destruct (Hrest w') as (t & Ht' & Hs).
        eexists. split; [by rewrite Ht', Ht, <- app_assoc|].
        intros pre ev post e' Heq Hev. destruct pre as [|x pre]; cbn in Heq.
        -- injection Heq as <- _. destruct Hev as (? & ? & [= _ _ <-] & Hnf).
           rewrite (retryable_not_found e Hnf) in Hretry. done.
        -- injection Heq as _ Heq. by apply (Hs pre ev post e').
      * eexists. split; [exact Ht|].
        intros pre ev post e' Heq Hev. destruct pre as [|x pre]; cbn in Heq.
        -- injection Heq as <- <-. by destruct Hev as (? & ? & [= _ _ <-] & _).
        -- injection Heq as _ Heq. by destruct pre.
Qed.

Lemma surfaces_removeFinalizer object : surfaces (removeFinalizer object).
Proof.
  unfold removeFinalizer. destruct (negb _).
  - apply (surfaces_quiet true true), steps_ret.
  - apply surfaces_removeFinalizerLoop.
Qed.

Lemma steps_teardown_no_patch_failure r s awsMachineTemplate role :
  steps (λ ev, ∀ e, ¬ patchNotFound e ev) false false
    (reconcileDelete_teardown r s awsMachineTemplate role).
Proof.
  assert (Hiam : ∀ (m : M unit), steps isIamEvent true false m →
            steps (λ ev, ∀ e, ¬ patchNotFound e ev) false false m).
  { intros m. apply steps_weaken; [apply isIamEvent_no_patch_failure|done|done]. }
  unfold reconcileDelete_teardown, isRoleUsedElsewhere.
  apply steps_bind.
  { apply steps_bind.
    - eapply steps_weaken; [| | |apply steps_wrapped, steps_List_no_patch_failure]; done.
    - intros items. apply steps_bind; [|intros _; apply steps_ret].
      apply steps_emit. by intros e (? & ? & [=] & _). }
  intros roleUsed. apply steps_if; [|apply steps_ret].
  apply steps_bind; [apply Hiam, steps_iam_DeleteRole|].
  intros _. repeat apply steps_if; try apply steps_ret.
  apply Hiam, steps_iam_DeleteRolesForIRSA.
Qed.

(** [reconcileDelete] does not ignore a patch answered not found. *)
Lemma surfaces_reconcileDelete r s awsMachineTemplate clusterName namespace
    role :
  surfaces (reconcileDelete r s awsMachineTemplate clusterName namespace role).
Proof.
  intros w. rewrite reconcileDelete_phases. revert w.
  apply surfaces_bind.
  { apply (surfaces_quiet false false), steps_teardown_no_patch_failure. }
  intros _. apply surfaces_bind.
  - unfold reconcileDelete_finalizers. apply surfaces_bind.
    { apply (surfaces_quiet false true). unfold key.GetAWSClusterByName.
      apply steps_bind; [apply steps_List_no_patch_failure|].
      intros items. steps_go. }
    intros awsCluster.
    apply surfaces_bind; [|intros _]; apply surfaces_removeFinalizer.
  - intros _. unfold reconcileDelete_configMap.
    apply (surfaces_try_bind false true); [apply steps_Get_no_patch_failure|].
    intros [cm|err].
    + apply surfaces_bind; [apply surfaces_removeFinalizer|].
      intros _. apply (surfaces_quiet true true), steps_ret.
    + apply (surfaces_quiet true true), steps_returnErr.
Qed.

(** The template has gone from the store when its finalizer is to be
    released: the patch is answered not found and [reconcileDelete]
    returns that error. *)
Lemma deletion_returns_patch_not_found :
  (reconcileDelete sampleReconciler sampleService templateA "test-cluster"
     sampleNamespace iam.ControlPlaneRole goneWorld).1
  = Err (Wrap (Aggregate [StatusError StatusReasonNotFound]))
  ∧ IsNotFound (StatusError StatusReasonNotFound) = true
  ∧ last (trace (reconcileDelete sampleReconciler sampleService templateA
                   "test-cluster" sampleNamespace iam.ControlPlaneRole
                   goneWorld).2)
    = Some (Called (ClientPatch (ObjectKeyFromObject templateA) [])
              (Some (StatusError StatusReasonNotFound))).
Proof. vm_compute. repeat split. Qed.

(** C8, as the code has it: the not-found results that deletion ignores.
    When everything before the read of the cluster-values ConfigMap
    succeeded and that read reports not found, as it does when the ConfigMap
    is absent, [reconcileDelete] returns a nil error.  A patch request that
    is answered not found is not ignored: [reconcileDelete] makes no further
    call and returns that error, aggregated and masked.  The teardown of
    the role ([DeleteRole]) only ever fails with the error of one of its IAM
    calls that is not a not-found; when it returns success it has listed
    and deleted the inline policies, taken the role out of its instance
    profile, deleted the profile and deleted the role, each call succeeding
    or answered not found, and unless the environment failed a call neither
    the role nor the profile is left; and from any state in which the role
    has its own instance profile, with whatever part of the role already
    gone, it succeeds when no call fails, so an interrupted deletion can be
    resumed.  [DeleteRolesForIRSA] fails only with such an error as well. *)
Theorem deletion_tolerates_not_found
    (r : AWSMachineTemplateReconciler) (iamService : iam.IAMService)
    (awsMachineTemplate : Object) (clusterName namespace role : string)
    (w w1 : World) :
  ((_ ← reconcileDelete_teardown r iamService awsMachineTemplate role;
    reconcileDelete_finalizers awsMachineTemplate clusterName) w
   = (Ok tt, w1) →
   (∀ e, (Get (clusterValuesKey clusterName namespace) w1).1 = Err e →
         IsNotFound e = true →
         (reconcileDelete r iamService awsMachineTemplate clusterName
            namespace role w).1 = Ok emptyResult)
   ∧ (objects w1 !! clusterValuesKey clusterName namespace = None →
      faults w1 (length (trace w1))
        (ClientGet (clusterValuesKey clusterName namespace)) = None →
      (reconcileDelete r iamService awsMachineTemplate clusterName
         namespace role w).1 = Ok emptyResult))
  ∧ (∀ pre key finalizers e post,
       since w (reconcileDelete r iamService awsMachineTemplate clusterName
                  namespace role w).2
       = pre ++ Called (ClientPatch key finalizers) (Some e) :: post →
       IsNotFound e = true →
       post = []
       ∧ (reconcileDelete r iamService awsMachineTemplate clusterName
            namespace role w).1 = Err (Wrap (Aggregate [e])))
  ∧ (∀ e, (iam.DeleteRole iamService w).1 = Err e →
          iam.IsNoSuchEntity e = false
          ∧ ∃ op, Called op (Some e) ∈ since w (iam.DeleteRole iamService w).2)
  ∧ ((iam.DeleteRole iamService w).1 = Ok tt →
     (∃ t, since w (iam.DeleteRole iamService w).2
           = Enter MDeleteRole :: t ++ [Leave MDeleteRole None]
           ∧ completeTeardown (iam.MainRoleName iamService) t)
     ∧ (noFaults w →
        Roles (iam (iam.DeleteRole iamService w).2)
          !! iam.MainRoleName iamService = None
        ∧ InstanceProfiles (iam (iam.DeleteRole iamService w).2)
            !! iam.MainRoleName iamService = None))
  ∧ (noFaults w → ownProfile (iam.MainRoleName iamService) (iam w) →
     (iam.DeleteRole iamService w).1 = Ok tt)
  ∧ (∀ e, (iam.DeleteRolesForIRSA iamService w).1 = Err e →
          iam.IsNoSuchEntity e = false
          ∧ ∃ op, Called op (Some e)
                  ∈ since w (iam.DeleteRolesForIRSA iamService w).2).
Proof.
  split_and!.
  - intros Hpre.
    assert (Hnf : ∀ e,
      (Get (clusterValuesKey clusterName namespace) w1).1 = Err e →
      IsNotFound e = true →
      (reconcileDelete r iamService awsMachineTemplate clusterName
         namespace role w).1 = Ok emptyResult).
    { intros e Hget Hnf. rewrite reconcileDelete_phases.
      rewrite run_bind.
      rewrite run_bind in Hpre.
      destruct (reconcileDelete_teardown _ _ _ _ w) as [[[]|e1] w0]; [|done].
      rewrite run_bind, Hpre. unfold reconcileDelete_configMap.
      rewrite run_bind. unfold try.
      destruct (Get _ w1) as [[cm|e'] w2]; cbn in Hget; [done|].
      injection Hget as ->. cbn. by rewrite Hnf. }
    split; [exact Hnf|]. intros Hnone Hf.
    apply (Hnf (StatusError StatusReasonNotFound)); [|done].
    unfold Get. rewrite run_invoke_sem by done. by rewrite Hnone.
  - intros pre key finalizers e post Heq Hnf.
    destruct (surfaces_reconcileDelete r iamService awsMachineTemplate
                clusterName namespace role w) as (t & Ht & Hs).
    rewrite (since_app _ _ t Ht) in Heq.
    apply (Hs pre _ post e Heq). by exists key, finalizers.
  - apply failsWith_method, failsWith_deleteRole.
  - unfold iam.DeleteRole. rewrite run_method. cbn [fst snd].
    set (w0 := record (Enter MDeleteRole) w).
    destruct (iam.deleteRole (iam.MainRoleName iamService) w0)
      as [[[]|e] w'] eqn:Hrun; [|done].
    intros _. cbn [fst snd errOf]. split.
    + destruct (deleteRole_complete _ _ _ Hrun) as (t & Ht & Hc).
      exists t. split; [|done]. apply since_app. cbn [trace record].
      rewrite Ht. cbn [trace record w0]. by rewrite <- !app_assoc.
    + intros Hf.
      by apply (deleteRole_removes (iam.MainRoleName iamService) w0 w').
  - intros Hf Hown. unfold iam.DeleteRole. rewrite run_method. cbn [fst snd].
    by apply deleteRole_resumes.
  - apply failsWith_method. apply failsWith_bind.
    + apply failsWith_forEach. intros b. apply failsWith_deleteRole.
    + intros _. apply failsWith_ignoreNoSuchEntity, failsWith_invokeIam.
Qed.

Lemma deletion_tolerates_not_found_witness :
  objects (sampleWorld [templateA; templateB; sampleCluster] emptyIam noFault)
    !! clusterValuesKey "test-cluster" sampleNamespace = None
  ∧ (reconcileDelete sampleReconciler sampleService templateA "test-cluster"
       sampleNamespace iam.ControlPlaneRole
       (sampleWorld [templateA; templateB; sampleCluster] emptyIam noFault)).1
    = Ok emptyResult
  ∧ ownProfile sampleRoleName partialIam
  ∧ (iam.DeleteRole sampleService (sampleWorld [] partialIam noFault)).1
    = Ok tt
  ∧ Roles (iam (iam.DeleteRole sampleService
                  (sampleWorld [] partialIam noFault)).2) !! sampleRoleName
    = None.
Proof.
  assert (Hown : ownProfile sampleRoleName partialIam).
  { split; intros ?; cbn; intros; by rewrite lookup_empty in *. }
  destruct (deletion_tolerates_not_found sampleReconciler sampleService
              templateA "test-cluster" sampleNamespace iam.ControlPlaneRole
              (sampleWorld [] partialIam noFault)
              (sampleWorld [] partialIam noFault))
    as (_ & _ & _ & Hdone & Hresume & _).
  assert (Hok : (iam.DeleteRole sampleService
                   (sampleWorld [] partialIam noFault)).1 = Ok tt).
  { apply Hresume; [intros n op; reflexivity|exact Hown]. }
  destruct (Hdone Hok) as (_ & Hgone).
  destruct Hgone as (Hrole & _); [intros n op; reflexivity|].
  split; [reflexivity|]. split; [|by split_and!].
  refine (proj2 (proj1 (deletion_tolerates_not_found sampleReconciler
            sampleService templateA "test-cluster" sampleNamespace
            iam.ControlPlaneRole
            (sampleWorld [templateA; templateB; sampleCluster] emptyIam noFault)
            ((_ ← reconcileDelete_teardown sampleReconciler sampleService
                    templateA iam.ControlPlaneRole;
              reconcileDelete_finalizers templateA "test-cluster")
               (sampleWorld [templateA; templateB; sampleCluster] emptyIam
                  noFault)).2) _) _ _).
  - vm_compute. reflexivity.
  - vm_compute. reflexivity.
  - vm_compute. reflexivity.
Defined.

(** ** Guard, teardown and the order of events *)

Lemma prefix_before {A} (Q : A → Prop) (a b pre post : list A) (ev : A) :
  a ++ b = pre ++ ev :: post → Forall (λ x, ¬ Q x) a → Q ev →
  ∃ pre', pre = a ++ pre' ∧ b = pre' ++ ev :: post.
Proof.
  revert pre. induction a as [|x a IH]; intros pre Heq Hall HQ.
  - exists pre. by cbn in *.
  - apply Forall_cons in Hall as [Hx Hall]. destruct pre as [|y pre]; cbn in Heq.
    + injection Heq as -> _. done.
    + injection Heq as -> Heq. destruct (IH pre Heq Hall HQ) as (pre' & -> & ->).
      by exists pre'.
Qed.

Lemma run_isRoleUsedElsewhere self roleName w :
  isRoleUsedElsewhere self roleName w
  = match faults w (length (trace w)) (ClientList AWSMachineTemplate []) with
    | Some e =>
        (Err (Wrap e),
         record (Called (ClientList AWSMachineTemplate []) (Some e)) w)
    | None =>
        (Ok (usedElsewhere self roleName w),
         record (RoleUsed (usedElsewhere self roleName w))
           (record (Called (ClientList AWSMachineTemplate []) None) w))
    end.
Proof.
  unfold isRoleUsedElsewhere. rewrite run_bind. unfold wrapped, List.
  destruct (faults w _ _) as [e|] eqn:Hf.
  - by rewrite (run_invoke_fault _ _ _ e).
  - by rewrite run_invoke_sem.
Qed.

Lemma usedElsewhere_true self roleName w :
  usedElsewhere self roleName w = true
  ↔ ∃ k o, objects w !! k = Some o ∧ kindOf o = AWSMachineTemplate
           ∧ ObjectKeyFromObject o ≠ ObjectKeyFromObject self
           ∧ IAMInstanceProfile o = roleName.
Proof.
  unfold usedElsewhere, templatesOf. rewrite existsb_exists. split.
  - intros (o & Hin & Hb). apply andb_true_iff in Hb as [Hk Hp].
    apply bool_decide_eq_true in Hk, Hp.
    apply list_elem_of_In, list_elem_of_filter in Hin as [[Hkind _] Hin].
    apply list_elem_of_fmap in Hin as ([k o'] & -> & Hin).
    apply elem_of_map_to_list in Hin. by exists k, o'.
  - intros (k & o & Hl & Hkind & Hk & Hp). exists o. split.
    + apply list_elem_of_In, list_elem_of_filter. split; [done|].
      apply list_elem_of_fmap. exists (k, o). split; [done|].
      by apply elem_of_map_to_list.
    + apply andb_true_iff. by rewrite !bool_decide_eq_true.
Qed.

(** The trace of a method: entry, the IAM calls of its body, return. *)
Lemma method_shape {A} m (body : M A) w :
  steps isIamCall true false body →
  ∃ t, trace (iam.method m body w).2
       = trace w ++ Enter m :: t ++ [Leave m (errOf (iam.method m body w).1)]
       ∧ Forall isIamCall t
       ∧ objects (iam.method m body w).2 = objects w.
Proof.
  intros Hb. rewrite run_method. cbn [fst snd].
  destruct (Hb (record (Enter m) w)) as [(_ & _ & Ho & _) (t & Ht & HP)].
  exists t. cbn [trace record objects]. rewrite Ht. cbn [trace record].
  rewrite <- !app_assoc. repeat split; [done|]. by rewrite Ho.
Qed.

Lemma isIamCall_not_patch ev : isIamCall ev → isPatchCall ev = false.
Proof. destruct ev as [[] ?| | |]; done. Qed.

Lemma isK8sCall_not_leave ev m err : isK8sCall ev → ev ≠ Leave m err.
Proof. by destruct ev. Qed.

Lemma steps_deleteRolesForIRSA_body s :
  steps isIamCall true false
    (_ ← iam.forEach (λ b, iam.deleteRole (iam.BindingRoleName b)) (iam.Catalog s);
     iam.ignoreNoSuchEntity
       (iamiface.DeleteOpenIDConnectProvider (iam.ClusterName s))).
Proof. steps_all. Qed.

Ltac trace_norm := repeat (progress (cbn; rewrite <- ?app_assoc)).

(** Membership in a list built from conses and appends. *)
Ltac elem_split H :=
  cbn in H;
  repeat (rewrite ?elem_of_cons, ?elem_of_app, ?elem_of_nil in H);
  destruct_or?; try done.

Ltac elem_solve :=
  cbn; repeat (rewrite ?elem_of_cons, ?elem_of_app, ?elem_of_nil);
  solve [ repeat first [ left; reflexivity | reflexivity | right ] | tauto ].

Lemma isIamCall_not_roleUsed l b : Forall isIamCall l → RoleUsed b ∉ l.
Proof. intros Hl Hin. rewrite Forall_forall in Hl. by apply Hl in Hin. Qed.

Lemma teardown_run r s awsMachineTemplate role w :
  ∃ t,
    trace (reconcileDelete_teardown r s awsMachineTemplate role w).2
    = trace w ++ t
    ∧ teardownTrace r role
        (reconcileDelete_teardown r s awsMachineTemplate role w).1 t
    ∧ objects (reconcileDelete_teardown r s awsMachineTemplate role w).2
      = objects w
    ∧ (RoleUsed false ∉ t →
       iam (reconcileDelete_teardown r s awsMachineTemplate role w).2 = iam w
       ∧ history (reconcileDelete_teardown r s awsMachineTemplate role w).2
         = history w)
    ∧ (∀ b, RoleUsed b ∈ t →
            b = usedElsewhere awsMachineTemplate
                  (IAMInstanceProfile awsMachineTemplate) w)
    ∧ (faults w (length (trace w)) (ClientList AWSMachineTemplate []) = None →
       RoleUsed (usedElsewhere awsMachineTemplate
                   (IAMInstanceProfile awsMachineTemplate) w) ∈ t).
Proof.
  unfold reconcileDelete_teardown. rewrite run_bind, run_isRoleUsedElsewhere.
  destruct (faults w _ _) as [e|].
  { eexists. split; [cbn; reflexivity|]. split; [constructor|].
    split; [done|]. split; [done|]. split; [|done]. intros b Hb.
    apply list_elem_of_singleton in Hb. done. }
  set (used := usedElsewhere _ _ w). set (w1 := record (RoleUsed used) _).
  destruct used eqn:Hused; cbn [negb].
  { eexists. split; [cbn; rewrite <- ?app_assoc; cbn; reflexivity|].
    split; [constructor|].
    split; [done|]. split; [done|]. split; [|intros _; elem_solve].
    intros b Hb. elem_split Hb. congruence. }
  rewrite run_bind.
  destruct (method_shape MDeleteRole (iam.deleteRole (iam.MainRoleName s)) w1
              (steps_deleteRole _)) as (td & Htd & HPd & Hod).
  fold (iam.DeleteRole s) in Htd, Hod.
  assert (Hb : ∀ t' b, RoleUsed b
     ∈ [Called (ClientList AWSMachineTemplate []) None; RoleUsed false;
        Enter MDeleteRole] ++ td ++ t' →
     Forall isIamEvent t' → b = false).
  { intros t' b Hin Ht'. elem_split Hin; try congruence.
    - by apply isIamCall_not_roleUsed in Hin.
    - rewrite Forall_forall in Ht'. by apply Ht' in Hin. }
  destruct (iam.DeleteRole s w1) as [[[]|e] w2]; cbn [fst snd errOf] in *.
  2:{ exists ([Called (ClientList AWSMachineTemplate []) None; RoleUsed false;
               Enter MDeleteRole] ++ td ++ [Leave MDeleteRole (Some e)]).
      split; [cbn [mret M_ret snd]; rewrite Htd; trace_norm; reflexivity|].
      split; [by apply TeardownDeleteRoleFails|]. split; [done|].
      split_and!.
      - intros Hn. exfalso. apply Hn. elem_solve.
      - intros b Hin. apply (Hb _ _ Hin). by repeat constructor.
      - intros _. elem_solve. }
  case_bool_decide as Hrole; [destruct (EnableRoute53Role r) eqn:Hen|].
  - destruct (method_shape MDeleteRolesForIRSA _ w2
                (steps_deleteRolesForIRSA_body s)) as (ti & Hti & HPi & Hoi).
    fold (iam.DeleteRolesForIRSA s) in Hti, Hoi.
    exists ([Called (ClientList AWSMachineTemplate []) None; RoleUsed false;
             Enter MDeleteRole] ++ td
            ++ [Leave MDeleteRole None; Enter MDeleteRolesForIRSA] ++ ti
            ++ [Leave MDeleteRolesForIRSA
                  (errOf (iam.DeleteRolesForIRSA s w2).1)]).
    split; [rewrite Hti, Htd; trace_norm; reflexivity|].
    split; [by apply TeardownIRSA|]. split; [by rewrite Hoi|].
    split_and!.
    + intros Hn. exfalso. apply Hn. elem_solve.
    + intros b Hin. apply (Hb _ _ Hin). constructor; [done|].
      constructor; [done|]. apply Forall_app. split.
      * eapply Forall_impl; [done|]. apply isIamCall_isIamEvent.
      * by repeat constructor.
    + intros _. elem_solve.
  - exists ([Called (ClientList AWSMachineTemplate []) None; RoleUsed false;
             Enter MDeleteRole] ++ td ++ [Leave MDeleteRole None]).
    split; [cbn [mret M_ret snd]; rewrite Htd; trace_norm; reflexivity|].
    split; [apply TeardownRoleDeleted; [done|]; intros [_ ?]; congruence|].
    split; [done|]. split_and!.
    + intros Hn. exfalso. apply Hn. elem_solve.
    + intros b Hin. apply (Hb _ _ Hin). by repeat constructor.
    + intros _. elem_solve.
  - exists ([Called (ClientList AWSMachineTemplate []) None; RoleUsed false;
             Enter MDeleteRole] ++ td ++ [Leave MDeleteRole None]).
    split; [cbn [mret M_ret snd]; rewrite Htd; trace_norm; reflexivity|].
    split; [apply TeardownRoleDeleted; [done|]; by intros [? _]|].
    split; [done|]. split_and!.
    + intros Hn. exfalso. apply Hn. elem_solve.
    + intros b Hin. apply (Hb _ _ Hin). by repeat constructor.
    + intros _. elem_solve.
Qed.

Lemma teardownTrace_no_patch r role res t :
  teardownTrace r role res t → Forall (λ ev, ¬ isPatchCall ev = true) t.
Proof.
  assert (Hiam : ∀ l, Forall isIamCall l → Forall (λ ev, ¬ isPatchCall ev = true) l).
  { intros l Hl. eapply Forall_impl; [exact Hl|]. intros ev Hev.
    rewrite (isIamCall_not_patch ev Hev). done. }
  destruct 1; cbn; repeat (constructor; [done|]); try done;
    rewrite ?Forall_app; repeat split; auto;
    repeat (constructor; [done|]); auto; try done;
    rewrite ?Forall_app; repeat split; auto; by repeat constructor.
Qed.

Lemma teardownTrace_ok r role t :
  teardownTrace r role (Ok tt) t → RoleUsed true ∈ t ∨ tornDown r role t.
Proof.
  inversion 1; subst.
  - left. elem_solve.
  - right. split; [elem_solve|]. intros ??; tauto.
  - right. split; [elem_solve|]. intros _ _. elem_solve.
Qed.

Lemma isIamCall_not_leave l m err : Forall isIamCall l → Leave m err ∉ l.
Proof. intros Hl Hin. rewrite Forall_forall in Hl. by apply Hl in Hin. Qed.

Lemma teardownTrace_leave_error r role res t m e :
  teardownTrace r role res t → Leave m (Some e) ∈ t → res = Err e.
Proof.
  destruct 1; intros Hin; elem_split Hin;
    try (exfalso; eapply isIamCall_not_leave; [|eassumption]; eassumption);
    try congruence.
  destruct res; cbn in *; congruence.
Qed.

Lemma teardownTrace_skipped r role res t :
  teardownTrace r role res t → RoleUsed false ∉ t →
  Forall (λ ev, ¬ isIamEvent ev) t.
Proof.
  destruct 1; intros Hn; try (exfalso; apply Hn; elem_solve).
  - repeat (apply List.Forall_cons; [cbn; intros ?; done|]). apply List.Forall_nil.
  - repeat (apply List.Forall_cons; [cbn; intros ?; done|]). apply List.Forall_nil.
Qed.

Lemma teardownTrace_entered r role res t :
  teardownTrace r role res t → RoleUsed false ∈ t →
  ∃ post, t = [Called (ClientList AWSMachineTemplate []) None; RoleUsed false;
               Enter MDeleteRole] ++ post.
Proof.
  destruct 1; intros Hin; try (by eexists); elem_split Hin.
Qed.

Lemma steps_reconcileDelete_release awsMachineTemplate clusterName namespace :
  steps isK8sCall false true
    (_ ← reconcileDelete_finalizers awsMachineTemplate clusterName;
     reconcileDelete_configMap clusterName namespace).
Proof.
  unfold reconcileDelete_finalizers, reconcileDelete_configMap. steps_go.
Qed.

(** The trace of [reconcileDelete]: the teardown, then calls of the
    Kubernetes client only, none if the teardown failed. *)
Lemma reconcileDelete_run r s awsMachineTemplate clusterName namespace role w :
  ∃ t t2,
    trace (reconcileDelete r s awsMachineTemplate clusterName namespace role w).2
    = trace w ++ t ++ t2
    ∧ teardownTrace r role
        (reconcileDelete_teardown r s awsMachineTemplate role w).1 t
    ∧ Forall isK8sCall t2
    ∧ (∀ e, (reconcileDelete_teardown r s awsMachineTemplate role w).1 = Err e →
            t2 = []
            ∧ (reconcileDelete r s awsMachineTemplate clusterName namespace
                 role w).1 = Err e
            ∧ objects (reconcileDelete r s awsMachineTemplate clusterName
                         namespace role w).2 = objects w)
    ∧ (RoleUsed false ∉ t →
       iam (reconcileDelete r s awsMachineTemplate clusterName namespace
              role w).2 = iam w
       ∧ history (reconcileDelete r s awsMachineTemplate clusterName namespace
                    role w).2 = history w)
    ∧ (∀ b, RoleUsed b ∈ t →
            b = usedElsewhere awsMachineTemplate
                  (IAMInstanceProfile awsMachineTemplate) w)
    ∧ (faults w (length (trace w)) (ClientList AWSMachineTemplate []) = None →
       RoleUsed (usedElsewhere awsMachineTemplate
                   (IAMInstanceProfile awsMachineTemplate) w) ∈ t).
Proof.
  destruct (teardown_run r s awsMachineTemplate role w)
    as (t & Ht & Htd & Ho & Hi & Hb & Hl).
  rewrite reconcileDelete_phases, run_bind.
  destruct (reconcileDelete_teardown r s awsMachineTemplate role w)
    as [[[]|e] w1]; cbn [fst snd] in *.
  - destruct (steps_reconcileDelete_release awsMachineTemplate clusterName
                namespace w1) as [(_ & _ & _ & Hk) (t2 & Ht2 & HP2)].
    exists t, t2. rewrite Ht2, Ht, app_assoc.
    split_and!; try done.
    intros Hn. destruct (Hk eq_refl) as [-> ->]. by apply Hi.
  - exists t, []. rewrite app_nil_r. split_and!; try done.
    by intros e' [= <-].
Qed.

(** ** AWSManagedControlPlaneReconciler: deletion *)

Lemma steps_quiet_Get k : steps isQuietCall true true (Get k).
Proof.
  apply steps_invoke; [done|]. intros w.
  destruct (objects w !! k); split; try done; apply frame_refl.
Qed.

Lemma steps_quiet_NewHelper o : steps isQuietCall true true (NewHelper o).
Proof. apply steps_invoke; [done|]. intros w. split; [apply frame_refl|done]. Qed.

Lemma steps_quiet_external op :
  isQuietOp op = true → steps isQuietCall true true (external op).
Proof.
  intros Hq. apply steps_invoke; [done|]. intros w. split; [apply frame_refl|done].
Qed.

Lemma isQuietCall_keeps ev : isQuietCall ev → keepsIRSAFinalizer ev.
Proof. destruct ev as [[] ?| | |]; done. Qed.

Lemma isIamEvent_not_removal ev :
  isIamEvent ev → removesFinalizer irsaFinalizer ev = false.
Proof. destruct ev as [[] ?| | |]; done. Qed.

Lemma In_AddFinalizer o f : f ∈ GetFinalizers (AddFinalizer o f).
Proof.
  unfold AddFinalizer. destruct (ContainsFinalizer o f) eqn:Hc.
  - by apply ContainsFinalizer_true.
  - cbn. apply elem_of_app. right. by apply list_elem_of_singleton.
Qed.

(** Adding the finalizer: the only patch request carries it. *)
Lemma steps_add_finalizer eksCluster :
  steps keepsIRSAFinalizer false true
    (patchHelper ← wrapped (NewHelper eksCluster);
     _ ← wrapped (Patch patchHelper
                    (AddFinalizer eksCluster (key.FinalizerName iam.IRSARole)));
     mret tt).
Proof.
  apply steps_bind.
  { apply steps_wrapped. eapply steps_weaken; [| | |apply steps_quiet_NewHelper];
      [apply isQuietCall_keeps|done|done]. }
  intros h. apply steps_bind; [|intros; apply steps_ret].
  apply steps_wrapped. unfold Patch. apply steps_if; [apply steps_ret|].
  apply steps_bind; [|intros [?|?]; [apply steps_ret|apply steps_fail]].
  apply steps_try. unfold clientPatch. apply steps_invoke.
  - intros err. split; [|done]. cbn. apply bool_decide_eq_false.
    intros Hn. apply Hn, In_AddFinalizer.
  - intros w. destruct (objects w !! _); [|split; [apply frame_refl|done]].
    destruct (_ && negb _); [split; [apply frame_refl|done]|].
    destruct (_ && bool_decide _); split; try done; by unfold frame.
Qed.

Lemma isIamEvent_reconcile_keeps s a d o :
  steps keepsIRSAFinalizer true false (iam.ReconcileRolesForIRSA s a d o).
Proof.
  intros w. unfold iam.ReconcileRolesForIRSA.
  set (body := if bool_decide (d = "") then _ else _).
  assert (Hb : steps isIamCall true false body).
  { unfold body. steps_all. }
  destruct (method_shape MReconcileRolesForIRSA body w Hb) as (t & Ht & HP & Ho).
  destruct (steps_method MReconcileRolesForIRSA body Hb w) as [Hf _].
  split; [done|]. eexists. split; [exact Ht|].
  constructor; [done|]. apply Forall_app. split.
  - eapply Forall_impl; [exact HP|]. intros ev Hev. split.
    + by apply isIamEvent_not_removal, isIamCall_isIamEvent.
    + intros err ->. done.
  - by repeat constructor.
Qed.

Lemma steps_reconcileManagedControlPlane s eks identity roleName :
  steps keepsIRSAFinalizer false false
    (reconcileManagedControlPlane s eks identity roleName).
Proof.
  unfold reconcileManagedControlPlane.
  apply steps_bind.
  { apply steps_if; [|apply steps_ret].
    eapply steps_weaken; [| | |apply steps_add_finalizer]; done. }
  intros _. apply steps_bind.
  { apply steps_wrapped.
    eapply steps_weaken; [| | |apply steps_quiet_external];
      [apply isQuietCall_keeps|done|done|done]. }
  intros accountID. apply steps_bind.
  { apply steps_wrapped.
    eapply steps_weaken; [| | |apply steps_quiet_external];
      [apply isQuietCall_keeps|done|done|done]. }
  intros domain. apply steps_bind.
  { apply steps_wrapped. unfold iam.GetRoleARN.
    apply steps_bind; [|intros; apply steps_ret].
    eapply steps_weaken; [| | |apply steps_iamiface_GetRole]; try done.
    intros ev Hev. split.
    - by apply isIamEvent_not_removal, isIamCall_isIamEvent.
    - intros err ->. done. }
  intros arn. apply steps_wrapped.
  eapply steps_weaken; [| | |apply isIamEvent_reconcile_keeps]; done.
Qed.

Lemma shape_ret a : managedControlPlaneShape (mret a).
Proof. intros w. exists []. rewrite app_nil_r. split; [done|]. by left. Qed.

Lemma shape_fail e : managedControlPlaneShape (fail e).
Proof. intros w. exists []. rewrite app_nil_r. split; [done|]. by left. Qed.

Lemma shape_bind {A} (m : M A) (f : A → M Result) :
  steps isQuietCall true true m →
  (∀ a, managedControlPlaneShape (f a)) →
  managedControlPlaneShape (m ≫= f).
Proof.
  intros Hm Hf w. rewrite run_bind.
  destruct (Hm w) as [(_ & _ & Ho & _) (t & Ht & HP)].
  destruct (m w) as [[a|e] w1]; cbn [fst snd] in *.
  - destruct (Hf a w1)
      as (t' & Ht' & [Hk|(t0 & ti & t3 & err & Hs & H0 & Hi & H3 & He)]).
    + exists (t ++ t'). rewrite Ht', Ht, app_assoc. split; [done|]. left.
      apply Forall_app. split; [|done].
      eapply Forall_impl; [done|]. apply isQuietCall_keeps.
    + exists (t ++ t'). rewrite Ht', Ht, app_assoc. split; [done|]. right.
      exists (t ++ t0), ti, t3, err. rewrite Hs, app_assoc.
      split_and!; try done.
      * by apply Forall_app.
      * intros e Herr. destruct (He e Herr) as (? & ? & Hobj).
        split_and!; try done. by rewrite Hobj, Ho.
  - exists t. split; [done|]. left. eapply Forall_impl; [done|].
    apply isQuietCall_keeps.
Qed.

Lemma shape_steps (k : M Result) :
  steps keepsIRSAFinalizer false false k → managedControlPlaneShape k.
Proof.
  intros Hk w. destruct (Hk w) as [_ (t & Ht & HP)]. exists t.
  split; [done|]. by left.
Qed.

Lemma shape_delete s eksCluster res :
  managedControlPlaneShape
    (_ ← deleteManagedControlPlane s eksCluster; mret res).
Proof.
  intros w. rewrite run_bind. unfold deleteManagedControlPlane.
  rewrite run_bind.
  destruct (method_shape MDeleteRolesForIRSA _ w
              (steps_deleteRolesForIRSA_body s)) as (ti & Hti & HPi & Hoi).
  fold (iam.DeleteRolesForIRSA s) in Hti, Hoi.
  assert (Hw : wrapped (iam.DeleteRolesForIRSA s) w
               = match iam.DeleteRolesForIRSA s w with
                 | (Ok a, w') => (Ok a, w')
                 | (Err e, w') => (Err (Wrap e), w')
                 end) by reflexivity.
  rewrite Hw. clear Hw.
  destruct (iam.DeleteRolesForIRSA s w) as [[[]|e] w1]; cbn [fst snd errOf] in *.
  - set (rest := if ContainsFinalizer _ _ then _ else _).
    assert (Hrest : steps isK8sCall false true rest) by (unfold rest; steps_go).
    destruct (Hrest w1) as [_ (t3 & Ht3 & HP3)].
    exists (Enter MDeleteRolesForIRSA :: ti
            ++ [Leave MDeleteRolesForIRSA None] ++ t3).
    split.
    + destruct (rest w1) as [[[]|e] w2]; cbn [mret M_ret fst snd] in *;
        rewrite Ht3, Hti; trace_norm; reflexivity.
    + right. exists [], ti, t3, None. split_and!; try done.
  - exists (Enter MDeleteRolesForIRSA :: ti
            ++ [Leave MDeleteRolesForIRSA (Some e)] ++ []).
    split; [rewrite Hti; trace_norm; reflexivity|].
    right. exists [], ti, [], (Some e). split_and!; try done.
    intros e' [= <-]. by split_and!.
Qed.

Lemma shape_Reconcile GetClusterIDFromLabels HasCapiWatchLabel New req :
  managedControlPlaneShape
    (AWSManagedControlPlaneReconciler_Reconcile GetClusterIDFromLabels
       HasCapiWatchLabel New req).
Proof.
  unfold AWSManagedControlPlaneReconciler_Reconcile.
  apply shape_bind; [apply steps_try, steps_quiet_Get|].
  intros [eksCluster|e];
    [|destruct (IsNotFound e); [apply shape_ret|apply shape_fail]].
  apply shape_bind; [apply steps_wrapped, steps_liftResult|].
  intros clusterName. destruct (negb _); [apply shape_ret|].
  destruct (SpecRoleName eksCluster) as [roleName|]; [|apply shape_ret].
  apply shape_bind; [apply steps_wrapped, steps_quiet_Get|].
  intros identity.
  apply shape_bind; [by apply steps_wrapped, steps_quiet_external|].
  intros _.
  apply shape_bind; [by apply steps_wrapped, steps_quiet_external|].
  intros _.
  apply shape_bind; [apply steps_wrapped, steps_liftResult|].
  intros iamService. destruct (isDeleting eksCluster).
  - apply (shape_delete iamService eksCluster).
  - apply shape_steps.
    apply steps_bind; [|intros; apply steps_ret].
    apply (steps_reconcileManagedControlPlane iamService eksCluster identity
             roleName).
Qed.

Lemma count_none p t : Forall (λ ev, ¬ p ev = true) t → count p t = 0.
Proof.
  unfold count. induction 1 as [|x l Hx Hl IH]; [done|].
  by rewrite filter_cons_False.
Qed.

Lemma isQuietCall_not_patch ev : isQuietCall ev → ¬ isPatchCall ev = true.
Proof. destruct ev as [[] ?| | |]; done. Qed.

Lemma isK8sCall_no_leave l m err : Forall isK8sCall l → Leave m err ∉ l.
Proof. intros Hl Hin. rewrite Forall_forall in Hl. by apply Hl in Hin. Qed.

Lemma isQuietCall_no_leave l m err : Forall isQuietCall l → Leave m err ∉ l.
Proof. intros Hl Hin. rewrite Forall_forall in Hl. by apply Hl in Hin. Qed.

(** C3: a finalizer is removed only after the teardown succeeded or the
    guard found the role still used.  In [reconcileDelete] every patch
    request comes after the guard answered that the role is used elsewhere
    or after [DeleteRole] (and [DeleteRolesForIRSA], where it is due)
    returned success; in the deletion branch of the AWSManagedControlPlane
    reconciler every patch that drops the finalizer comes after
    [DeleteRolesForIRSA] returned success.  When a teardown returns an
    error, the reconcile returns that error, sends no patch at all and
    leaves the objects, their finalizers included, as they were. *)
Theorem finalizer_removed_only_after_teardown
    (r : AWSMachineTemplateReconciler) (iamService : iam.IAMService)
    (awsMachineTemplate : Object) (clusterName namespace role : string)
    (GetClusterIDFromLabels : ObjectMeta → result string)
    (HasCapiWatchLabel : gmap string string → bool)
    (New : iam.IAMServiceConfig → result iam.IAMService)
    (req : string * string) (w : World) :
  (∀ pre ev post,
     since w (reconcileDelete r iamService awsMachineTemplate clusterName
                namespace role w).2 = pre ++ ev :: post →
     isPatchCall ev = true →
     RoleUsed true ∈ pre ∨ tornDown r role pre)
  ∧ (∀ m e,
       Leave m (Some e)
       ∈ since w (reconcileDelete r iamService awsMachineTemplate clusterName
                    namespace role w).2 →
       (reconcileDelete r iamService awsMachineTemplate clusterName
          namespace role w).1 = Err e
       ∧ objects (reconcileDelete r iamService awsMachineTemplate clusterName
                    namespace role w).2 = objects w
       ∧ count isPatchCall
           (since w (reconcileDelete r iamService awsMachineTemplate
                       clusterName namespace role w).2) = 0)
  ∧ (∀ pre ev post,
       since w (AWSManagedControlPlaneReconciler_Reconcile
                  GetClusterIDFromLabels HasCapiWatchLabel New req w).2
       = pre ++ ev :: post →
       removesFinalizer irsaFinalizer ev = true →
       Leave MDeleteRolesForIRSA None ∈ pre)
  ∧ (∀ e,
       Leave MDeleteRolesForIRSA (Some e)
       ∈ since w (AWSManagedControlPlaneReconciler_Reconcile
                    GetClusterIDFromLabels HasCapiWatchLabel New req w).2 →
       (AWSManagedControlPlaneReconciler_Reconcile GetClusterIDFromLabels
          HasCapiWatchLabel New req w).1 = Err (Wrap e)
       ∧ objects (AWSManagedControlPlaneReconciler_Reconcile
                    GetClusterIDFromLabels HasCapiWatchLabel New req w).2
         = objects w
       ∧ count isPatchCall
           (since w (AWSManagedControlPlaneReconciler_Reconcile
                       GetClusterIDFromLabels HasCapiWatchLabel New req w).2)
         = 0).
Proof.
  destruct (reconcileDelete_run r iamService awsMachineTemplate clusterName
              namespace role w) as (t & t2 & Ht & Htd & H2 & Herr & _ & _ & _).
  apply since_app in Ht.
  destruct (shape_Reconcile GetClusterIDFromLabels HasCapiWatchLabel New req w)
    as (t' & Ht' & Hshape).
  apply since_app in Ht'. rewrite Ht, Ht'. split_and!.
  - intros pre ev post Heq Hev.
    destruct (prefix_before (λ ev, isPatchCall ev = true) t t2 pre post ev Heq
                (teardownTrace_no_patch _ _ _ _ Htd) Hev) as (pre' & -> & Ht2).
    destruct (reconcileDelete_teardown r iamService awsMachineTemplate role w).1
      as [[]|e] eqn:Hres.
    + destruct (teardownTrace_ok _ _ _ Htd) as [Hu|[Hd Hi]].
      * left. apply elem_of_app. by left.
      * right. split; [apply elem_of_app; by left|].
        intros ??. apply elem_of_app. left. by apply Hi.
    + destruct (Herr e eq_refl) as (-> & _). by destruct pre'.
  - intros m e Hin. apply elem_of_app in Hin as [Hin|Hin].
    + pose proof (teardownTrace_leave_error _ _ _ _ _ _ Htd Hin) as Hres.
      destruct (Herr e Hres) as (-> & Hr & Ho). rewrite app_nil_r.
      split_and!; try done.
      apply count_none. by eapply teardownTrace_no_patch.
    + by apply isK8sCall_no_leave in Hin.
  - intros pre ev post Heq Hev.
    destruct Hshape as [Hk|(t0 & ti & t3 & err & -> & H0 & Hi & H3 & He)].
    + rewrite Heq in Hk. apply Forall_app in Hk as [_ Hk].
      apply Forall_cons in Hk as [[Hk _] _]. congruence.
    + assert (Hre : t0 ++ Enter MDeleteRolesForIRSA :: ti
                      ++ [Leave MDeleteRolesForIRSA err] ++ t3
                    = (t0 ++ Enter MDeleteRolesForIRSA :: ti
                       ++ [Leave MDeleteRolesForIRSA err]) ++ t3)
        by (trace_norm; reflexivity).
      rewrite Hre in Heq. clear Hre.
      apply (prefix_before (λ ev, removesFinalizer irsaFinalizer ev = true))
        in Heq as (pre' & -> & Ht3); [| |done].
      * destruct err as [e|].
        { destruct (He e eq_refl) as (-> & _). by destruct pre'. }
        elem_solve.
      * rewrite !Forall_app. split_and!.
        -- eapply Forall_impl; [done|]. intros x Hx.
           destruct (isQuietCall_keeps x Hx) as [-> _]. done.
        -- constructor; [by cbn|]. apply Forall_app. split.
           ++ eapply Forall_impl; [done|]. intros x Hx.
              rewrite (isIamEvent_not_removal x); [done|].
              by apply isIamCall_isIamEvent.
           ++ constructor; [by cbn|]. constructor.
  - intros e Hin.
    destruct Hshape as [Hk|(t0 & ti & t3 & err & -> & H0 & Hi & H3 & He)].
    + rewrite Forall_forall in Hk. destruct (Hk _ Hin) as [_ Hn].
      by destruct (Hn (Some e)).
    + assert (err = Some e) as ->.
      { elem_split Hin; try congruence.
        - by apply isQuietCall_no_leave in Hin.
        - by apply isIamCall_not_leave in Hin.
        - by apply isK8sCall_no_leave in Hin. }
      destruct (He e eq_refl) as (-> & Hr & Ho). split_and!; try done.
      apply count_none. apply Forall_app. split.
      * eapply Forall_impl; [done|]. apply isQuietCall_not_patch.
      * constructor; [by cbn|]. apply Forall_app. split.
        -- eapply Forall_impl; [done|]. intros x Hx.
           by rewrite (isIamCall_not_patch x Hx).
        -- constructor; [by cbn|]. constructor.
Qed.

(** ** removeFinalizer without failures *)

Lemma removeFinalizerLoop_S remaining i object :
  removeFinalizerLoop (S remaining) i object
  = (patchHelper ← wrapped (NewHelper object);
     r ← try (Patch patchHelper (RemoveFinalizer object controlPlaneFinalizer));
     if bool_decide (is_Some (FilterOut (errOf r) (λ err, negb (IsInvalid err))))
        && bool_decide (i < maxPatchRetries)
     then
       object' ← wrapped (Get (ObjectKeyFromObject
                                 (match r with
                                  | Ok o => o
                                  | Err _ => RemoveFinalizer object
                                               controlPlaneFinalizer
                                  end)));
       removeFinalizerLoop remaining (S i) object'
     else
       match errOf r with
       | Some e => fail (Wrap e)
       | None => removeFinalizerLoop remaining (S i)
                   (match r with
                    | Ok o => o
                    | Err _ => RemoveFinalizer object controlPlaneFinalizer
                    end)
       end).
Proof. reflexivity. Qed.

Lemma removeFinalizerLoop_nothing remaining :
  ∀ i object w,
    (∀ n k, faults w n (PatchNewHelper k) = None) →
    ContainsFinalizer object controlPlaneFinalizer = false →
    ∃ t, removeFinalizerLoop remaining i object w
         = (Ok tt, {| objects := objects w; iam := iam w;
                      trace := trace w ++ t; history := history w;
                      faults := faults w; answers := answers w |})
         ∧ Forall isK8sCall t.
Proof.
  induction remaining as [|remaining IH]; intros i object w Hf Hc.
  - exists []. rewrite app_nil_r. by destruct w.
  - destruct (IH (S i) (RemoveFinalizer object controlPlaneFinalizer)
                (record (Called (PatchNewHelper (ObjectKeyFromObject object)) None) w))
      as (t & Ht & HP);
      [apply Hf|apply ContainsFinalizer_RemoveFinalizer|].
    exists (Called (PatchNewHelper (ObjectKeyFromObject object)) None :: t).
    split; [|constructor; [by cbn|done]].
    cbn [removeFinalizerLoop]. rewrite run_bind. unfold wrapped at 1.
    rewrite run_NewHelper by apply Hf. rewrite run_bind. unfold try at 1.
    rewrite run_Patch_nothing; cycle 1.
    { cbn [beforeObject]. rewrite GetFinalizers_RemoveFinalizer.
      symmetry. apply filter_ne_id. by apply ContainsFinalizer_false. }
    cbn [errOf FilterOut].
    rewrite (bool_decide_eq_false_2 (is_Some None)) by apply is_Some_None.
    cbn [andb]. fold controlPlaneFinalizer. rewrite Ht.
    cbn. by rewrite <- app_assoc.
Qed.

Lemma forallb_filter_subset (f : string) (l : list string) :
  forallb (λ x, bool_decide (x ∈ l)) (filter (λ x, x ≠ f) l) = true.
Proof.
  apply forallb_forall. intros x Hin. apply bool_decide_eq_true.
  apply list_elem_of_In, list_elem_of_filter in Hin. tauto.
Qed.

Lemma removeFinalizer_fresh object w :
  noFaults w →
  objects w !! ObjectKeyFromObject object = Some object →
  ∃ t, removeFinalizer object w
       = (Ok tt, {| objects := released object (objects w); iam := iam w;
                    trace := trace w ++ t; history := history w;
                    faults := faults w; answers := answers w |})
       ∧ Forall isK8sCall t.
Proof.
  intros Hf Ho. rewrite removeFinalizer_eq. unfold released.
  destruct (ContainsFinalizer object controlPlaneFinalizer) eqn:Hc; cbn [negb].
  2:{ exists []. rewrite app_nil_r. by destruct w. }
  set (new := RemoveFinalizer object controlPlaneFinalizer).
  assert (Hnew : ContainsFinalizer new controlPlaneFinalizer = false)
    by apply ContainsFinalizer_RemoveFinalizer.
  set (objs' := if isDeleting object && bool_decide (GetFinalizers new = [])
                then delete (ObjectKeyFromObject object) (objects w)
                else <[ObjectKeyFromObject object := new]> (objects w)).
  destruct (removeFinalizerLoop_nothing 4 2 new
      (record (Called (ClientPatch (ObjectKeyFromObject object)
                         (GetFinalizers new)) None)
         (setObjects objs'
            (record (Called (PatchNewHelper (ObjectKeyFromObject object)) None) w))))
      as (t & Ht & HP); [intros; apply Hf|done|].
  exists ([Called (PatchNewHelper (ObjectKeyFromObject object)) None;
           Called (ClientPatch (ObjectKeyFromObject object)
                     (GetFinalizers new)) None] ++ t).
  split.
  2:{ cbn [app]. repeat (constructor; [by cbn|]).
      exact HP. }
  change maxPatchRetries with 5. rewrite removeFinalizerLoop_S.
  rewrite run_bind. unfold wrapped at 1. rewrite run_NewHelper by apply Hf.
  rewrite run_bind. unfold try at 1. unfold Patch.
  fold new.
  rewrite bool_decide_eq_false_2; cycle 1.
  { cbn [beforeObject]. unfold new. rewrite GetFinalizers_RemoveFinalizer.
    intros Heq. symmetry in Heq. revert Heq. apply filter_ne_changes.
    by apply ContainsFinalizer_true. }
  rewrite run_bind. unfold try at 1, clientPatch.
  rewrite run_invoke_sem by apply Hf.
  cbn [objects record].
  replace (ObjectKeyFromObject new) with (ObjectKeyFromObject object)
    by reflexivity.
  rewrite Ho.
  replace (forallb _ (GetFinalizers new)) with true
    by (symmetry; apply forallb_filter_subset).
  cbn [negb]. rewrite andb_false_r.
  replace (SetFinalizers object (GetFinalizers new)) with new by reflexivity.
  fold objs'.
  assert (Hrun :
    (if isDeleting object && bool_decide (GetFinalizers new = [])
     then (Ok new, setObjects (delete (ObjectKeyFromObject object) (objects w))
                     (record (Called (PatchNewHelper (ObjectKeyFromObject object)) None) w))
     else (Ok new, setObjects (<[ObjectKeyFromObject object := new]> (objects w))
                     (record (Called (PatchNewHelper (ObjectKeyFromObject object)) None) w)))
    = (Ok new, setObjects objs'
                 (record (Called (PatchNewHelper (ObjectKeyFromObject object)) None) w))).
  { unfold objs'. by destruct (_ && _). }
  rewrite Hrun. cbn [fst snd errOf FilterOut mret M_ret].
  rewrite (bool_decide_eq_false_2 (is_Some None)) by apply is_Some_None.
  cbn [andb]. rewrite Ht. cbn. by rewrite <- !app_assoc.
Qed.

Lemma released_lookup_ne o objs k :
  k ≠ ObjectKeyFromObject o → released o objs !! k = objs !! k.
Proof.
  intros Hk. unfold released. destruct (ContainsFinalizer _ _); [|done].
  destruct (_ && _); [by rewrite lookup_delete_ne|by rewrite lookup_insert_ne].
Qed.

Lemma released_lookup_eq o objs o' :
  objs !! ObjectKeyFromObject o = Some o →
  released o objs !! ObjectKeyFromObject o = Some o' →
  (controlPlaneFinalizer ∉ GetFinalizers o') ∧ kindOf o' = kindOf o.
Proof.
  intros Ho. unfold released.
  destruct (ContainsFinalizer o controlPlaneFinalizer) eqn:Hc.
  - destruct (_ && _).
    + by rewrite lookup_delete_eq.
    + rewrite lookup_insert_eq. intros [= <-]. split; [|done].
      apply ContainsFinalizer_false, ContainsFinalizer_RemoveFinalizer.
  - rewrite Ho. intros [= <-]. split; [|done]. by apply ContainsFinalizer_false.
Qed.

Lemma released_lookup_kind o objs k o' :
  objs !! ObjectKeyFromObject o = Some o →
  released o objs !! k = Some o' →
  ∃ o0, objs !! k = Some o0 ∧ kindOf o0 = kindOf o'
        ∧ IAMInstanceProfile o0 = IAMInstanceProfile o'.
Proof.
  intros Ho. destruct (decide (k = ObjectKeyFromObject o)) as [->|Hk].
  - unfold released. destruct (ContainsFinalizer _ _).
    + destruct (_ && _); [by rewrite lookup_delete_eq|].
      rewrite lookup_insert_eq. intros [= <-]. by exists o.
    + intros Ho'. exists o'. by rewrite Ho'.
  - rewrite released_lookup_ne by done. intros Ho'. by exists o'.
Qed.

Lemma released_wellKeyed o objs :
  map_Forall (λ k o, ObjectKeyFromObject o = k) objs →
  map_Forall (λ k o, ObjectKeyFromObject o = k) (released o objs).
Proof.
  intros Hw. unfold released. destruct (ContainsFinalizer _ _); [|done].
  destruct (_ && _).
  - by apply map_Forall_delete.
  - by apply map_Forall_insert_2.
Qed.

Lemma released_gone o objs :
  isDeleting o = true → GetFinalizers o = [controlPlaneFinalizer] →
  released o objs !! ObjectKeyFromObject o = None.
Proof.
  intros Hd Hf. unfold released, ContainsFinalizer.
  rewrite GetFinalizers_RemoveFinalizer, Hf, Hd.
  rewrite bool_decide_eq_true_2 by apply list_elem_of_singleton, eq_refl.
  rewrite filter_cons_False by (intros H; by apply H).
  rewrite filter_nil. cbn. by rewrite lookup_delete_eq.
Qed.

Lemma run_GetAWSClusterByName_ok clusterName w c :
  noFaults w → clustersNamed clusterName w = [c] →
  key.GetAWSClusterByName clusterName w
  = (Ok c, record (Called (ClientList AWSCluster
                             [(key.ClusterNameLabel, clusterName)]) None) w).
Proof.
  intros Hf Hc. unfold key.GetAWSClusterByName, List. rewrite run_bind.
  rewrite run_invoke_sem by apply Hf. cbn [fst snd].
  fold (clustersNamed clusterName w). by rewrite Hc.
Qed.

Lemma clustersNamed_stored clusterName w c :
  wellKeyed w → c ∈ clustersNamed clusterName w →
  objects w !! ObjectKeyFromObject c = Some c ∧ kindOf c = AWSCluster.
Proof.
  intros Hw Hin. unfold clustersNamed in Hin.
  apply list_elem_of_filter in Hin as [[Hk _] Hin].
  apply list_elem_of_fmap in Hin as ([k o] & -> & Hin).
  apply elem_of_map_to_list in Hin. cbn in *. split; [|done].
  by rewrite (Hw k o Hin).
Qed.

(** Without failures, the release phases succeed and leave the store with
    the three finalizers released. *)
Lemma release_ok awsMachineTemplate clusterName namespace w c :
  noFaults w → wellKeyed w →
  objects w !! ObjectKeyFromObject awsMachineTemplate = Some awsMachineTemplate →
  kindOf awsMachineTemplate = AWSMachineTemplate →
  clustersNamed clusterName w = [c] →
  ∃ t,
    (_ ← reconcileDelete_finalizers awsMachineTemplate clusterName;
     reconcileDelete_configMap clusterName namespace) w
    = (Ok emptyResult,
       {| objects := releasedConfigMap clusterName namespace
                       (released awsMachineTemplate (released c (objects w)));
          iam := iam w; trace := trace w ++ t; history := history w;
          faults := faults w; answers := answers w |})
    ∧ Forall isK8sCall t.
Proof.
  intros Hf Hw Ht Hk Hc.
  destruct (clustersNamed_stored clusterName w c Hw) as [Hcs Hck].
  { rewrite Hc. by apply list_elem_of_singleton. }
  set (w1 := record (Called (ClientList AWSCluster
                               [(key.ClusterNameLabel, clusterName)]) None) w).
  destruct (removeFinalizer_fresh c w1) as (t1 & Hr1 & HP1); [apply Hf|done|].
  set (w2 := {| objects := released c (objects w1); iam := iam w1;
                trace := trace w1 ++ t1; history := history w1;
                faults := faults w1; answers := answers w1 |}) in Hr1.
  assert (Hne : ObjectKeyFromObject awsMachineTemplate ≠ ObjectKeyFromObject c).
  { unfold ObjectKeyFromObject. rewrite Hk, Hck. by intros [=]. }
  destruct (removeFinalizer_fresh awsMachineTemplate w2) as (t2 & Hr2 & HP2);
    [apply Hf|by cbn; rewrite released_lookup_ne|].
  set (w3 := {| objects := released awsMachineTemplate (objects w2);
                iam := iam w2; trace := trace w2 ++ t2; history := history w2;
                faults := faults w2; answers := answers w2 |}) in Hr2.
  assert (Hw3 : map_Forall (λ k o, ObjectKeyFromObject o = k) (objects w3)).
  { cbn. by apply released_wellKeyed, released_wellKeyed. }
  set (cmKey := clusterValuesKey clusterName namespace).
  set (w4 := record (Called (ClientGet cmKey) None) w3).
  destruct (objects w3 !! cmKey) as [cm|] eqn:Hcm.
  - destruct (removeFinalizer_fresh cm w4) as (t4 & Hr4 & HP4); [apply Hf| |].
    { cbn [objects record w4]. rewrite (Hw3 cmKey cm Hcm). exact Hcm. }
    exists ([Called (ClientList AWSCluster
                       [(key.ClusterNameLabel, clusterName)]) None]
            ++ t1 ++ t2 ++ [Called (ClientGet cmKey) None] ++ t4).
    split.
    + rewrite run_bind. unfold reconcileDelete_finalizers. rewrite run_bind.
      rewrite (run_GetAWSClusterByName_ok _ _ c) by done. fold w1.
      rewrite run_bind, Hr1. rewrite Hr2.
      unfold reconcileDelete_configMap. rewrite run_bind. unfold try.
      fold cmKey. rewrite (run_Get_found _ cm); [|apply Hf|exact Hcm].
      fold w4. rewrite run_bind, Hr4. cbn [mret M_ret].
      unfold releasedConfigMap. fold cmKey. cbn [objects w3 w2 w1 record] in Hcm.
      rewrite Hcm. cbn. by rewrite <- !app_assoc.
    + apply Forall_app. split; [by repeat constructor|].
      apply Forall_app. split; [done|]. apply Forall_app. split; [done|].
      apply Forall_app. split; [by repeat constructor|done].
  - exists ([Called (ClientList AWSCluster
                       [(key.ClusterNameLabel, clusterName)]) None]
            ++ t1 ++ t2
            ++ [Called (ClientGet cmKey) (Some (StatusError StatusReasonNotFound))]).
    split.
    + rewrite run_bind. unfold reconcileDelete_finalizers. rewrite run_bind.
      rewrite (run_GetAWSClusterByName_ok _ _ c) by done. fold w1.
      rewrite run_bind, Hr1. rewrite Hr2.
      unfold reconcileDelete_configMap. rewrite run_bind. unfold try, Get.
      fold cmKey. rewrite run_invoke_sem by apply Hf. fold w3. rewrite Hcm.
      cbn [fst snd errOf]. unfold releasedConfigMap. fold cmKey.
      cbn [objects w3 w2 w1 record] in Hcm. rewrite Hcm.
      unfold IgnoreNotFound.
      change (IsNotFound (StatusError StatusReasonNotFound)) with true.
      unfold w3, w2, w1, mret, M_ret, record. cbn.
      rewrite <- ?app_assoc. reflexivity.
    + apply Forall_app. split; [by repeat constructor|].
      apply Forall_app. split; [done|]. apply Forall_app. split; [done|].
      by repeat constructor.
Qed.

(** ** The shared-resource guard in reconcileDelete *)

Lemma count_isEnterDeleteRole_iam t :
  Forall isIamCall t → count isEnterDeleteRole t = 0.
Proof.
  intros Ht. apply count_none. eapply Forall_impl; [done|].
  by intros [| | |].
Qed.

Lemma count_isEnterDeleteRole_k8s t :
  Forall isK8sCall t → count isEnterDeleteRole t = 0.
Proof.
  intros Ht. apply count_none. eapply Forall_impl; [done|].
  by intros [| | |].
Qed.

Lemma count_cons p ev t :
  count p (ev :: t) = (if p ev then 1 else 0) + count p t.
Proof.
  unfold count. destruct (p ev) eqn:Hp.
  - by rewrite filter_cons_True.
  - rewrite filter_cons_False; [done|]. by rewrite Hp.
Qed.

Lemma teardownTrace_count r role res t :
  teardownTrace r role res t →
  (RoleUsed false ∈ t → count isEnterDeleteRole t = 1)
  ∧ (RoleUsed false ∉ t → count isEnterDeleteRole t = 0).
Proof.
  destruct 1.
  - split; [intros Hin; elem_split Hin|done].
  - split; [intros Hin; elem_split Hin|done].
  - split; [intros _|intros Hn; exfalso; apply Hn; elem_solve].
    rewrite !count_app, (count_isEnterDeleteRole_iam td) by done. done.
  - split; [intros _|intros Hn; exfalso; apply Hn; elem_solve].
    rewrite !count_app, (count_isEnterDeleteRole_iam td) by done. done.
  - split; [intros _|intros Hn; exfalso; apply Hn; elem_solve].
    rewrite !count_app, (count_isEnterDeleteRole_iam td),
      (count_isEnterDeleteRole_iam ti) by done.
    done.
Qed.

Lemma teardownTrace_guard r role res t :
  teardownTrace r role res t → (∀ b, RoleUsed b ∈ t → b = false) →
  res = Ok tt →
  RoleUsed false ∈ t ∧ Enter MDeleteRole ∈ t ∧ Leave MDeleteRole None ∈ t.
Proof.
  destruct 1; intros Hb Hres; try done.
  - exfalso. specialize (Hb true). assert (true = false); [|done].
    apply Hb. elem_solve.
  - split_and!; elem_solve.
  - split_and!; elem_solve.
Qed.

Lemma steps_isRoleUsedElsewhere self roleName :
  steps (λ _, True) true true (isRoleUsedElsewhere self roleName).
Proof.
  unfold isRoleUsedElsewhere.
  apply steps_bind.
  - apply steps_wrapped, steps_invoke; [done|]. intros w.
    split; [apply frame_refl|done].
  - intros items. apply steps_bind; [by apply steps_emit|].
    intros _. apply steps_ret.
Qed.

Lemma steps_reconcileDelete r s awsMachineTemplate clusterName namespace role :
  steps (λ _, True) false false
    (reconcileDelete r s awsMachineTemplate clusterName namespace role).
Proof.
  unfold reconcileDelete.
  apply steps_bind.
  { eapply steps_weaken; [| | |apply steps_isRoleUsedElsewhere]; done. }
  intros roleUsed. apply steps_bind.
  { apply steps_if; [|apply steps_ret]. apply steps_bind.
    - eapply steps_weaken; [| | |apply steps_iam_DeleteRole]; done.
    - intros _. repeat apply steps_if; try apply steps_ret.
      eapply steps_weaken; [| | |apply steps_iam_DeleteRolesForIRSA]; done. }
  intros _.
  apply (steps_weaken isK8sCall _ false true); [done|done|done|].
  steps_go.
Qed.

Lemma referenced_usedElsewhere self w :
  (∃ k other, referencedBy self w k other)
  ↔ usedElsewhere self (IAMInstanceProfile self) w = true.
Proof.
  rewrite usedElsewhere_true. unfold referencedBy. naive_solver.
Qed.

(** The role is still referenced: no IAM call at all. *)
Lemma reconcileDelete_role_retained r s awsMachineTemplate clusterName
    namespace role w :
  (∃ k other, referencedBy awsMachineTemplate w k other) →
  count isEnterDeleteRole
    (since w (reconcileDelete r s awsMachineTemplate clusterName namespace
                role w).2) = 0
  ∧ Forall (λ ev, ¬ isIamEvent ev)
      (since w (reconcileDelete r s awsMachineTemplate clusterName namespace
                  role w).2)
  ∧ iam (reconcileDelete r s awsMachineTemplate clusterName namespace
           role w).2 = iam w
  ∧ history (reconcileDelete r s awsMachineTemplate clusterName namespace
               role w).2 = history w.
Proof.
  intros Href. apply referenced_usedElsewhere in Href.
  destruct (reconcileDelete_run r s awsMachineTemplate clusterName namespace
              role w) as (t & t2 & Ht & Htd & H2 & _ & Hi & Hb & _).
  apply since_app in Ht. rewrite Ht.
  assert (Hn : RoleUsed false ∉ t).
  { intros Hin. apply Hb in Hin. congruence. }
  destruct (Hi Hn) as [-> ->]. split_and!; try done.
  - rewrite count_app, (count_isEnterDeleteRole_k8s t2) by done.
    by rewrite (proj2 (teardownTrace_count _ _ _ _ Htd) Hn).
  - apply Forall_app. split.
    + by eapply teardownTrace_skipped.
    + eapply Forall_impl; [done|]. by intros [[] ?| | |].
Qed.

(** The role is still referenced and nothing fails: the finalizers are
    released and the reconcile succeeds. *)
Lemma reconcileDelete_role_retained_ok r s awsMachineTemplate clusterName
    namespace role w c :
  (∃ k other, referencedBy awsMachineTemplate w k other) →
  noFaults w → wellKeyed w →
  objects w !! ObjectKeyFromObject awsMachineTemplate = Some awsMachineTemplate →
  kindOf awsMachineTemplate = AWSMachineTemplate →
  clustersNamed clusterName w = [c] →
  (reconcileDelete r s awsMachineTemplate clusterName namespace role w).1
  = Ok emptyResult
  ∧ objects (reconcileDelete r s awsMachineTemplate clusterName namespace
               role w).2
    = releasedConfigMap clusterName namespace
        (released awsMachineTemplate (released c (objects w)))
  ∧ faults (reconcileDelete r s awsMachineTemplate clusterName namespace
              role w).2 = faults w.
Proof.
  intros Href Hf Hw Ht Hk Hc. apply referenced_usedElsewhere in Href.
  rewrite reconcileDelete_phases, run_bind.
  unfold reconcileDelete_teardown at 1 2 3.
  rewrite run_bind, run_isRoleUsedElsewhere, Hf, Href. cbn [negb mret M_ret].
  set (w1 := record (RoleUsed true) _).
  destruct (release_ok awsMachineTemplate clusterName namespace w1 c)
    as (t & Hr & _); try done.
  by rewrite Hr.
Qed.

(** The role is referenced by no other object: no patch before
    [DeleteRole] was called and returned success, and [DeleteRole] is called
    once when the guard can list the objects. *)
Lemma reconcileDelete_role_deleted_first r s awsMachineTemplate clusterName
    namespace role w :
  ¬ (∃ k other, referencedBy awsMachineTemplate w k other) →
  (∀ pre ev post,
     since w (reconcileDelete r s awsMachineTemplate clusterName namespace
                role w).2 = pre ++ ev :: post →
     isPatchCall ev = true →
     Enter MDeleteRole ∈ pre ∧ Leave MDeleteRole None ∈ pre)
  ∧ (faults w (length (trace w)) (ClientList AWSMachineTemplate []) = None →
     count isEnterDeleteRole
       (since w (reconcileDelete r s awsMachineTemplate clusterName namespace
                   role w).2) = 1).
Proof.
  intros Href. rewrite referenced_usedElsewhere in Href.
  apply not_true_is_false in Href.
  destruct (reconcileDelete_run r s awsMachineTemplate clusterName namespace
              role w) as (t & t2 & Ht & Htd & H2 & Herr & _ & Hb & Hl).
  apply since_app in Ht. rewrite Ht. rewrite Href in Hb, Hl. split.
  - intros pre ev post Heq Hev.
    destruct (prefix_before (λ ev, isPatchCall ev = true) t t2 pre post ev Heq
                (teardownTrace_no_patch _ _ _ _ Htd) Hev) as (pre' & -> & Ht2).
    destruct (reconcileDelete_teardown r s awsMachineTemplate role w).1
      as [[]|e] eqn:Hres.
    + destruct (teardownTrace_guard _ _ _ _ Htd Hb eq_refl) as (_ & He & Hv).
      split; apply elem_of_app; by left.
    + destruct (Herr e eq_refl) as (-> & _). by destruct pre'.
  - intros Hf. rewrite count_app, (count_isEnterDeleteRole_k8s t2) by done.
    by rewrite (proj1 (teardownTrace_count _ _ _ _ Htd) (Hl Hf)).
Qed.

Lemma releasedConfigMap_lookup_kind clusterName namespace objs k o' :
  map_Forall (λ k o, ObjectKeyFromObject o = k) objs →
  releasedConfigMap clusterName namespace objs !! k = Some o' →
  ∃ o0, objs !! k = Some o0 ∧ kindOf o0 = kindOf o'
        ∧ IAMInstanceProfile o0 = IAMInstanceProfile o'.
Proof.
  intros Hw. unfold releasedConfigMap.
  destruct (objs !! clusterValuesKey clusterName namespace) as [cm|] eqn:Hcm.
  - apply released_lookup_kind. by rewrite (Hw _ _ Hcm).
  - intros Ho. by exists o'.
Qed.

Lemma releasedConfigMap_lookup_template clusterName namespace objs o :
  map_Forall (λ k o, ObjectKeyFromObject o = k) objs →
  kindOf o = AWSMachineTemplate →
  releasedConfigMap clusterName namespace objs !! ObjectKeyFromObject o
  = objs !! ObjectKeyFromObject o.
Proof.
  intros Hw Hk. unfold releasedConfigMap.
  destruct (objs !! clusterValuesKey clusterName namespace) as [cm|] eqn:Hcm;
    [|done].
  apply released_lookup_ne. rewrite (Hw _ _ Hcm).
  unfold ObjectKeyFromObject, clusterValuesKey. rewrite Hk. by intros [=].
Qed.

(** Two templates share a role.  Deleting the first keeps the role; after
    the second is deleted as well, [DeleteRole] has been called once. *)
Lemma reconcileDelete_both r s A B clusterName namespace role w c :
  noFaults w → wellKeyed w →
  objects w !! ObjectKeyFromObject A = Some A →
  objects w !! ObjectKeyFromObject B = Some B →
  kindOf A = AWSMachineTemplate → kindOf B = AWSMachineTemplate →
  ObjectKeyFromObject A ≠ ObjectKeyFromObject B →
  IAMInstanceProfile B = IAMInstanceProfile A →
  (∀ k o, objects w !! k = Some o → kindOf o = AWSMachineTemplate →
          IAMInstanceProfile o = IAMInstanceProfile A →
          k = ObjectKeyFromObject A ∨ k = ObjectKeyFromObject B) →
  isDeleting A = true → GetFinalizers A = [controlPlaneFinalizer] →
  clustersNamed clusterName w = [c] →
  count isEnterDeleteRole
    (since w (reconcileDelete r s A clusterName namespace role w).2) = 0
  ∧ iam (reconcileDelete r s A clusterName namespace role w).2 = iam w
  ∧ objects (reconcileDelete r s A clusterName namespace role w).2
      !! ObjectKeyFromObject A = None
  ∧ count isEnterDeleteRole
      (since w
         (reconcileDelete r s (markDeleted B) clusterName namespace role
            (requestDeletion B
               (reconcileDelete r s A clusterName namespace role w).2)).2)
    = 1.
Proof.
  intros Hf Hw HA HB HkA HkB Hne Hp Honly Hdel Hfin Hc.
  assert (Href : ∃ k other, referencedBy A w k other).
  { exists (ObjectKeyFromObject B), B. unfold referencedBy.
    split_and!; try done; congruence. }
  destruct (reconcileDelete_role_retained r s A clusterName namespace role w Href)
    as (Hcount & _ & Hiam & _).
  destruct (reconcileDelete_role_retained_ok r s A clusterName namespace role w c
              Href Hf Hw HA HkA Hc) as (_ & Hobjs & Hfaults).
  destruct (steps_reconcileDelete r s A clusterName namespace role w)
    as [_ (t1 & Ht1 & _)].
  set (w1 := (reconcileDelete r s A clusterName namespace role w).2) in *.
  destruct (clustersNamed_stored clusterName w c Hw) as [Hcs Hck].
  { rewrite Hc. by apply list_elem_of_singleton. }
  assert (HcA : ObjectKeyFromObject A ≠ ObjectKeyFromObject c).
  { unfold ObjectKeyFromObject. rewrite HkA, Hck. by intros [=]. }
  assert (HA1 : released c (objects w) !! ObjectKeyFromObject A = Some A)
    by by rewrite released_lookup_ne.
  assert (Hw1 : map_Forall (λ k o, ObjectKeyFromObject o = k)
                  (released A (released c (objects w))))
    by by apply released_wellKeyed, released_wellKeyed.
  assert (Hgone : objects w1 !! ObjectKeyFromObject A = None).
  { rewrite Hobjs, releasedConfigMap_lookup_template by done.
    by apply released_gone. }
  split_and!; try done.
  set (w2 := requestDeletion B w1).
  assert (Hused : usedElsewhere (markDeleted B)
                    (IAMInstanceProfile (markDeleted B)) w2 = false).
  { apply not_true_is_false. rewrite <- referenced_usedElsewhere.
    intros (k & o & Ho & Hko & Hkey & Hprof). cbn [objects w2 requestDeletion setObjects] in Ho.
    change (ObjectKeyFromObject (markDeleted B)) with (ObjectKeyFromObject B) in Hkey.
    change (IAMInstanceProfile (markDeleted B)) with (IAMInstanceProfile B) in Hprof.
    destruct (decide (k = ObjectKeyFromObject B)) as [->|HkB'].
    - rewrite lookup_insert_eq in Ho. injection Ho as <-. done.
    - rewrite lookup_insert_ne in Ho by done.
      assert (k ≠ ObjectKeyFromObject A) by (intros ->; congruence).
      rewrite Hobjs in Ho.
      apply releasedConfigMap_lookup_kind in Ho as (o1 & Ho1 & Hk1 & Hp1);
        [|done].
      apply released_lookup_kind in Ho1 as (o2 & Ho2 & Hk2 & Hp2); [|done].
      apply released_lookup_kind in Ho2 as (o3 & Ho3 & Hk3 & Hp3); [|done].
      destruct (Honly k o3 Ho3); [congruence|congruence|done|done]. }
  destruct (reconcileDelete_run r s (markDeleted B) clusterName namespace role w2)
    as (t & t2 & Ht & Htd & H2 & _ & _ & _ & Hl).
  rewrite Hused in Hl.
  assert (Hin : RoleUsed false ∈ t).
  { apply Hl. cbn [faults w2 requestDeletion setObjects]. fold w1.
    rewrite Hfaults. apply Hf. }
  change (trace w2) with (trace w1) in Ht. rewrite Ht1, <- app_assoc in Ht.
  apply since_app in Ht. rewrite Ht.
  apply since_app in Ht1. rewrite Ht1 in Hcount.
  rewrite !count_app, Hcount, (count_isEnterDeleteRole_k8s t2) by done.
  by rewrite (proj1 (teardownTrace_count _ _ _ _ Htd) Hin).
Qed.

(** An object that carries another finalizer stays in the store when
    [removeFinalizer] released it. *)
Lemma released_held o objs f :
  objs !! ObjectKeyFromObject o = Some o →
  f ∈ GetFinalizers o → f ≠ controlPlaneFinalizer →
  ∃ o', released o objs !! ObjectKeyFromObject o = Some o'
        ∧ kindOf o' = kindOf o
        ∧ IAMInstanceProfile o' = IAMInstanceProfile o.
Proof.
  intros Ho Hin Hne. unfold released.
  destruct (ContainsFinalizer o controlPlaneFinalizer); [|by exists o].
  rewrite GetFinalizers_RemoveFinalizer.
  rewrite (bool_decide_eq_false_2 (filter _ _ = [])).
  - rewrite andb_false_r, lookup_insert_eq. by eexists.
  - intros Hnil.
    assert (Hf : f ∈ filter (λ x, x ≠ controlPlaneFinalizer) (GetFinalizers o))
      by by apply list_elem_of_filter.
    rewrite Hnil in Hf. by apply not_elem_of_nil in Hf.
Qed.

(** Two templates share a role and the first is held by another
    finalizer: it stays in the store after its deletion reconcile, so the
    deletion reconcile of the second finds the role referenced and keeps it
    as well. *)
Lemma reconcileDelete_both_held r s A B clusterName namespace role w c f :
  noFaults w → wellKeyed w →
  objects w !! ObjectKeyFromObject A = Some A →
  objects w !! ObjectKeyFromObject B = Some B →
  kindOf A = AWSMachineTemplate → kindOf B = AWSMachineTemplate →
  ObjectKeyFromObject A ≠ ObjectKeyFromObject B →
  IAMInstanceProfile B = IAMInstanceProfile A →
  clustersNamed clusterName w = [c] →
  f ∈ GetFinalizers A → f ≠ controlPlaneFinalizer →
  is_Some (objects (reconcileDelete r s A clusterName namespace role w).2
             !! ObjectKeyFromObject A)
  ∧ count isEnterDeleteRole
      (since w
         (reconcileDelete r s (markDeleted B) clusterName namespace role
            (requestDeletion B
               (reconcileDelete r s A clusterName namespace role w).2)).2)
    = 0
  ∧ iam (reconcileDelete r s (markDeleted B) clusterName namespace role
           (requestDeletion B
              (reconcileDelete r s A clusterName namespace role w).2)).2
    = iam w.
Proof.
  intros Hf Hw HA HB HkA HkB Hne Hp Hc Hin Hnf.
  assert (Href : ∃ k other, referencedBy A w k other).
  { exists (ObjectKeyFromObject B), B. unfold referencedBy.
    split_and!; try done; congruence. }
  destruct (reconcileDelete_role_retained r s A clusterName namespace role w Href)
    as (Hcount & _ & Hiam & _).
  destruct (reconcileDelete_role_retained_ok r s A clusterName namespace role w c
              Href Hf Hw HA HkA Hc) as (_ & Hobjs & _).
  destruct (steps_reconcileDelete r s A clusterName namespace role w)
    as [_ (t1 & Ht1 & _)].
  set (w1 := (reconcileDelete r s A clusterName namespace role w).2) in *.
  destruct (clustersNamed_stored clusterName w c Hw) as [Hcs Hck].
  { rewrite Hc. by apply list_elem_of_singleton. }
  assert (HcA : ObjectKeyFromObject A ≠ ObjectKeyFromObject c).
  { unfold ObjectKeyFromObject. rewrite HkA, Hck. by intros [=]. }
  assert (HA1 : released c (objects w) !! ObjectKeyFromObject A = Some A)
    by by rewrite released_lookup_ne.
  assert (Hw1 : map_Forall (λ k o, ObjectKeyFromObject o = k)
                  (released A (released c (objects w))))
    by by apply released_wellKeyed, released_wellKeyed.
  destruct (released_held A (released c (objects w)) f HA1 Hin Hnf)
    as (A' & HA' & HkA' & HpA').
  assert (Hkept : objects w1 !! ObjectKeyFromObject A = Some A').
  { by rewrite Hobjs, releasedConfigMap_lookup_template. }
  split; [by rewrite Hkept|].
  set (w2 := requestDeletion B w1).
  assert (Href2 : ∃ k other, referencedBy (markDeleted B) w2 k other).
  { exists (ObjectKeyFromObject A), A'. unfold referencedBy.
    change (ObjectKeyFromObject (markDeleted B)) with (ObjectKeyFromObject B).
    change (IAMInstanceProfile (markDeleted B)) with (IAMInstanceProfile B).
    pose proof (Hw1 _ _ HA') as HkeyA'.
    split_and!; [|congruence|congruence|congruence].
    cbn [objects w2 requestDeletion setObjects].
    by rewrite lookup_insert_ne. }
  destruct (reconcileDelete_role_retained r s (markDeleted B) clusterName
              namespace role w2 Href2) as (Hcount2 & _ & Hiam2 & _).
  destruct (steps_reconcileDelete r s (markDeleted B) clusterName namespace
              role w2) as [_ (t2 & Ht2 & _)].
  split.
  - pose proof Ht2 as Ht2'.
    change (trace w2) with (trace w1) in Ht2'. rewrite Ht1, <- app_assoc in Ht2'.
    apply since_app in Ht2'. rewrite Ht2'.
    apply since_app in Ht1. rewrite Ht1 in Hcount.
    apply since_app in Ht2. rewrite Ht2 in Hcount2.
    by rewrite count_app, Hcount, Hcount2.
  - rewrite Hiam2. exact Hiam.
Qed.





(** ** Tag Policy *)

Lemma ownedTagKey_ne_clusterTagKey clusterName :
  iam.ownedTagKey ≠ iam.clusterTagKey clusterName.
Proof. by cbn. Qed.

(** C9: the tags applied for a service are, as a set of key-value pairs,
    the union of the ownership marker ("capi-iam-controller/owned" with the
    empty value), the cluster-ownership marker (the key of the cluster name
    with value "owned") and the custom tags, the reserved markers winning
    over a custom tag on the same key; no key occurs twice; and for the
    cluster of the test without custom tags they are the [expectedIAMTags]
    of the test. *)
Theorem tags_union_reserved_win (s : iam.IAMService) :
  (list_to_map (iam.tags s) : gmap string string)
  = reservedTags s ∪ iam.CustomTags s
  ∧ NoDup (iam.tags s).*1
  ∧ (list_to_map (iam.tags s) : gmap string string) !! iam.ownedTagKey
    = Some ""
  ∧ (list_to_map (iam.tags s) : gmap string string)
      !! iam.clusterTagKey (iam.ClusterName s) = Some "owned"
  ∧ (∀ k, k ≠ iam.ownedTagKey → k ≠ iam.clusterTagKey (iam.ClusterName s) →
          (list_to_map (iam.tags s) : gmap string string) !! k
          = iam.CustomTags s !! k)
  ∧ (iam.ClusterName s = "test-cluster" → iam.CustomTags s = ∅ →
     iam.tags s = expectedIAMTags).
Proof.
  pose proof (ownedTagKey_ne_clusterTagKey (iam.ClusterName s)) as Hne.
  set (custom := filter (λ kv : string * string,
                   kv.1 ≠ iam.ownedTagKey
                   ∧ kv.1 ≠ iam.clusterTagKey (iam.ClusterName s))
                   (iam.CustomTags s)).
  assert (Hmap : (list_to_map (iam.tags s) : gmap string string)
                 = <[iam.ownedTagKey := ""]>
                     (<[iam.clusterTagKey (iam.ClusterName s) := "owned"]> custom)).
  { unfold iam.tags. cbn [list_to_map foldr]. fold custom.
    by rewrite list_to_map_to_list. }
  assert (Hlook : ∀ k, k ≠ iam.ownedTagKey →
                       k ≠ iam.clusterTagKey (iam.ClusterName s) →
                       custom !! k = iam.CustomTags s !! k).
  { intros k H1 H2. unfold custom.
    destruct (iam.CustomTags s !! k) as [v|] eqn:Hk.
    - by apply map_lookup_filter_Some.
    - apply map_lookup_filter_None. by left. }
  split_and!.
  - rewrite Hmap. apply map_eq. intros k. unfold reservedTags.
    destruct (decide (k = iam.ownedTagKey)) as [->|H1].
    { rewrite lookup_insert_eq. symmetry.
      apply lookup_union_Some_l, lookup_union_Some_l, lookup_singleton_eq. }
    rewrite lookup_insert_ne by done.
    destruct (decide (k = iam.clusterTagKey (iam.ClusterName s))) as [->|H2].
    { rewrite lookup_insert_eq. symmetry.
      apply lookup_union_Some_l. rewrite lookup_union_r.
      - apply lookup_singleton_eq.
      - by apply lookup_singleton_ne. }
    rewrite lookup_insert_ne by done. rewrite Hlook by done.
    rewrite lookup_union_r; [done|].
    rewrite lookup_union_r; by apply lookup_singleton_ne.
  - unfold iam.tags. cbn [fmap list_fmap fst]. fold custom.
    assert (Hin : ∀ k, k ∈ (map_to_list custom).*1 →
                       k ≠ iam.ownedTagKey
                       ∧ k ≠ iam.clusterTagKey (iam.ClusterName s)).
    { intros k Hk. apply list_elem_of_fmap in Hk as ([k' v] & -> & Hk).
      apply elem_of_map_to_list, map_lookup_filter_Some in Hk. tauto. }
    constructor.
    { rewrite elem_of_cons. intros [?|Hk]; [done|]. apply Hin in Hk. tauto. }
    constructor.
    { intros Hk. apply Hin in Hk. tauto. }
    apply NoDup_fst_map_to_list.
  - rewrite Hmap. apply lookup_insert_eq.
  - rewrite Hmap, lookup_insert_ne by done. apply lookup_insert_eq.
  - intros k H1 H2. rewrite Hmap, !lookup_insert_ne by done. by apply Hlook.
  - intros Hc He. unfold iam.tags. rewrite Hc, He.
    rewrite map_filter_empty, map_to_list_empty. reflexivity.
Qed.

(** ** The rotation of the issuer domain *)

Lemma chain_app R s hs hs' :
  chain R s (hs ++ hs') ↔ chain R s hs ∧ chain R (default s (last hs)) hs'.
Proof.
  revert s. induction hs as [|h hs IH]; intros s; cbn [chain app].
  - cbn. tauto.
  - rewrite IH, last_cons. destruct (last hs); cbn; tauto.
Qed.

Lemma chain_impl (R R' : IAMState → IAMState → Prop) s hs :
  (∀ a b, R a b → R' a b) → chain R s hs → chain R' s hs.
Proof.
  intros HR. revert s. induction hs as [|h hs IH]; intros s; cbn; [done|].
  intros [H1 H2]. split; [by apply HR|by apply IH].
Qed.

Lemma chain_Forall (I : IAMState → Prop) (R : IAMState → IAMState → Prop) s hs :
  (∀ a b, R a b → I a → I b) → I s → chain R s hs → Forall I hs.
Proof.
  intros HR. revert s. induction hs as [|h hs IH]; intros s Hs; cbn; [done|].
  intros [H1 H2]. constructor; [by eapply HR|]. eapply IH; [|done]. by eapply HR.
Qed.

Lemma confirmedFirst_quiet n o ρ t :
  Forall (λ ev, ¬ removesIssuer o ρ ev) t → confirmedFirst n o ρ t.
Proof.
  intros Hq pre ev post -> Hrem. exfalso.
  apply Forall_app in Hq as [_ Hq]. apply Forall_cons in Hq as [Hq _]. done.
Qed.

Lemma confirmedFirst_app n o ρ t1 t2 :
  confirmedFirst n o ρ t1 → confirmedFirst n o ρ t2 →
  confirmedFirst n o ρ (t1 ++ t2).
Proof.
  intros H1 H2 pre ev post Heq Hrem.
  apply app_eq_app in Heq as [l [[-> Heq]|[-> ->]]].
  - destruct l as [|e l]; cbn in Heq.
    + subst t2. destruct (H2 [] ev post eq_refl Hrem) as [_ Hl]. done.
    + injection Heq as <- ->. apply (H1 pre ev l eq_refl Hrem).
  - destruct (H2 l ev post eq_refl Hrem) as [He Hl]. split; [done|].
    by rewrite last_app, Hl.
Qed.

Section Rotation.

Context (J : (Op → string) → Prop) (n o ρ : string).

Lemma rotationStep_refl s : rotationStep n o ρ s s.
Proof.
  unfold rotationStep, establishedBefore. split; [done|].
  destruct (Roles s !! ρ); [|done]. intros H1 H2. by destruct H2.
Qed.

Lemma rotationStep_same s s' :
  Roles s' !! ρ = Roles s !! ρ → rotationStep n o ρ s s'.
Proof.
  intros H. unfold rotationStep, trusts, establishedBefore. rewrite H.
  split; [done|]. destruct (Roles s !! ρ); [|done]. intros H1 H2. by destruct H2.
Qed.

(** Writing role [x]: the step is fine when [x] is another role, and for
    the role itself when the new document keeps a trusted issuer and drops
    the previous one only where the current one was and stays trusted. *)
Lemma rotationStep_setRoles s x r' :
  (x = ρ →
   (trusts n o ρ s →
    n ∈ AssumeRolePolicyDocument r' ∨ o ∈ AssumeRolePolicyDocument r')
   ∧ ∀ r, Roles s !! ρ = Some r →
          o ∈ AssumeRolePolicyDocument r → o ∉ AssumeRolePolicyDocument r' →
          n ∈ AssumeRolePolicyDocument r ∧ n ∈ AssumeRolePolicyDocument r') →
  rotationStep n o ρ s (iamiface.setRoles (<[x := r']> (Roles s)) s).
Proof.
  intros H. destruct (decide (x = ρ)) as [->|Hne].
  - destruct (H eq_refl) as [H1 H2].
    unfold rotationStep, trusts, establishedBefore. cbn.
    rewrite lookup_insert_eq. split; [done|].
    destruct (Roles s !! ρ) as [r|]; [|done]. by apply H2.
  - apply rotationStep_same. cbn. by rewrite lookup_insert_ne.
Qed.

Lemma rotationStep_keep s x r r' :
  Roles s !! x = Some r →
  AssumeRolePolicyDocument r' = AssumeRolePolicyDocument r →
  rotationStep n o ρ s (iamiface.setRoles (<[x := r']> (Roles s)) s).
Proof.
  intros Hx Hd. apply rotationStep_setRoles. intros ->. unfold trusts.
  rewrite Hx, Hd. split; [done|]. intros ? [= <-] H1 H2. by destruct H2.
Qed.

Lemma rotationSafe_ret {A} (a : A) : rotationSafe J n o ρ (mret a).
Proof.
  intros w _. split; [done|]. exists [], []. rewrite !app_nil_r.
  split_and!; try done. by apply confirmedFirst_quiet.
Qed.

Lemma rotationSafe_fail {A} e : rotationSafe J n o ρ (@fail A e).
Proof.
  intros w _. split; [done|]. exists [], []. rewrite !app_nil_r.
  split_and!; try done. by apply confirmedFirst_quiet.
Qed.

Lemma rotationSafe_bind {A B} (m : M A) (f : A → M B) :
  rotationSafe J n o ρ m → (∀ a, rotationSafe J n o ρ (f a)) →
  rotationSafe J n o ρ (m ≫= f).
Proof.
  intros Hm Hf w HJ. rewrite run_bind.
  destruct (Hm w HJ) as (Ha & hs & t & Hh & Ht & Hc & Hi & Hcf).
  destruct (m w) as [[a|e] w1]; cbn [fst snd] in *.
  - rewrite <- Ha in HJ.
    destruct (Hf a w1 HJ) as (Ha' & hs' & t' & Hh' & Ht' & Hc' & Hi' & Hcf').
    split; [congruence|]. exists (hs ++ hs'), (t ++ t').
    rewrite Hh', Hh, Ht', Ht, !app_assoc. split_and!; try done.
    + apply chain_app. split; [done|]. by rewrite <- Hi.
    + rewrite Hi', last_app. destruct (last hs'); [done|]. by rewrite Hi.
    + by apply confirmedFirst_app.
  - split; [done|]. by exists hs, t.
Qed.

Lemma rotationSafe_try {A} (m : M A) :
  rotationSafe J n o ρ m → rotationSafe J n o ρ (try m).
Proof. intros Hm w HJ. unfold try. specialize (Hm w HJ). by destruct (m w). Qed.

Lemma rotationSafe_wrapped {A} (m : M A) :
  rotationSafe J n o ρ m → rotationSafe J n o ρ (wrapped m).
Proof.
  intros Hm w HJ. unfold wrapped. specialize (Hm w HJ). by destruct (m w) as [[]].
Qed.

Lemma rotationSafe_if {A} (b : bool) (m1 m2 : M A) :
  rotationSafe J n o ρ m1 → rotationSafe J n o ρ m2 →
  rotationSafe J n o ρ (if b then m1 else m2).
Proof. by destruct b. Qed.

(** What leaves IAM alone and sends no removal is safe. *)
Lemma rotationSafe_steps {A} P ko (m : M A) :
  (∀ ev, P ev → ¬ removesIssuer o ρ ev) →
  steps P ko true m → rotationSafe J n o ρ m.
Proof.
  intros HP Hm w _. destruct (Hm w) as [(_ & Ha & _ & Hk) (t & Ht & HPt)].
  destruct (Hk eq_refl) as [Hi Hh]. split; [done|]. exists [], t.
  rewrite app_nil_r. split_and!; try done.
  apply confirmedFirst_quiet. eapply Forall_impl; [exact HPt|exact HP].
Qed.

Lemma rotationSafe_invokeIam {A} op (sem : IAMState → result A * IAMState) :
  (∀ s, rotationStep n o ρ s (sem s).2) →
  (∀ err, ¬ removesIssuer o ρ (Called op err)) →
  rotationSafe J n o ρ (invokeIam op sem).
Proof.
  intros Hsem Hop w _. unfold invokeIam, invoke.
  destruct (faults w _ op) as [e|].
  - split; [done|]. exists [iam w], [Called op (Some e)]. cbn.
    split_and!; try done.
    + apply rotationStep_refl.
    + apply confirmedFirst_quiet, Forall_singleton. exact (Hop None).
  - specialize (Hsem (iam w)). destruct (sem (iam w)) as [r s]. cbn in *.
    split; [done|]. exists [s], [Called op (errOf r)]. cbn.
    split_and!; try done; try exact Hsem.
    apply confirmedFirst_quiet, Forall_singleton. exact (Hop None).
Qed.

Lemma rotationSafe_forEach {A} (f : A → M unit) (l : list A) :
  (∀ a, rotationSafe J n o ρ (f a)) → rotationSafe J n o ρ (iam.forEach f l).
Proof.
  intros Hf. induction l as [|a l IH]; cbn [iam.forEach].
  - apply rotationSafe_ret.
  - apply rotationSafe_bind; [apply Hf|]. intros _. apply IH.
Qed.

Lemma rotationSafe_emit ev :
  ¬ removesIssuer o ρ ev → rotationSafe J n o ρ (emit ev).
Proof.
  intros Hev. apply (rotationSafe_steps (λ ev, ¬ removesIssuer o ρ ev) true);
    [done|]. by apply steps_emit.
Qed.

Lemma rotationSafe_method {A} m (body : M A) :
  rotationSafe J n o ρ body → rotationSafe J n o ρ (iam.method m body).
Proof.
  intros Hb. unfold iam.method.
  apply rotationSafe_bind; [apply rotationSafe_emit; intros H; exact H|].
  intros _. apply rotationSafe_bind; [by apply rotationSafe_try|]. intros r.
  apply rotationSafe_bind; [apply rotationSafe_emit; intros H; exact H|].
  intros _.
  destruct r; [apply rotationSafe_ret|apply rotationSafe_fail].
Qed.

Lemma rotationSafe_helper_bind {B} op (f : string → M B) :
  (∀ ans, J ans → rotationSafe J n o ρ (f (ans op))) →
  rotationSafe J n o ρ (helper op ≫= f).
Proof. intros Hf w HJ. rewrite run_bind. cbn. by apply Hf. Qed.

(** *** The IAM calls *)

Lemma rotationSafe_GetRole x : rotationSafe J n o ρ (iamiface.GetRole x).
Proof.
  apply rotationSafe_invokeIam; [|intros ? H; exact H]. intros s.
  destruct (Roles s !! x); apply rotationStep_refl.
Qed.

Lemma rotationSafe_CreateRole x doc tags :
  (x = ρ → n ∈ doc) → rotationSafe J n o ρ (iamiface.CreateRole x doc tags).
Proof.
  intros Hd. apply rotationSafe_invokeIam; [|intros ? H; exact H]. intros s.
  destruct (Roles s !! x) eqn:Hx; cbn; [apply rotationStep_refl|].
  apply rotationStep_setRoles. intros ->. cbn. split; [auto|].
  intros r Hr. congruence.
Qed.

Lemma rotationSafe_UpdateAssumeRolePolicy x doc :
  (x = ρ → n ∈ doc ∧ o ∈ doc) →
  rotationSafe J n o ρ (iamiface.UpdateAssumeRolePolicy x doc).
Proof.
  intros Hd. apply rotationSafe_invokeIam.
  - intros s. destruct (Roles s !! x) eqn:Hx; cbn; [|apply rotationStep_refl].
    apply rotationStep_setRoles. intros Hxρ. destruct (Hd Hxρ) as [Hn Ho].
    cbn. split; [auto|]. intros r0 _ _ Hno. by destruct Hno.
  - intros err [Hxρ Hno]. by destruct (Hd Hxρ).
Qed.

Lemma rotationSafe_TagRole x tags : rotationSafe J n o ρ (iamiface.TagRole x tags).
Proof.
  apply rotationSafe_invokeIam; [|intros ? H; exact H]. intros s.
  destruct (Roles s !! x) eqn:Hx; cbn; [|apply rotationStep_refl].
  by eapply rotationStep_keep.
Qed.

Lemma rotationSafe_ListRolePolicies x :
  rotationSafe J n o ρ (iamiface.ListRolePolicies x).
Proof.
  apply rotationSafe_invokeIam; [|intros ? H; exact H]. intros s.
  destruct (Roles s !! x); apply rotationStep_refl.
Qed.

Lemma rotationSafe_GetRolePolicy x p :
  rotationSafe J n o ρ (iamiface.GetRolePolicy x p).
Proof.
  apply rotationSafe_invokeIam; [|intros ? H; exact H]. intros s.
  destruct (Roles s !! x) as [r|]; [|apply rotationStep_refl].
  destruct (RolePolicies r !! p); apply rotationStep_refl.
Qed.

Lemma rotationSafe_PutRolePolicy x p d :
  rotationSafe J n o ρ (iamiface.PutRolePolicy x p d).
Proof.
  apply rotationSafe_invokeIam; [|intros ? H; exact H]. intros s.
  destruct (Roles s !! x) eqn:Hx; cbn; [|apply rotationStep_refl].
  by eapply rotationStep_keep.
Qed.

Lemma rotationSafe_GetInstanceProfile p :
  rotationSafe J n o ρ (iamiface.GetInstanceProfile p).
Proof.
  apply rotationSafe_invokeIam; [|intros ? H; exact H]. intros s.
  destruct (InstanceProfiles s !! p); apply rotationStep_refl.
Qed.

Lemma rotationSafe_CreateInstanceProfile p tags :
  rotationSafe J n o ρ (iamiface.CreateInstanceProfile p tags).
Proof.
  apply rotationSafe_invokeIam; [|intros ? H; exact H]. intros s.
  destruct (InstanceProfiles s !! p); [apply rotationStep_refl|].
  by apply rotationStep_same.
Qed.

Lemma rotationSafe_AddRoleToInstanceProfile p x :
  rotationSafe J n o ρ (iamiface.AddRoleToInstanceProfile p x).
Proof.
  apply rotationSafe_invokeIam; [|intros ? H; exact H]. intros s.
  destruct (InstanceProfiles s !! p) as [[|??]|], (Roles s !! x);
    try apply rotationStep_refl.
  by apply rotationStep_same.
Qed.

End Rotation.

Create HintDb rotation.

#[export] Hint Resolve rotationSafe_ret rotationSafe_fail rotationSafe_GetRole
  rotationSafe_TagRole rotationSafe_ListRolePolicies rotationSafe_GetRolePolicy
  rotationSafe_PutRolePolicy rotationSafe_GetInstanceProfile
  rotationSafe_CreateInstanceProfile rotationSafe_AddRoleToInstanceProfile
  : rotation.

(** Decomposes a goal [rotationSafe J n o role m] along the structure of
    [m]. *)
Ltac rotation_go :=
  repeat first
    [ apply rotationSafe_bind; [|intros ?]
    | apply rotationSafe_if
    | apply rotationSafe_try
    | apply rotationSafe_wrapped
    | apply rotationSafe_ret
    | apply rotationSafe_fail
    | match goal with
      | |- rotationSafe _ _ _ _ (match ?x with _ => _ end) => destruct x
      end
    | solve [eauto with rotation] ].

Section RotationOfRoles.

Context (J : (Op → string) → Prop) (n o ρ : string).

Lemma rotationSafe_convergeRole x observed trust tags :
  (x = ρ → n ∈ trust ∧ o ∈ trust) →
  rotationSafe J n o ρ (iam.convergeRole x observed trust tags).
Proof.
  intros Hd. unfold iam.convergeRole. rotation_go.
  by apply rotationSafe_UpdateAssumeRolePolicy.
Qed.

Lemma rotationSafe_EnsureRole x trust tags :
  (x = ρ → n ∈ trust ∧ o ∈ trust) →
  rotationSafe J n o ρ (iam.EnsureRole x trust tags).
Proof.
  intros Hd. unfold iam.EnsureRole. rotation_go;
    first [ by apply rotationSafe_convergeRole
          | by apply rotationSafe_UpdateAssumeRolePolicy
          | apply rotationSafe_CreateRole; intros Hx; by destruct (Hd Hx) ].
Qed.

Lemma rotationSafe_EnsureInstanceProfile x tags :
  rotationSafe J n o ρ (iam.EnsureInstanceProfile x tags).
Proof. unfold iam.EnsureInstanceProfile. rotation_go. Qed.

Lemma rotationSafe_EnsureInlinePolicy x p d :
  rotationSafe J n o ρ (iam.EnsureInlinePolicy x p d).
Proof. unfold iam.EnsureInlinePolicy. rotation_go. Qed.

(** The confirmation and the removal: the role is read, and the update
    that drops the previous issuer is sent only when the read shows the
    current one, in the state that was read. *)
Lemma rotationSafe_confirm x e :
  n ≠ o →
  rotationSafe J n o ρ
    (observed ← iamiface.GetRole x;
     if bool_decide (n ∈ AssumeRolePolicyDocument observed)
     then iamiface.UpdateAssumeRolePolicy x
            (filter (λ issuer, issuer ≠ o) (AssumeRolePolicyDocument observed))
     else fail e).
Proof.
  intros Hno w _. rewrite run_bind.
  unfold iamiface.GetRole. rewrite run_invokeIam.
  destruct (faults w _ _) as [e1|].
  { split; [done|]. exists [iam w], [Called (IamGetRole x) (Some e1)]. cbn.
    split_and!; try done; [apply rotationStep_refl|].
    apply confirmedFirst_quiet, Forall_singleton. intros H; exact H. }
  destruct (Roles (iam w) !! x) as [r|] eqn:Hx; cbn [fst snd].
  2:{ split; [done|].
      exists [iam w],
        [Called (IamGetRole x) (Some (AwsError ErrCodeNoSuchEntityException))].
      cbn. split_and!; try done; [apply rotationStep_refl|].
      apply confirmedFirst_quiet, Forall_singleton. intros H; exact H. }
  case_bool_decide as Hn.
  2:{ split; [done|]. exists [iam w], [Called (IamGetRole x) None].
      cbn. split_and!; try done; [apply rotationStep_refl|].
      apply confirmedFirst_quiet, Forall_singleton. intros H; exact H. }
  unfold iamiface.UpdateAssumeRolePolicy. rewrite run_invokeIam.
  set (doc := filter (λ issuer, issuer ≠ o) (AssumeRolePolicyDocument r)).
  assert (Hdoc : n ∈ doc) by (by apply list_elem_of_filter).
  assert (Hcf : ∀ err, confirmedFirst n o ρ
            [Called (IamGetRole x) None;
             Called (IamUpdateAssumeRolePolicy x doc) err]).
  { intros err pre ev post Heq Hrem.
    destruct pre as [|e0 [|e1 pre]]; cbn in Heq.
    - injection Heq as <- _. destruct Hrem.
    - injection Heq as <- <- _. destruct Hrem as [-> _].
      split; [|done]. by exists doc, err.
    - injection Heq as _ _ Heq. by destruct pre. }
  destruct (faults _ _ _) as [e2|]; cbn.
  { split; [done|]. exists [iam w; iam w], [Called (IamGetRole x) None;
      Called (IamUpdateAssumeRolePolicy x doc) (Some e2)].
    cbn. rewrite <- !app_assoc. cbn.
    split_and!; try done; apply rotationStep_refl. }
  rewrite Hx. cbn. split; [done|].
  eexists [iam w; _], [Called (IamGetRole x) None;
      Called (IamUpdateAssumeRolePolicy x doc) None].
  cbn. rewrite <- !app_assoc. cbn.
  split_and!; try done; [apply rotationStep_refl|].
  apply rotationStep_setRoles. intros ->. cbn. split; [auto|].
  intros r0 Hr0 _ _. rewrite Hx in Hr0. by injection Hr0 as <-.
Qed.

Lemma rotationSafe_reconcileIRSABinding s a b :
  iam.isRotation n o = true →
  rotationSafe J n o ρ (iam.reconcileIRSABinding s a n o b).
Proof.
  intros Hrot. unfold iam.reconcileIRSABinding. rewrite Hrot.
  apply bool_decide_eq_true in Hrot as [_ Hno].
  apply rotationSafe_bind.
  { apply rotationSafe_EnsureRole. intros _.
    split; [apply list_elem_of_here|apply list_elem_of_further, list_elem_of_here]. }
  intros _. apply rotationSafe_bind; [apply rotationSafe_EnsureInlinePolicy|].
  intros _. apply rotationSafe_confirm. congruence.
Qed.

Lemma rotationSafe_ReconcileRolesForIRSA s a :
  iam.isRotation n o = true →
  rotationSafe J n o ρ (iam.ReconcileRolesForIRSA s a n o).
Proof.
  intros Hrot. apply rotationSafe_method, rotationSafe_if;
    [apply rotationSafe_fail|].
  apply rotationSafe_forEach. intros b. by apply rotationSafe_reconcileIRSABinding.
Qed.

Lemma rotationSafe_ReconcileRole s :
  ρ ≠ iam.MainRoleName s → rotationSafe J n o ρ (iam.ReconcileRole s).
Proof.
  intros Hne. apply rotationSafe_method.
  apply rotationSafe_bind; [by apply rotationSafe_EnsureRole|]. intros _.
  apply rotationSafe_bind; [apply rotationSafe_EnsureInstanceProfile|].
  intros _. apply rotationSafe_EnsureInlinePolicy.
Qed.

End RotationOfRoles.

Lemma isK8sCall_keeps_issuer o ρ ev : isK8sCall ev → ¬ removesIssuer o ρ ev.
Proof. destruct ev as [[] ?| | |]; cbn; intros H1 H2; done. Qed.

Lemma isQuietCall_keeps_issuer o ρ ev : isQuietCall ev → ¬ removesIssuer o ρ ev.
Proof. destruct ev as [[] ?| | |]; cbn; intros H1 H2; done. Qed.

Lemma rotationSafe_reconcileNormal r s awsMachineTemplate clusterName
    namespace role n o ρ :
  iam.isRotation n o = true → ρ ≠ iam.MainRoleName s →
  rotationSafe (issuers n o) n o ρ
    (reconcileNormal r s awsMachineTemplate clusterName namespace role).
Proof.
  intros Hrot Hne. unfold reconcileNormal.
  apply rotationSafe_bind.
  { apply (rotationSafe_steps _ _ _ _ isK8sCall false);
      [apply isK8sCall_keeps_issuer|]. steps_go. }
  intros _. apply rotationSafe_bind.
  { apply (rotationSafe_steps _ _ _ _ isK8sCall false);
      [apply isK8sCall_keeps_issuer|]. steps_go. }
  intros awsCluster. apply rotationSafe_bind.
  { by apply rotationSafe_ReconcileRole. }
  intros _. repeat apply rotationSafe_if; try apply rotationSafe_ret.
  apply rotationSafe_bind.
  { apply (rotationSafe_steps _ _ _ _ isK8sCall false);
      [apply isK8sCall_keeps_issuer|]. steps_go. }
  intros identity. apply rotationSafe_bind.
  { apply (rotationSafe_steps _ _ _ _ isQuietCall true);
      [apply isQuietCall_keeps_issuer|].
    by apply steps_wrapped, steps_quiet_external. }
  intros accountID. apply rotationSafe_bind.
  { apply (rotationSafe_steps _ _ _ _ isQuietCall true);
      [apply isQuietCall_keeps_issuer|].
    by apply steps_wrapped, steps_quiet_external. }
  intros baseDomain. apply rotationSafe_helper_bind. intros ans [Hn Ho].
  rewrite Hn. apply rotationSafe_helper_bind. intros ans' [_ Ho'].
  rewrite Ho'. apply rotationSafe_bind; [|intros _; apply rotationSafe_ret].
  by apply rotationSafe_wrapped, rotationSafe_ReconcileRolesForIRSA.
Qed.

Lemma rotationSafe_outcome {A} J n o ρ (m : M A) w :
  rotationSafe J n o ρ m → J (answers w) → trusts n o ρ (iam w) →
  rotationOutcome n o ρ w (m w).2.
Proof.
  intros Hm HJ Ht. destruct (Hm w HJ) as (_ & hs & t & Hh & Htr & Hc & _ & Hcf).
  exists hs, t. split_and!; try done.
  - eapply chain_Forall; [|exact Ht|exact Hc]. intros a b [H _]. exact H.
  - eapply chain_impl; [|exact Hc]. by intros a b [_ H].
Qed.

(** C2: during a rotation of the issuer domain (a previous issuer domain
    [o] is recorded and differs from the current one [n]), for every role
    that trusts one of the two issuers when the run starts, or does not
    exist: every IAM state the run passes through, whatever calls fail,
    has the role trust the old or the new issuer; a step of the IAM state
    takes the old issuer out of the trust policy only when the new issuer
    was trusted before the step and is after it; and an update that
    removes the old issuer carries the new one and directly follows a
    successful read of the role.  This holds for [ReconcileRolesForIRSA]
    and for [reconcileNormal], which calls it with the issuer domains the
    helpers of [key] give, for every role but the main one. *)
Theorem rotation_trust_never_lapses (n o ρ : string) :
  iam.isRotation n o = true →
  (∀ s awsAccountID w,
     trusts n o ρ (iam w) →
     rotationOutcome n o ρ w (iam.ReconcileRolesForIRSA s awsAccountID n o w).2)
  ∧ (∀ r s awsMachineTemplate clusterName namespace role w,
       issuers n o (answers w) → ρ ≠ iam.MainRoleName s →
       trusts n o ρ (iam w) →
       rotationOutcome n o ρ w
         (reconcileNormal r s awsMachineTemplate clusterName namespace role
            w).2).
Proof.
  intros Hrot. split.
  - intros s a w Ht.
    apply (rotationSafe_outcome (λ _, True)); [|done|done].
    by apply rotationSafe_ReconcileRolesForIRSA.
  - intros r s t c ns role w HJ Hne Ht.
    apply (rotationSafe_outcome (issuers n o)); [|done|done].
    by apply rotationSafe_reconcileNormal.
Qed.

Lemma rotation_trust_never_lapses_witness :
  iam.isRotation newIssuer oldIssuer = true
  ∧ issuers newIssuer oldIssuer (answers rotationWorld)
  ∧ trusts newIssuer oldIssuer route53Role (iam rotationWorld)
  ∧ rotationOutcome newIssuer oldIssuer route53Role rotationWorld
      (reconcileNormal sampleReconciler sampleService templateB
         "test-cluster" sampleNamespace iam.ControlPlaneRole rotationWorld).2.
Proof.
  assert (Hrot : iam.isRotation newIssuer oldIssuer = true) by reflexivity.
  assert (HJ : issuers newIssuer oldIssuer (answers rotationWorld)).
  { split; intros; reflexivity. }
  assert (Ht : trusts newIssuer oldIssuer route53Role (iam rotationWorld)).
  { unfold trusts.
    replace (Roles (iam rotationWorld) !! route53Role)
      with (Some {| Arn := "arn:aws:iam::999666333:role/" ++ route53Role;
                    AssumeRolePolicyDocument := [oldIssuer];
                    RoleTags := list_to_map (iam.tags sampleService);
                    RolePolicies :=
                      {[ "irsa-role-test-cluster-policy" := "route53" ]} |})
      by (symmetry; apply lookup_insert_eq).
    right. apply list_elem_of_here. }
  split_and!; try done.
  apply (proj2 (rotation_trust_never_lapses newIssuer oldIssuer route53Role
                  Hrot)); try done.
Defined.

(** The run of the witness: the role of external-dns trusts the old
    issuer, then both, then the new one alone; the role of cert-manager is
    created trusting both and ends trusting the new one. *)
Lemma rotation_run :
  (reconcileNormal sampleReconciler sampleService templateB "test-cluster"
     sampleNamespace iam.ControlPlaneRole rotationWorld).1 = Ok emptyResult
  ∧ remove_dups
      (trustHistory route53Role
         (history (reconcileNormal sampleReconciler sampleService templateB
                     "test-cluster" sampleNamespace iam.ControlPlaneRole
                     rotationWorld).2))
    = [Some [oldIssuer]; Some [newIssuer; oldIssuer]; Some [newIssuer]]
  ∧ remove_dups
      (trustHistory "test-cluster-CertManager-Role"
         (history (reconcileNormal sampleReconciler sampleService templateB
                     "test-cluster" sampleNamespace iam.ControlPlaneRole
                     rotationWorld).2))
    = [None; Some [newIssuer; oldIssuer]; Some [newIssuer]].
Proof. vm_compute. done. Qed.

(** ** The role-ensure operation *)

(** The events of the read-and-reconcile path: a trust-policy update only
    for an observed trust policy that differs, a tag update only for
    observed tags that lack a desired one. *)
Lemma convergeRole_events roleName observed trust tags w ev :
  ev ∈ since w (iam.convergeRole roleName observed trust tags w).2 →
  (∃ err, ev = Called (IamUpdateAssumeRolePolicy roleName trust) err
          ∧ AssumeRolePolicyDocument observed ≠ trust)
  ∨ (∃ err, ev = Called (IamTagRole roleName tags) err
            ∧ iam.tagsPresent tags observed = false).
Proof.
  unfold iam.convergeRole. rewrite run_bind.
  assert (Htag : ∀ w1 t1,
    trace w1 = trace w ++ t1 →
    (∀ ev, ev ∈ t1 →
       ∃ err, ev = Called (IamUpdateAssumeRolePolicy roleName trust) err
              ∧ AssumeRolePolicyDocument observed ≠ trust) →
    ev ∈ since w
           ((_ ← (if iam.tagsPresent tags observed then mret tt
                  else iamiface.TagRole roleName tags);
             mret (Arn observed)) w1).2 →
    (∃ err, ev = Called (IamUpdateAssumeRolePolicy roleName trust) err
            ∧ AssumeRolePolicyDocument observed ≠ trust)
    ∨ (∃ err, ev = Called (IamTagRole roleName tags) err
              ∧ iam.tagsPresent tags observed = false)).
  { intros w1 t1 Ht1 H1. rewrite run_bind.
    destruct (iam.tagsPresent tags observed) eqn:Hp.
    - cbn [mret M_ret fst snd]. rewrite (since_app _ _ t1 Ht1).
      intros Hin. left. by apply H1.
    - unfold iamiface.TagRole. rewrite run_invokeIam.
      destruct (faults w1 _ _) as [e|].
      + cbn [mret M_ret fst snd].
        rewrite (since_app _ _ (t1 ++ [Called (IamTagRole roleName tags)
                                               (Some e)]))
          by (cbn; by rewrite Ht1, <- app_assoc).
        intros [Hin|Hin%list_elem_of_singleton]%elem_of_app;
          [left; by apply H1|right; by eexists].
      + destruct (Roles (iam w1) !! roleName) as [r|]; cbn [mret M_ret fst snd];
          rewrite (since_app _ _ (t1 ++ [Called (IamTagRole roleName tags) _]))
            by (cbn; by rewrite Ht1, <- app_assoc);
          intros [Hin|Hin%list_elem_of_singleton]%elem_of_app;
          try (left; by apply H1); right; by eexists. }
  case_bool_decide as Htrust.
  - cbn [mret M_ret fst snd]. apply (Htag w []); [by rewrite app_nil_r|].
    intros ev' Hin. by apply not_elem_of_nil in Hin.
  - unfold iamiface.UpdateAssumeRolePolicy. rewrite run_invokeIam.
    destruct (faults w _ _) as [e|].
    + cbn [fst snd]. rewrite (since_app _ _ [Called (IamUpdateAssumeRolePolicy roleName
                                             trust) (Some e)]) by done.
      intros Hin%list_elem_of_singleton. left. by eexists.
    + destruct (Roles (iam w) !! roleName) as [r|]; cbn [fst snd].
      * apply (Htag _ [Called (IamUpdateAssumeRolePolicy roleName trust) None]);
          [done|].
        intros ev' Hin%list_elem_of_singleton. by eexists.
      * cbn [fst snd]. rewrite (since_app _ _ [Called (IamUpdateAssumeRolePolicy roleName
                                               trust) _]) by done.
        intros Hin%list_elem_of_singleton. left. by eexists.
Qed.

(** An event of [m ≫= f] is one of [m] or one of [f]. *)
Lemma elem_since_bind {A B} P ko ki (m : M A) (f : A → M B) w ev :
  steps P ko ki m → (∀ a, steps P ko ki (f a)) →
  ev ∈ since w ((m ≫= f) w).2 →
  ev ∈ since w (m w).2
  ∨ ∃ a, (m w).1 = Ok a ∧ ev ∈ since (m w).2 (f a (m w).2).2.
Proof.
  intros Hm Hf. rewrite run_bind. destruct (Hm w) as [_ (t1 & Ht1 & _)].
  destruct (m w) as [[a|e] w1]; cbn [fst snd] in *; [|by left].
  destruct (Hf a w1) as [_ (t2 & Ht2 & _)].
  rewrite (since_app w _ (t1 ++ t2)) by (by rewrite Ht2, Ht1, app_assoc).
  rewrite (since_app w w1 t1 Ht1).
  intros [Hin|Hin]%elem_of_app; [by left|right; exists a].
  by rewrite (since_app w1 _ t2 Ht2).
Qed.

Lemma elem_since_invokeIam {A} op (sem : IAMState → result A * IAMState) w ev :
  ev ∈ since w (invokeIam op sem w).2 → ∃ err, ev = Called op err.
Proof.
  rewrite run_invokeIam. destruct (faults w _ op) as [e|]; cbn [fst snd].
  - rewrite (since_app _ _ [Called op (Some e)]) by done.
    intros Hin%list_elem_of_singleton. by eexists.
  - rewrite (since_app _ _ [Called op (errOf (sem (iam w)).1)]) by done.
    intros Hin%list_elem_of_singleton. by eexists.
Qed.

(** A read of the role does not change the state, and a role it returns
    is the role of the state. *)
Lemma GetRole_reads roleName w :
  iam (iamiface.GetRole roleName w).2 = iam w
  ∧ ∀ observed, (iamiface.GetRole roleName w).1 = Ok observed →
                Roles (iam w) !! roleName = Some observed.
Proof.
  unfold iamiface.GetRole. rewrite run_invokeIam.
  destruct (faults w _ _) as [e|]; [done|].
  destruct (Roles (iam w) !! roleName) as [r|]; cbn; [|done].
  split; [done|]. by intros ? [= <-].
Qed.

(** A creation that fails does not change the state. *)
Lemma CreateRole_fails roleName trust tags w e :
  (iamiface.CreateRole roleName trust tags w).1 = Err e →
  iam (iamiface.CreateRole roleName trust tags w).2 = iam w.
Proof.
  unfold iamiface.CreateRole. rewrite run_invokeIam.
  destruct (faults w _ _) as [e'|]; [done|].
  by destruct (Roles (iam w) !! roleName) as [r|].
Qed.

Lemma ensureRoleCall_converge roleName trust tags s w observed ev :
  Roles s !! roleName = Some observed →
  ev ∈ since w (iam.convergeRole roleName observed trust tags w).2 →
  ensureRoleCall roleName trust tags s ev.
Proof.
  intros Hr [(err & -> & Hd)|(err & -> & Hd)]%convergeRole_events.
  - right. right. left. by eexists _, _.
  - right. right. right. by eexists _, _.
Qed.

(** The second read, after a creation that found the role. *)
Lemma ensureRoleCall_reread roleName trust tags w ev :
  ev ∈ since w ((observed ← iamiface.GetRole roleName;
                 iam.convergeRole roleName observed trust tags) w).2 →
  ensureRoleCall roleName trust tags (iam w) ev.
Proof.
  intros [Hin|(observed & Hok & Hin)]%(elem_since_bind isIamCall true false);
    [| |apply steps_iamiface_GetRole|intros ?; apply steps_convergeRole].
  - left. by apply elem_since_invokeIam in Hin.
  - destruct (GetRole_reads roleName w) as [Hiam Hobs].
    eapply (ensureRoleCall_converge _ _ _ _ _ observed); [|exact Hin].
    by apply Hobs.
Qed.

(** Every call of [EnsureRole] is a read, the creation, or the update of a
    field that differs. *)
Lemma EnsureRole_calls roleName trust tags w ev :
  ev ∈ since w (iam.EnsureRole roleName trust tags w).2 →
  ensureRoleCall roleName trust tags (iam w) ev.
Proof.
  unfold iam.EnsureRole.
  intros [Hin|(r & Hr & Hin)]%(elem_since_bind isIamCall true false);
    [| |apply steps_try, steps_iamiface_GetRole|].
  - left. unfold try in Hin.
    destruct (iamiface.GetRole roleName w) eqn:Hg. cbn [snd] in Hin.
    change w0 with (r, w0).2 in Hin. rewrite <- Hg in Hin.
    by apply elem_since_invokeIam in Hin.
  - unfold try in Hr, Hin.
    destruct (GetRole_reads roleName w) as [Hiam Hobs].
    destruct (iamiface.GetRole roleName w) as [r' w1] eqn:Hg.
    cbn [fst snd] in *. injection Hr as <-.
    destruct r' as [observed|e].
    + eapply (ensureRoleCall_converge _ _ _ _ _ observed); [|exact Hin].
      by apply Hobs.
    + destruct (iam.IsNoSuchEntity e); [|cbn in Hin].
      2:{ unfold fail in Hin. cbn in Hin. unfold since in Hin.
          rewrite drop_all in Hin. by apply not_elem_of_nil in Hin. }
      apply (elem_since_bind isIamCall true false) in Hin
        as [Hin|(c & Hc & Hin)];
        [| |apply steps_try, steps_iamiface_CreateRole|].
      * right. left. unfold try in Hin.
        destruct (iamiface.CreateRole roleName trust tags w1) eqn:Hcr.
        cbn [snd] in Hin. change w0 with (r, w0).2 in Hin.
        rewrite <- Hcr in Hin. by apply elem_since_invokeIam in Hin.
      * unfold try in Hc, Hin.
        pose proof (CreateRole_fails roleName trust tags w1) as Hfail.
        destruct (iamiface.CreateRole roleName trust tags w1) as [c' w2].
        cbn [fst snd] in *. injection Hc as <-.
        destruct c' as [created|e'].
        -- unfold since in Hin. cbn in Hin. rewrite drop_all in Hin.
           by apply not_elem_of_nil in Hin.
        -- destruct (iam.IsAlreadyExists e').
           ++ rewrite <- Hiam, <- (Hfail e' eq_refl).
              by apply ensureRoleCall_reread.
           ++ unfold since in Hin. cbn in Hin. rewrite drop_all in Hin.
              by apply not_elem_of_nil in Hin.
      * intros [created|e']; [apply steps_ret|].
        destruct (iam.IsAlreadyExists e'); [|apply steps_fail].
        apply steps_bind; [apply steps_iamiface_GetRole|].
        intros ?. apply steps_convergeRole.
  - intros [observed|e]; [apply steps_convergeRole|].
    destruct (iam.IsNoSuchEntity e); [|apply steps_fail].
    apply steps_bind; [apply steps_try, steps_iamiface_CreateRole|].
    intros [created|e']; [apply steps_ret|].
    destruct (iam.IsAlreadyExists e'); [|apply steps_fail].
    apply steps_bind; [apply steps_iamiface_GetRole|].
    intros ?. apply steps_convergeRole.
Qed.



(** ** Package key *)

Lemma FinalizerName_inj role1 role2 :
  key.FinalizerName role1 = key.FinalizerName role2 → role1 = role2.
Proof. unfold key.FinalizerName. cbn. by intros [=]. Qed.

(** The finalizers of two roles are told apart: [FinalizerName] maps
    different role names to different finalizers, so removing or adding the
    finalizer of one role on an object leaves the finalizer of every other
    role as it was. *)
Theorem FinalizerName_roles_independent (o : Object) (role1 role2 : string) :
  role1 ≠ role2 →
  key.FinalizerName role1 ≠ key.FinalizerName role2
  ∧ ContainsFinalizer (RemoveFinalizer o (key.FinalizerName role1))
      (key.FinalizerName role2)
    = ContainsFinalizer o (key.FinalizerName role2)
  ∧ ContainsFinalizer (AddFinalizer o (key.FinalizerName role1))
      (key.FinalizerName role2)
    = ContainsFinalizer o (key.FinalizerName role2).
Proof.
  intros Hne.
  assert (Hf : key.FinalizerName role1 ≠ key.FinalizerName role2)
    by (intros H; by apply Hne, FinalizerName_inj).
  split_and!; [done| |].
  - unfold ContainsFinalizer. rewrite GetFinalizers_RemoveFinalizer.
    apply bool_decide_ext. rewrite list_elem_of_filter.
    split; [by intros [_ ?]|]. intros Hin. split; [congruence|done].
  - unfold AddFinalizer. destruct (ContainsFinalizer o _); [done|].
    unfold ContainsFinalizer. apply bool_decide_ext. cbn.
    rewrite elem_of_app, list_elem_of_singleton.
    split; [|by left]. intros [Hin|Heq]; [done|congruence].
Qed.

Lemma FinalizerName_roles_independent_witness :
  ContainsFinalizer
    (RemoveFinalizer
       (sampleObject "x"
          [key.FinalizerName iam.ControlPlaneRole;
           key.FinalizerName iam.IRSARole] None (ConfigMapData ∅))
       (key.FinalizerName iam.ControlPlaneRole))
    (key.FinalizerName iam.IRSARole) = true.
Proof.
  destruct (FinalizerName_roles_independent
              (sampleObject "x"
                 [key.FinalizerName iam.ControlPlaneRole;
                  key.FinalizerName iam.IRSARole] None (ConfigMapData ∅))
              iam.ControlPlaneRole iam.IRSARole) as (_ & H & _).
  - intros [=].
  - rewrite H. reflexivity.
Defined.

(** [GetAWSClusterByName] only reads: whatever the store and the failures,
    it makes exactly one call, the list of AWSClusters with the
    cluster-name label selector, changes neither the objects nor IAM, and
    returns the error of the list as it is. *)
Theorem GetAWSClusterByName_reads_only (clusterName : string) (w : World) :
  (∃ err,
     since w (key.GetAWSClusterByName clusterName w).2
     = [Called (ClientList AWSCluster [(key.ClusterNameLabel, clusterName)])
          err])
  ∧ objects (key.GetAWSClusterByName clusterName w).2 = objects w
  ∧ iam (key.GetAWSClusterByName clusterName w).2 = iam w
  ∧ history (key.GetAWSClusterByName clusterName w).2 = history w
  ∧ ∀ e, faults w (length (trace w))
           (ClientList AWSCluster [(key.ClusterNameLabel, clusterName)])
         = Some e →
         (key.GetAWSClusterByName clusterName w).1 = Err e.
Proof.
  unfold key.GetAWSClusterByName, List. rewrite run_bind. unfold invoke.
  destruct (faults w _ _) as [e|].
  - cbn. split_and!; try done; [|by intros ? [= ->]].
    eexists. by apply since_app.
  - cbn [fst snd]. fold (clustersNamed clusterName w).
    destruct (clustersNamed clusterName w) as [|item [|item' items]]; cbn;
      (split_and!; try done; eexists; by apply since_app).
Qed.

(** ** AWSMachineTemplateReconciler.Reconcile *)

Lemma Reconcile_get_fails
    (GetClusterIDFromLabels : ObjectMeta → result string)
    (HasCapiWatchLabel IsControlPlaneAWSMachineTemplate
       IsBastionAWSMachineTemplate : gmap string string → bool)
    (New : iam.IAMServiceConfig → result iam.IAMService) r req w e :
  faults w (length (trace w)) (ClientGet (AWSMachineTemplate, req)) = Some e →
  AWSMachineTemplateReconciler_Reconcile GetClusterIDFromLabels
    HasCapiWatchLabel IsControlPlaneAWSMachineTemplate
    IsBastionAWSMachineTemplate New r req w
  = (if IsNotFound e then Ok emptyResult else Err e,
     record (Called (ClientGet (AWSMachineTemplate, req)) (Some e)) w).
Proof.
  intros Hf. unfold AWSMachineTemplateReconciler_Reconcile.
  rewrite run_bind. unfold try, Get.
  rewrite (run_invoke_fault _ _ _ e) by done.
  by destruct (IsNotFound e).
Qed.

Lemma Reconcile_get_missing
    (GetClusterIDFromLabels : ObjectMeta → result string)
    (HasCapiWatchLabel IsControlPlaneAWSMachineTemplate
       IsBastionAWSMachineTemplate : gmap string string → bool)
    (New : iam.IAMServiceConfig → result iam.IAMService) r req w :
  faults w (length (trace w)) (ClientGet (AWSMachineTemplate, req)) = None →
  objects w !! (AWSMachineTemplate, req) = None →
  AWSMachineTemplateReconciler_Reconcile GetClusterIDFromLabels
    HasCapiWatchLabel IsControlPlaneAWSMachineTemplate
    IsBastionAWSMachineTemplate New r req w
  = (Ok emptyResult,
     record (Called (ClientGet (AWSMachineTemplate, req))
               (Some (StatusError StatusReasonNotFound))) w).
Proof.
  intros Hf Ho. unfold AWSMachineTemplateReconciler_Reconcile.
  rewrite run_bind. unfold try, Get. rewrite run_invoke_sem by done.
  by rewrite Ho.
Qed.

(** When the AWSMachineTemplate of the request does not exist, [Reconcile]
    returns success with an empty result; a read that fails with not found
    is treated the same, and any other error of the read is returned as it
    is.  In each case the read is the only call made, and nothing
    changes. *)
Theorem Reconcile_missing_template_succeeds
    (GetClusterIDFromLabels : ObjectMeta → result string)
    (HasCapiWatchLabel IsControlPlaneAWSMachineTemplate
       IsBastionAWSMachineTemplate : gmap string string → bool)
    (New : iam.IAMServiceConfig → result iam.IAMService)
    (r : AWSMachineTemplateReconciler) (req : string * string) (w : World) :
  objects w !! (AWSMachineTemplate, req) = None →
  (faults w (length (trace w)) (ClientGet (AWSMachineTemplate, req)) = None →
   (AWSMachineTemplateReconciler_Reconcile GetClusterIDFromLabels
      HasCapiWatchLabel IsControlPlaneAWSMachineTemplate
      IsBastionAWSMachineTemplate New r req w).1 = Ok emptyResult)
  ∧ (∀ e,
       faults w (length (trace w)) (ClientGet (AWSMachineTemplate, req))
       = Some e →
       (AWSMachineTemplateReconciler_Reconcile GetClusterIDFromLabels
          HasCapiWatchLabel IsControlPlaneAWSMachineTemplate
          IsBastionAWSMachineTemplate New r req w).1
       = if IsNotFound e then Ok emptyResult else Err e)
  ∧ (∃ err,
       since w (AWSMachineTemplateReconciler_Reconcile GetClusterIDFromLabels
                  HasCapiWatchLabel IsControlPlaneAWSMachineTemplate
                  IsBastionAWSMachineTemplate New r req w).2
       = [Called (ClientGet (AWSMachineTemplate, req)) err])
  ∧ objects (AWSMachineTemplateReconciler_Reconcile GetClusterIDFromLabels
               HasCapiWatchLabel IsControlPlaneAWSMachineTemplate
               IsBastionAWSMachineTemplate New r req w).2 = objects w
  ∧ iam (AWSMachineTemplateReconciler_Reconcile GetClusterIDFromLabels
           HasCapiWatchLabel IsControlPlaneAWSMachineTemplate
           IsBastionAWSMachineTemplate New r req w).2 = iam w.
Proof.
  intros Ho.
  destruct (faults w (length (trace w)) (ClientGet (AWSMachineTemplate, req)))
    as [e|] eqn:Hf.
  - rewrite (Reconcile_get_fails _ _ _ _ _ _ _ _ e) by done. cbn.
    split_and!; try done.
    + by intros ? [= ->].
    + eexists. by apply since_app.
  - rewrite Reconcile_get_missing by done. cbn. split_and!; try done.
    eexists. by apply since_app.
Qed.

Lemma Reconcile_missing_template_succeeds_witness :
  (AWSMachineTemplateReconciler_Reconcile sampleGetClusterIDFromLabels
     sampleHasCapiWatchLabel sampleIsControlPlaneAWSMachineTemplate
     sampleIsBastionAWSMachineTemplate sampleNew sampleReconciler
     (sampleNamespace, "gone") (sampleWorld sampleStore sampleIam noFault)).1
  = Ok emptyResult.
Proof.
  apply (Reconcile_missing_template_succeeds sampleGetClusterIDFromLabels
           sampleHasCapiWatchLabel sampleIsControlPlaneAWSMachineTemplate
           sampleIsBastionAWSMachineTemplate sampleNew sampleReconciler
           (sampleNamespace, "gone")
           (sampleWorld sampleStore sampleIam noFault)).
  - vm_compute. reflexivity.
  - reflexivity.
Defined.

(** A template the controller does not handle is left alone: without the
    watch-filter label, without a control-plane or bastion role label, or
    with an empty IAM instance profile, [Reconcile] returns success with an
    empty result after reading the template, makes no other call and
    changes nothing. *)
Theorem Reconcile_ignores_unhandled_template
    (GetClusterIDFromLabels : ObjectMeta → result string)
    (HasCapiWatchLabel IsControlPlaneAWSMachineTemplate
       IsBastionAWSMachineTemplate : gmap string string → bool)
    (New : iam.IAMServiceConfig → result iam.IAMService)
    (r : AWSMachineTemplateReconciler) (req : string * string) (w : World)
    (awsMachineTemplate : Object) :
  faults w (length (trace w)) (ClientGet (AWSMachineTemplate, req)) = None →
  objects w !! (AWSMachineTemplate, req) = Some awsMachineTemplate →
  HasCapiWatchLabel (Labels (ObjMeta awsMachineTemplate)) = false
  ∨ (IsControlPlaneAWSMachineTemplate (Labels (ObjMeta awsMachineTemplate))
     = false
     ∧ IsBastionAWSMachineTemplate (Labels (ObjMeta awsMachineTemplate))
       = false)
  ∨ (IAMInstanceProfile awsMachineTemplate = ""
     ∧ ∃ clusterName,
         GetClusterIDFromLabels (ObjMeta awsMachineTemplate) = Ok clusterName) →
  AWSMachineTemplateReconciler_Reconcile GetClusterIDFromLabels
    HasCapiWatchLabel IsControlPlaneAWSMachineTemplate
    IsBastionAWSMachineTemplate New r req w
  = (Ok emptyResult,
     record (Called (ClientGet (AWSMachineTemplate, req)) None) w).
Proof.
  intros Hf Ho Hcase. unfold AWSMachineTemplateReconciler_Reconcile.
  rewrite run_bind. unfold try. rewrite (run_Get_found _ awsMachineTemplate)
    by done.
  destruct (HasCapiWatchLabel _) eqn:Hl; cbn [negb]; [|done].
  destruct Hcase as [Hc|[[Hc Hb]|[Hp (c & Hc)]]]; [done| |].
  - by rewrite Hc, Hb.
  - destruct (IsControlPlaneAWSMachineTemplate
                (Labels (ObjMeta awsMachineTemplate))),
      (IsBastionAWSMachineTemplate (Labels (ObjMeta awsMachineTemplate)));
      try done;
      rewrite run_bind; unfold wrapped, liftResult; rewrite Hc;
      by rewrite bool_decide_eq_true_2.
Qed.

Lemma Reconcile_ignores_unhandled_template_witness :
  AWSMachineTemplateReconciler_Reconcile sampleGetClusterIDFromLabels
    sampleHasCapiWatchLabel sampleIsControlPlaneAWSMachineTemplate
    sampleIsBastionAWSMachineTemplate sampleNew sampleReconciler
    (sampleNamespace, "test-cluster-control-plane-b")
    (sampleWorld sampleStore sampleIam noFault)
  = (Ok emptyResult,
     record (Called (ClientGet (AWSMachineTemplate,
                                (sampleNamespace,
                                 "test-cluster-control-plane-b"))) None)
       (sampleWorld sampleStore sampleIam noFault)).
Proof.
  apply (Reconcile_ignores_unhandled_template sampleGetClusterIDFromLabels
           sampleHasCapiWatchLabel sampleIsControlPlaneAWSMachineTemplate
           sampleIsBastionAWSMachineTemplate sampleNew sampleReconciler
           (sampleNamespace, "test-cluster-control-plane-b")
           (sampleWorld sampleStore sampleIam noFault) templateB).
  - reflexivity.
  - vm_compute. reflexivity.
  - right. left. split; reflexivity.
Defined.

(** ** The reconcile of a live template *)

Lemma reconcileNormal_phases r s awsMachineTemplate clusterName namespace role :
  reconcileNormal r s awsMachineTemplate clusterName namespace role
  = (_ ← reconcileNormal_finalizer awsMachineTemplate;
     reconcileNormal_roles r s awsMachineTemplate clusterName namespace role).
Proof. reflexivity. Qed.

Lemma isIamCall_within ms ev : isIamCall ev → withinMethods ms ev.
Proof. by destruct ev. Qed.

Lemma isK8sCall_within ms ev : isK8sCall ev → withinMethods ms ev.
Proof. by destruct ev. Qed.

Lemma isQuietCall_within ms ev : isQuietCall ev → withinMethods ms ev.
Proof. by destruct ev. Qed.

Lemma steps_within_method {A} ms m (body : M A) :
  m ∈ ms → steps isIamCall true false body →
  steps (withinMethods ms) true false (iam.method m body).
Proof.
  intros Hm Hb w. rewrite run_method. cbn [fst snd].
  destruct (Hb (record (Enter m) w)) as [Hf (t & Ht & HP)].
  split.
  - eapply frame_trans; [apply frame_record|].
    eapply frame_trans; [exact Hf|apply frame_record].
  - exists (Enter m :: t ++ [Leave m (errOf (body (record (Enter m) w)).1)]).
    cbn [trace record]. rewrite Ht. cbn [trace record].
    rewrite <- !app_assoc. split; [done|].
    constructor; [done|]. apply Forall_app. split.
    + eapply Forall_impl; [exact HP|]. apply isIamCall_within.
    + by apply Forall_singleton.
Qed.

Lemma steps_within_ReconcileRole ms s :
  MReconcileRole ∈ ms → steps (withinMethods ms) true false (iam.ReconcileRole s).
Proof. intros Hm. apply steps_within_method; [done|]. steps_go. Qed.

Lemma steps_within_ReconcileRolesForIRSA ms s a d o :
  MReconcileRolesForIRSA ∈ ms →
  steps (withinMethods ms) true false (iam.ReconcileRolesForIRSA s a d o).
Proof. intros Hm. apply steps_within_method; [done|]. steps_all. Qed.

Lemma steps_within_DeleteRole ms s :
  MDeleteRole ∈ ms → steps (withinMethods ms) true false (iam.DeleteRole s).
Proof. intros Hm. apply steps_within_method; [done|]. apply steps_deleteRole. Qed.

Lemma steps_within_DeleteRolesForIRSA ms s :
  MDeleteRolesForIRSA ∈ ms →
  steps (withinMethods ms) true false (iam.DeleteRolesForIRSA s).
Proof. intros Hm. apply steps_within_method; [done|]. steps_all. Qed.

Lemma steps_external P op :
  (∀ err, P (Called op err)) → steps P true true (external op).
Proof.
  intros HP. apply steps_invoke; [done|]. intros w. split; [apply frame_refl|done].
Qed.

Lemma steps_within_external ms op ko ki :
  steps (withinMethods ms) ko ki (external op).
Proof.
  eapply (steps_weaken (withinMethods ms) _ true true); [done|done|done|].
  by apply steps_external.
Qed.

Lemma steps_within_isRoleUsedElsewhere ms self roleName :
  steps (withinMethods ms) true true (isRoleUsedElsewhere self roleName).
Proof.
  unfold isRoleUsedElsewhere.
  apply steps_bind.
  - apply steps_wrapped, steps_invoke; [done|]. intros w.
    split; [apply frame_refl|done].
  - intros items. apply steps_bind; [by apply steps_emit|].
    intros _. apply steps_ret.
Qed.

(** A computation that only calls the Kubernetes client. *)
Ltac within_k8s :=
  eapply (steps_weaken isK8sCall _ false true);
    [apply isK8sCall_within|done|done|solve [steps_go]].

Lemma steps_within_reconcileNormal_irsa ms s awsMachineTemplate awsCluster
    clusterName namespace :
  MReconcileRolesForIRSA ∈ ms →
  steps (withinMethods ms) false false
    (reconcileNormal_irsa s awsMachineTemplate awsCluster clusterName namespace).
Proof.
  intros Hm. unfold reconcileNormal_irsa.
  apply steps_bind; [within_k8s|]. intros identity.
  apply steps_bind; [apply steps_wrapped, steps_within_external|].
  intros accountID.
  apply steps_bind; [apply steps_wrapped, steps_within_external|].
  intros baseDomain. apply steps_bind; [apply steps_helper|]. intros irsaDomain.
  apply steps_bind; [apply steps_helper|]. intros oldIrsaDomain.
  apply steps_bind; [|intros _; apply steps_ret].
  apply steps_wrapped.
  eapply steps_weaken; [| | |by apply (steps_within_ReconcileRolesForIRSA ms)];
    done.
Qed.

Lemma steps_within_reconcileNormal_roles ms r s awsMachineTemplate clusterName
    namespace role :
  MReconcileRole ∈ ms → MReconcileRolesForIRSA ∈ ms →
  steps (withinMethods ms) false false
    (reconcileNormal_roles r s awsMachineTemplate clusterName namespace role).
Proof.
  intros Hm1 Hm2. unfold reconcileNormal_roles.
  apply steps_bind; [within_k8s|]. intros awsCluster.
  apply steps_bind.
  { eapply steps_weaken; [| | |by apply (steps_within_ReconcileRole ms)]; done. }
  intros _. repeat apply steps_if; try apply steps_ret.
  by apply steps_within_reconcileNormal_irsa.
Qed.

Lemma steps_within_reconcileNormal ms r s awsMachineTemplate clusterName
    namespace role :
  MReconcileRole ∈ ms → MReconcileRolesForIRSA ∈ ms →
  steps (withinMethods ms) false false
    (reconcileNormal r s awsMachineTemplate clusterName namespace role).
Proof.
  intros Hm1 Hm2. rewrite reconcileNormal_phases.
  apply steps_bind; [unfold reconcileNormal_finalizer; within_k8s|].
  intros _. by apply steps_within_reconcileNormal_roles.
Qed.

Lemma steps_within_reconcileDelete ms r s awsMachineTemplate clusterName
    namespace role :
  MDeleteRole ∈ ms → MDeleteRolesForIRSA ∈ ms →
  steps (withinMethods ms) false false
    (reconcileDelete r s awsMachineTemplate clusterName namespace role).
Proof.
  intros Hm1 Hm2. unfold reconcileDelete.
  apply steps_bind.
  { eapply steps_weaken; [| | |apply (steps_within_isRoleUsedElsewhere ms)];
      done. }
  intros roleUsed. apply steps_bind.
  { apply steps_if; [|apply steps_ret]. apply steps_bind.
    - eapply steps_weaken; [| | |by apply (steps_within_DeleteRole ms)]; done.
    - intros _. repeat apply steps_if; try apply steps_ret.
      eapply steps_weaken; [| | |by apply (steps_within_DeleteRolesForIRSA ms)];
        done. }
  intros _. within_k8s.
Qed.

Lemma since_after_first w w1 w2 ev t :
  trace w1 = trace w ++ [ev] → trace w2 = trace w1 ++ t →
  since w w2 = ev :: t.
Proof.
  intros H1 H2. apply since_app. rewrite H2, H1. by rewrite <- app_assoc.
Qed.

(** [Reconcile] tears down only for a template that is being deleted: for
    a template without a deletion timestamp it never calls [DeleteRole] or
    [DeleteRolesForIRSA], and for one with a deletion timestamp it never
    calls [ReconcileRole] or [ReconcileRolesForIRSA], whatever fails. *)
Theorem Reconcile_tears_down_only_when_deleting
    (GetClusterIDFromLabels : ObjectMeta → result string)
    (HasCapiWatchLabel IsControlPlaneAWSMachineTemplate
       IsBastionAWSMachineTemplate : gmap string string → bool)
    (New : iam.IAMServiceConfig → result iam.IAMService)
    (r : AWSMachineTemplateReconciler) (req : string * string) (w : World)
    (awsMachineTemplate : Object) :
  objects w !! (AWSMachineTemplate, req) = Some awsMachineTemplate →
  Forall
    (withinMethods
       (if isDeleting awsMachineTemplate
        then [MDeleteRole; MDeleteRolesForIRSA]
        else [MReconcileRole; MReconcileRolesForIRSA]))
    (since w (AWSMachineTemplateReconciler_Reconcile GetClusterIDFromLabels
                HasCapiWatchLabel IsControlPlaneAWSMachineTemplate
                IsBastionAWSMachineTemplate New r req w).2).
Proof.
  intros Ho.
  destruct (faults w (length (trace w)) (ClientGet (AWSMachineTemplate, req)))
    as [e|] eqn:Hf.
  { rewrite (Reconcile_get_fails _ _ _ _ _ _ _ _ e) by done. cbn [snd].
    rewrite (since_app _ _ [Called (ClientGet (AWSMachineTemplate, req)) (Some e)])
      by done.
    by apply Forall_singleton. }
  unfold AWSMachineTemplateReconciler_Reconcile.
  rewrite run_bind. unfold try.
  rewrite (run_Get_found _ awsMachineTemplate) by done.
  set (ms := if isDeleting awsMachineTemplate
             then [MDeleteRole; MDeleteRolesForIRSA]
             else [MReconcileRole; MReconcileRolesForIRSA]).
  match goal with
  | |- Forall _ (since w (?k ?w1).2) =>
      assert (Hk : steps (withinMethods ms) false false k)
  end.
  { repeat first
      [ apply steps_ret
      | apply steps_bind; [apply steps_wrapped, steps_liftResult|intros ?]
      | apply steps_bind; [within_k8s|intros ?]
      | apply steps_bind; [apply steps_within_external|intros ?]
      | apply steps_bind; [apply steps_liftResult|intros ?]
      | match goal with
        | |- steps _ _ _ (if isDeleting _ then _ else _) =>
            unfold ms; destruct (isDeleting awsMachineTemplate);
            [ apply steps_within_reconcileDelete; elem_solve
            | apply steps_within_reconcileNormal; elem_solve ]
        | |- steps _ _ _ (if ?b then _ else _) => destruct b
        | |- steps _ _ _ (match ?x with _ => _ end) => destruct x
        end ].
  }
  match goal with
  | |- Forall _ (since w (?k ?w1).2) =>
      destruct (Hk w1) as [_ (t & Ht & HP)];
      rewrite (since_after_first w w1 (k w1).2
                 (Called (ClientGet (AWSMachineTemplate, req)) None) t)
        by done
  end.
  by constructor.
Qed.

(** *** The finalizer comes first *)

Lemma precedes_quiet guard (Q : Event → Prop) t :
  Forall (λ ev, ¬ Q ev) t → precedes guard Q t.
Proof.
  intros Hq pre ev post -> HQ. exfalso.
  apply Forall_app in Hq as [_ Hq]. apply Forall_cons in Hq as [Hq _]. done.
Qed.

Lemma precedes_guarded guard (Q : Event → Prop) t1 t2 :
  Forall (λ ev, ¬ Q ev) t1 → guard ∈ t1 → precedes guard Q (t1 ++ t2).
Proof.
  intros Hq Hin pre ev post Heq HQ.
  destruct (prefix_before Q t1 t2 pre post ev Heq Hq HQ) as (pre' & -> & _).
  apply elem_of_app. by left.
Qed.

Lemma isK8sCall_not_iam ev : isK8sCall ev → ¬ isIamEvent ev.
Proof. destruct ev as [[] ?| | |]; cbn; intros H1 H2; done. Qed.

Lemma run_wrapped {A} (m : M A) w :
  wrapped m w = match m w with
                | (Ok a, w') => (Ok a, w')
                | (Err e, w') => (Err (Wrap e), w')
                end.
Proof. reflexivity. Qed.

Lemma run_Patch_sent h o w :
  GetFinalizers (beforeObject h) ≠ GetFinalizers o →
  Patch h o w
  = match clientPatch o w with
    | (Ok o', w') => (Ok o', w')
    | (Err e, w') => (Err (Aggregate [e]), w')
    end.
Proof.
  intros Hne. unfold Patch. rewrite bool_decide_eq_false_2 by done.
  rewrite run_bind. unfold try. by destruct (clientPatch o w) as [[?|?] ?].
Qed.

(** A patch request that succeeds: the stored object takes the finalizers
    sent, or goes when it was being deleted and none is left. *)
Lemma run_clientPatch_ok o w o' w' :
  clientPatch o w = (Ok o', w') →
  ∃ cur objs,
    objects w !! ObjectKeyFromObject o = Some cur
    ∧ o' = SetFinalizers cur (GetFinalizers o)
    ∧ w' = record (Called (ClientPatch (ObjectKeyFromObject o)
                             (GetFinalizers o)) None) (setObjects objs w)
    ∧ (isDeleting cur = false ∨ GetFinalizers o ≠ [] →
       objs = <[ObjectKeyFromObject o := o']> (objects w))
    ∧ (isDeleting cur = true → GetFinalizers o = [] →
       objs = delete (ObjectKeyFromObject o) (objects w)).
Proof.
  unfold clientPatch, invoke.
  destruct (faults w _ _) as [e|]; [done|].
  destruct (objects w !! ObjectKeyFromObject o) as [cur|]; [|done].
  destruct (isDeleting cur && negb _); [done|].
  destruct (isDeleting cur) eqn:Hd; cbn [andb].
  - case_bool_decide as Hf; cbn; intros [= <- <-]; eexists cur, _;
      (split_and!; [done|done|done| |]); try done.
    intros [?|Hne]; [congruence|by destruct Hne].
  - cbn. intros [= <- <-]. eexists cur, _.
    split_and!; [done|done|done|done|congruence].
Qed.

Lemma GetFinalizers_AddFinalizer o f :
  ContainsFinalizer o f = false →
  GetFinalizers (AddFinalizer o f) = GetFinalizers o ++ [f].
Proof. intros Hc. unfold AddFinalizer. by rewrite Hc. Qed.

Lemma ObjectKey_AddFinalizer o f :
  ObjectKeyFromObject (AddFinalizer o f) = ObjectKeyFromObject o.
Proof. unfold AddFinalizer. by destruct (ContainsFinalizer o f). Qed.

(** The first phase of [reconcileNormal] when it succeeds on a template
    without the finalizer: the patch helper, then the patch request with
    the finalizer appended, which the API server accepted. *)
Lemma reconcileNormal_finalizer_added awsMachineTemplate w w' :
  ContainsFinalizer awsMachineTemplate controlPlaneFinalizer = false →
  reconcileNormal_finalizer awsMachineTemplate w = (Ok tt, w') →
  ∃ cur,
    objects w !! ObjectKeyFromObject awsMachineTemplate = Some cur
    ∧ w' = record (Called (ClientPatch (ObjectKeyFromObject awsMachineTemplate)
                             (GetFinalizers awsMachineTemplate
                              ++ [controlPlaneFinalizer])) None)
             (setObjects
                (<[ObjectKeyFromObject awsMachineTemplate :=
                     SetFinalizers cur
                       (GetFinalizers awsMachineTemplate
                        ++ [controlPlaneFinalizer])]> (objects w))
                (record (Called (PatchNewHelper
                                   (ObjectKeyFromObject awsMachineTemplate))
                           None) w)).
Proof.
  intros Hc. unfold reconcileNormal_finalizer. fold controlPlaneFinalizer.
  rewrite Hc. cbn [negb]. rewrite run_bind, run_wrapped. unfold NewHelper, invoke.
  destruct (faults w _ _) as [e|]; [done|]. cbn [fst snd].
  rewrite run_bind, run_wrapped.
  rewrite run_Patch_sent; cycle 1.
  { cbn [beforeObject]. rewrite GetFinalizers_AddFinalizer by done.
    intros Heq. apply (f_equal length) in Heq. rewrite length_app in Heq.
    cbn in Heq. lia. }
  destruct (clientPatch _ _) as [[o'|e] w1] eqn:Hp; [|done].
  intros [= <-].
  apply run_clientPatch_ok in Hp as (cur & objs & Hcur & -> & -> & Hobjs & _).
  rewrite ObjectKey_AddFinalizer in *.
  rewrite GetFinalizers_AddFinalizer in * by done.
  exists cur. split; [exact Hcur|]. rewrite Hobjs; [done|]. right.
  intros Heq. apply (f_equal length) in Heq. rewrite length_app in Heq.
  cbn in Heq. lia.
Qed.

Lemma steps_k8s_reconcileNormal_finalizer awsMachineTemplate :
  steps isK8sCall false true (reconcileNormal_finalizer awsMachineTemplate).
Proof. unfold reconcileNormal_finalizer. steps_go. Qed.

Lemma run_GetAWSClusterByName_listed clusterName w awsCluster w' :
  key.GetAWSClusterByName clusterName w = (Ok awsCluster, w') →
  w' = record (Called (ClientList AWSCluster
                         [(key.ClusterNameLabel, clusterName)]) None) w.
Proof.
  unfold key.GetAWSClusterByName, List. rewrite run_bind. unfold invoke.
  destruct (faults w _ _) as [e|]; [done|]. cbn [fst snd].
  destruct (filter _ _) as [|item [|item' items]]; cbn; try done.
  by intros [= _ <-].
Qed.

Lemma steps_any_reconcileNormal_roles r s awsMachineTemplate clusterName
    namespace role :
  steps (withinMethods [MReconcileRole; MReconcileRolesForIRSA]) false false
    (reconcileNormal_roles r s awsMachineTemplate clusterName namespace role).
Proof. apply steps_within_reconcileNormal_roles; elem_solve. Qed.

(** [reconcileNormal] touches IAM only once the finalizer is in place and
    the AWSCluster is known: whatever fails, every IAM call and every
    call of a method of the IAM service comes after the successful list of
    the AWSClusters of the cluster and, for a template that did not carry
    the finalizer, after the patch request that adds it was accepted. *)
Theorem reconcileNormal_guards_remote_calls
    (r : AWSMachineTemplateReconciler) (iamService : iam.IAMService)
    (awsMachineTemplate : Object) (clusterName namespace role : string)
    (w : World) :
  precedes
    (Called (ClientList AWSCluster [(key.ClusterNameLabel, clusterName)]) None)
    isIamEvent
    (since w (reconcileNormal r iamService awsMachineTemplate clusterName
                namespace role w).2)
  ∧ (ContainsFinalizer awsMachineTemplate controlPlaneFinalizer = false →
     precedes
       (Called (ClientPatch (ObjectKeyFromObject awsMachineTemplate)
                  (GetFinalizers awsMachineTemplate ++ [controlPlaneFinalizer]))
          None)
       isIamEvent
       (since w (reconcileNormal r iamService awsMachineTemplate clusterName
                   namespace role w).2)).
Proof.
  rewrite reconcileNormal_phases, run_bind.
  destruct (steps_k8s_reconcileNormal_finalizer awsMachineTemplate w)
    as [_ (t1 & Ht1 & HP1)].
  assert (HQ1 : Forall (λ ev, ¬ isIamEvent ev) t1).
  { eapply Forall_impl; [exact HP1|]. apply isK8sCall_not_iam. }
  destruct (reconcileNormal_finalizer awsMachineTemplate w) as [[[]|e] w1] eqn:H1;
    cbn [fst snd] in *.
  2:{ rewrite (since_app _ _ t1) by done. split; [|intros _];
        by apply precedes_quiet. }
  unfold reconcileNormal_roles. rewrite run_bind, run_wrapped.
  destruct (key.GetAWSClusterByName clusterName w1) as [[awsCluster|e] w2] eqn:H2.
  2:{ destruct (steps_GetAWSClusterByName clusterName w1) as [_ (t2 & Ht2 & HP2)].
      rewrite H2 in Ht2. cbn [snd] in *.
      rewrite (since_app _ _ (t1 ++ t2)) by (by rewrite Ht2, Ht1, app_assoc).
      split; [|intros _]; apply precedes_quiet, Forall_app; split; try done;
        (eapply Forall_impl; [exact HP2|]; apply isK8sCall_not_iam). }
  apply run_GetAWSClusterByName_listed in H2 as ->.
  set (listed := Called (ClientList AWSCluster
                           [(key.ClusterNameLabel, clusterName)]) None).
  match goal with
  | |- context [since w (?k ?w2).2] =>
      assert (Hk : steps (λ _, True) false false k)
  end.
  { apply steps_bind.
    - eapply steps_weaken; [| | |apply steps_iam_ReconcileRole]; done.
    - intros _. repeat apply steps_if; try apply steps_ret.
      eapply steps_weaken;
        [| | |apply (steps_within_reconcileNormal_irsa [MReconcileRolesForIRSA])];
        try done. elem_solve. }
  match goal with
  | |- context [since w (?k ?w2).2] =>
      destruct (Hk w2) as [_ (t3 & Ht3 & _)];
      rewrite (since_app w (k w2).2 ((t1 ++ [listed]) ++ t3))
        by (rewrite Ht3; cbn [trace record]; rewrite Ht1;
            by rewrite <- !app_assoc)
  end.
  assert (HQ : Forall (λ ev, ¬ isIamEvent ev) (t1 ++ [listed])).
  { apply Forall_app. split; [done|]. apply Forall_singleton. by intros ?. }
  split.
  - apply precedes_guarded; [done|]. apply elem_of_app. right.
    apply list_elem_of_here.
  - intros Hc. apply precedes_guarded; [done|].
    destruct (reconcileNormal_finalizer_added _ _ _ Hc H1) as (cur & _ & Hw1).
    apply elem_of_app. left.
    assert (Ht : t1 = [Called (PatchNewHelper
                                 (ObjectKeyFromObject awsMachineTemplate)) None;
                       Called (ClientPatch
                                 (ObjectKeyFromObject awsMachineTemplate)
                                 (GetFinalizers awsMachineTemplate
                                  ++ [controlPlaneFinalizer])) None]).
    { apply (app_inv_head (trace w)). rewrite <- Ht1, Hw1. cbn.
      by rewrite <- app_assoc. }
    rewrite Ht. apply list_elem_of_further, list_elem_of_here.
Qed.

(** *** The store after the reconcile of a live template *)

Lemma steps_quiet_GetAWSClusterByName clusterName :
  steps isQuietCall true true (key.GetAWSClusterByName clusterName).
Proof.
  unfold key.GetAWSClusterByName. apply steps_bind.
  - apply steps_invoke; [done|]. intros w. split; [apply frame_refl|done].
  - intros items. apply steps_if; [apply steps_fail|].
    destruct items; [apply steps_fail|apply steps_ret].
Qed.

Lemma isIamEvent_sendsNoPatch ev : isIamEvent ev → sendsNoPatch ev.
Proof. destruct ev as [[] ?| | |]; done. Qed.

Lemma steps_noPatch_quiet {A} (m : M A) :
  steps isQuietCall true true m → steps sendsNoPatch true false m.
Proof.
  apply steps_weaken; [apply isQuietCall_not_patch|done|done].
Qed.

Lemma steps_noPatch_iam {A} (m : M A) :
  steps isIamEvent true false m → steps sendsNoPatch true false m.
Proof.
  apply steps_weaken; [apply isIamEvent_sendsNoPatch|done|done].
Qed.

Lemma steps_noPatch_reconcileNormal_roles r s awsMachineTemplate clusterName
    namespace role :
  steps sendsNoPatch true false
    (reconcileNormal_roles r s awsMachineTemplate clusterName namespace role).
Proof.
  unfold reconcileNormal_roles, reconcileNormal_irsa.
  apply steps_bind.
  { apply steps_wrapped, steps_noPatch_quiet, steps_quiet_GetAWSClusterByName. }
  intros awsCluster. apply steps_bind.
  { apply steps_noPatch_iam, steps_iam_ReconcileRole. }
  intros _. repeat apply steps_if; try apply steps_ret.
  apply steps_bind.
  { apply steps_wrapped, steps_noPatch_quiet, steps_quiet_Get. }
  intros identity. apply steps_bind.
  { by apply steps_wrapped, steps_noPatch_quiet, steps_quiet_external. }
  intros accountID. apply steps_bind.
  { by apply steps_wrapped, steps_noPatch_quiet, steps_quiet_external. }
  intros baseDomain. apply steps_bind; [apply steps_helper|]. intros irsaDomain.
  apply steps_bind; [apply steps_helper|]. intros oldIrsaDomain.
  apply steps_bind; [|intros _; apply steps_ret].
  apply steps_wrapped, steps_noPatch_iam, steps_iam_ReconcileRolesForIRSA.
Qed.

(** [reconcileNormal] and the finalizer of the template.  A template that
    carries the finalizer is never patched and the store stays as it is,
    whatever fails.  A stored template that is not being deleted and does
    not carry it gets it by exactly one patch request, appended to its
    finalizers, and nothing else in the store changes, whatever then
    happens to the roles. *)
Theorem reconcileNormal_finalizer_kept_or_added
    (r : AWSMachineTemplateReconciler) (iamService : iam.IAMService)
    (awsMachineTemplate : Object) (clusterName namespace role : string)
    (w : World) :
  (ContainsFinalizer awsMachineTemplate controlPlaneFinalizer = true →
   count isPatchCall
     (since w (reconcileNormal r iamService awsMachineTemplate clusterName
                 namespace role w).2) = 0
   ∧ objects (reconcileNormal r iamService awsMachineTemplate clusterName
                namespace role w).2 = objects w)
  ∧ (ContainsFinalizer awsMachineTemplate controlPlaneFinalizer = false →
     noFaults w →
     objects w !! ObjectKeyFromObject awsMachineTemplate
     = Some awsMachineTemplate →
     isDeleting awsMachineTemplate = false →
     count isPatchCall
       (since w (reconcileNormal r iamService awsMachineTemplate clusterName
                   namespace role w).2) = 1
     ∧ objects (reconcileNormal r iamService awsMachineTemplate clusterName
                  namespace role w).2
       = <[ObjectKeyFromObject awsMachineTemplate :=
             SetFinalizers awsMachineTemplate
               (GetFinalizers awsMachineTemplate ++ [controlPlaneFinalizer])]>
           (objects w)).
Proof.
  rewrite reconcileNormal_phases, run_bind. split.
  - intros Hc. unfold reconcileNormal_finalizer. fold controlPlaneFinalizer.
    rewrite Hc. cbn [negb mret M_ret].
    destruct (steps_noPatch_reconcileNormal_roles r iamService
                awsMachineTemplate clusterName namespace role w)
      as [(_ & _ & Ho & _) (t & Ht & HP)].
    rewrite (since_app _ _ t) by done. split; [by apply count_none|].
    by apply Ho.
  - intros Hc Hf Hs Hd.
    assert (H1 : reconcileNormal_finalizer awsMachineTemplate w
                 = (Ok tt,
                    record (Called (ClientPatch
                                      (ObjectKeyFromObject awsMachineTemplate)
                                      (GetFinalizers awsMachineTemplate
                                       ++ [controlPlaneFinalizer])) None)
                      (setObjects
                         (<[ObjectKeyFromObject awsMachineTemplate :=
                              SetFinalizers awsMachineTemplate
                                (GetFinalizers awsMachineTemplate
                                 ++ [controlPlaneFinalizer])]> (objects w))
                         (record (Called (PatchNewHelper
                                            (ObjectKeyFromObject
                                               awsMachineTemplate)) None) w)))).
    { unfold reconcileNormal_finalizer. fold controlPlaneFinalizer.
      rewrite Hc. cbn [negb]. rewrite run_bind, run_wrapped.
      rewrite run_NewHelper by apply Hf. rewrite run_bind, run_wrapped.
      rewrite run_Patch_sent; cycle 1.
      { cbn [beforeObject]. rewrite GetFinalizers_AddFinalizer by done.
        intros Heq. apply (f_equal length) in Heq. rewrite length_app in Heq.
        cbn in Heq. lia. }
      unfold clientPatch. rewrite run_invoke_sem by apply Hf.
      rewrite ObjectKey_AddFinalizer, GetFinalizers_AddFinalizer by done.
      cbn [objects record]. rewrite Hs, Hd. cbn [andb fst snd]. done. }
    rewrite H1.
    match goal with
    | |- context [reconcileNormal_roles _ _ _ _ _ _ ?w1] =>
        destruct (steps_noPatch_reconcileNormal_roles r iamService
                    awsMachineTemplate clusterName namespace role w1)
          as [(_ & _ & Ho & _) (t & Ht & HP)];
        rewrite (since_app w
                   (reconcileNormal_roles r iamService awsMachineTemplate
                      clusterName namespace role w1).2
                   ([Called (PatchNewHelper
                               (ObjectKeyFromObject awsMachineTemplate)) None;
                     Called (ClientPatch
                               (ObjectKeyFromObject awsMachineTemplate)
                               (GetFinalizers awsMachineTemplate
                                ++ [controlPlaneFinalizer])) None] ++ t))
          by (rewrite Ht; cbn; by rewrite <- !app_assoc)
    end.
    split.
    + rewrite count_app, (count_none _ t) by done. reflexivity.
    + by rewrite Ho.
Qed.

Lemma reconcileNormal_finalizer_kept_or_added_witness :
  GetFinalizers templateC = []
  ∧ (reconcileNormal sampleReconciler sampleService templateC "test-cluster"
       sampleNamespace iam.ControlPlaneRole liveWorld).1 = Ok emptyResult
  ∧ objects (reconcileNormal sampleReconciler sampleService templateC
               "test-cluster" sampleNamespace iam.ControlPlaneRole liveWorld).2
      !! ObjectKeyFromObject templateC
    = Some (SetFinalizers templateC [controlPlaneFinalizer]).
Proof.
  split; [reflexivity|]. split; [vm_compute; reflexivity|].
  destruct (reconcileNormal_finalizer_kept_or_added sampleReconciler
              sampleService templateC "test-cluster" sampleNamespace
              iam.ControlPlaneRole liveWorld) as [_ H].
  destruct H as [_ Ho]; [reflexivity|by intros ? ?|vm_compute; reflexivity
                        |reflexivity|].
  rewrite Ho. apply lookup_insert_eq.
Defined.

(** *** The roles of a live template *)

(** Without the IRSA roles, that is for a role other than control-plane or
    with the Route53 role disabled, a run of [reconcileNormal] is calls of
    the Kubernetes client, then at most one [ReconcileRole]; nothing else
    is called, and the result is the one of [ReconcileRole]: success with
    an empty result, or its error as it is. *)
Theorem reconcileNormal_without_irsa
    (r : AWSMachineTemplateReconciler) (iamService : iam.IAMService)
    (awsMachineTemplate : Object) (clusterName namespace role : string)
    (w : World) :
  role ≠ iam.ControlPlaneRole ∨ EnableRoute53Role r = false →
  ∃ t1 tb,
    Forall isK8sCall t1 ∧ Forall isIamCall tb
    ∧ ((since w (reconcileNormal r iamService awsMachineTemplate clusterName
                   namespace role w).2 = t1
        ∧ ∃ e, (reconcileNormal r iamService awsMachineTemplate clusterName
                  namespace role w).1 = Err e)
       ∨ ∃ err,
           since w (reconcileNormal r iamService awsMachineTemplate clusterName
                      namespace role w).2
           = t1 ++ Enter MReconcileRole :: tb ++ [Leave MReconcileRole err]
           ∧ (reconcileNormal r iamService awsMachineTemplate clusterName
                namespace role w).1
             = match err with
               | None => Ok emptyResult
               | Some e => Err e
               end).
Proof.
  intros Hgate. rewrite reconcileNormal_phases, run_bind.
  destruct (steps_k8s_reconcileNormal_finalizer awsMachineTemplate w)
    as [_ (t1 & Ht1 & HP1)].
  destruct (reconcileNormal_finalizer awsMachineTemplate w) as [[[]|e] w1];
    cbn [fst snd] in *.
  2:{ exists t1, []. split_and!; [done|done|]. left.
      split; [by apply since_app|by exists e]. }
  unfold reconcileNormal_roles. rewrite run_bind, run_wrapped.
  destruct (steps_GetAWSClusterByName clusterName w1) as [_ (t2 & Ht2 & HP2)].
  destruct (key.GetAWSClusterByName clusterName w1) as [[awsCluster|e] w2];
    cbn [fst snd] in *.
  2:{ exists (t1 ++ t2), []. split_and!; [by apply Forall_app|done|]. left.
      split; [|by eexists]. apply since_app. by rewrite Ht2, Ht1, app_assoc. }
  rewrite run_bind. unfold iam.ReconcileRole.
  match goal with
  | |- context [iam.method MReconcileRole ?b w2] => set (body := b)
  end.
  assert (Hb : steps isIamCall true false body) by (unfold body; steps_go).
  destruct (method_shape MReconcileRole body w2 Hb) as (tb & Htb & HPb & _).
  exists (t1 ++ t2), tb. split_and!; [by apply Forall_app|done|]. right.
  destruct (iam.method MReconcileRole body w2) as [[[]|e] w3];
    cbn [fst snd errOf] in *.
  - exists None.
    assert (Hres : (if bool_decide (role = iam.ControlPlaneRole)
                    then if EnableRoute53Role r
                         then reconcileNormal_irsa iamService awsMachineTemplate
                                awsCluster clusterName namespace
                         else mret emptyResult
                    else mret emptyResult) w3 = (Ok emptyResult, w3)).
    { case_bool_decide as Hr; [|done].
      destruct Hgate as [Hg|Hg]; [done|]. by rewrite Hg. }
    rewrite Hres. cbn [fst snd]. split; [|done].
    apply since_app. rewrite Htb, Ht2, Ht1. by rewrite <- !app_assoc.
  - exists (Some e). cbn [fst snd]. split; [|done].
    apply since_app. rewrite Htb, Ht2, Ht1. by rewrite <- !app_assoc.
Qed.

Lemma reconcileNormal_without_irsa_witness :
  ∃ t1 tb,
    since liveWorld
      (reconcileNormal sampleReconciler sampleService templateC "test-cluster"
         sampleNamespace iam.BastionRole liveWorld).2
    = t1 ++ Enter MReconcileRole :: tb ++ [Leave MReconcileRole None]
    ∧ (reconcileNormal sampleReconciler sampleService templateC "test-cluster"
         sampleNamespace iam.BastionRole liveWorld).1 = Ok emptyResult.
Proof.
  destruct (reconcileNormal_without_irsa sampleReconciler sampleService
              templateC "test-cluster" sampleNamespace iam.BastionRole
              liveWorld) as (t1 & tb & _ & _ & [[_ [e He]]|[err [Ht Hr]]]).
  - left. intros [=].
  - exfalso. revert He. vm_compute. intros [=].
  - exists t1, tb.
    assert (Hok : (reconcileNormal sampleReconciler sampleService templateC
                     "test-cluster" sampleNamespace iam.BastionRole
                     liveWorld).1 = Ok emptyResult)
      by (vm_compute; reflexivity).
    rewrite Hok in Hr. destruct err as [e|]; [discriminate Hr|].
    split; [exact Ht|exact Hok].
Defined.

(** *** The teardown of a template that is being deleted *)

Lemma not_at_Forall {A} (Q : A → Prop) (l pre post : list A) ev :
  Forall (λ x, ¬ Q x) l → l = pre ++ ev :: post → Q ev → False.
Proof.
  intros Hl -> HQ. apply Forall_app in Hl as [_ Hl].
  apply Forall_cons in Hl as [Hl _]. done.
Qed.

Lemma isIamCall_not_enter m ev : isIamCall ev → ev ≠ Enter m.
Proof. by destruct ev. Qed.

Lemma isK8sCall_not_enter m ev : isK8sCall ev → ev ≠ Enter m.
Proof. by destruct ev. Qed.

(** In [reconcileDelete] the IRSA roles are torn down only after the main
    role: a call of [DeleteRolesForIRSA] is made only for the control-plane
    role with the Route53 role enabled, after the guard answered that the
    role is not used elsewhere and after [DeleteRole] returned success. *)
Theorem reconcileDelete_irsa_teardown_follows_role
    (r : AWSMachineTemplateReconciler) (iamService : iam.IAMService)
    (awsMachineTemplate : Object) (clusterName namespace role : string)
    (w : World) (pre post : list Event) :
  since w (reconcileDelete r iamService awsMachineTemplate clusterName
             namespace role w).2
  = pre ++ Enter MDeleteRolesForIRSA :: post →
  role = iam.ControlPlaneRole ∧ EnableRoute53Role r = true
  ∧ RoleUsed false ∈ pre ∧ Leave MDeleteRole None ∈ pre.
Proof.
  destruct (reconcileDelete_run r iamService awsMachineTemplate clusterName
              namespace role w) as (t & t2 & Ht & Htd & HP2 & _).
  rewrite (since_app _ _ (t ++ t2)) by done. intros Heq.
  set (Q := λ ev : Event, ev = Enter MDeleteRolesForIRSA).
  assert (Hk : Forall (λ ev, ¬ Q ev) t2).
  { eapply Forall_impl; [exact HP2|]. intros ev. apply isK8sCall_not_enter. }
  assert (Hi : ∀ l, Forall isIamCall l → Forall (λ ev, ¬ Q ev) l).
  { intros l Hl. eapply Forall_impl; [exact Hl|]. intros ev.
    apply isIamCall_not_enter. }
  remember (reconcileDelete_teardown r iamService awsMachineTemplate role w).1
    as res0 eqn:Hres0. clear Hres0. revert Heq.
  destruct Htd as [e|
                   |e td Htd1
                   |td Htd1 Hno
                   |td ti res Htd1 Hti1 Hrole Hen]; intros Heq.
  - exfalso. eapply (not_at_Forall Q); [|exact Heq|done].
    apply Forall_app. split; [|done]. by repeat constructor.
  - exfalso. eapply (not_at_Forall Q); [|exact Heq|done].
    apply Forall_app. split; [|done]. by repeat constructor.
  - exfalso. eapply (not_at_Forall Q); [|exact Heq|done].
    rewrite !Forall_app. split_and!; try done; auto; by repeat constructor.
  - exfalso. eapply (not_at_Forall Q); [|exact Heq|done].
    rewrite !Forall_app. split_and!; try done; auto; by repeat constructor.
  - split; [done|]. split; [done|].
    assert (Heq' :
      ([Called (ClientList AWSMachineTemplate []) None; RoleUsed false;
        Enter MDeleteRole] ++ td ++ [Leave MDeleteRole None])
      ++ (Enter MDeleteRolesForIRSA :: ti
          ++ [Leave MDeleteRolesForIRSA (errOf res)] ++ t2)
      = pre ++ Enter MDeleteRolesForIRSA :: post).
    { rewrite <- Heq. cbn. rewrite <- !app_assoc. cbn.
      by rewrite <- !app_assoc. }
    destruct (prefix_before Q _ _ pre post _ Heq') as (pre' & -> & _);
      [|done|].
    { rewrite !Forall_app. split_and!; auto; by repeat constructor. }
    split; elem_solve.
Qed.


Lemma reconcileDelete_irsa_teardown_follows_role_witness :
  RoleUsed false
  ∈ take 9 (since deletionWorld
              (reconcileDelete sampleReconciler sampleService templateA
                 "test-cluster" sampleNamespace iam.ControlPlaneRole
                 deletionWorld).2)
  ∧ Leave MDeleteRole None
    ∈ take 9 (since deletionWorld
                (reconcileDelete sampleReconciler sampleService templateA
                   "test-cluster" sampleNamespace iam.ControlPlaneRole
                   deletionWorld).2).
Proof.
  set (t := since deletionWorld
              (reconcileDelete sampleReconciler sampleService templateA
                 "test-cluster" sampleNamespace iam.ControlPlaneRole
                 deletionWorld).2).
  assert (Heq : t = take 9 t ++ Enter MDeleteRolesForIRSA :: drop 10 t).
  { vm_compute. reflexivity. }
  destruct (reconcileDelete_irsa_teardown_follows_role sampleReconciler
              sampleService templateA "test-cluster" sampleNamespace
              iam.ControlPlaneRole deletionWorld (take 9 t) (drop 10 t) Heq)
    as (_ & _ & H1 & H2).
  split; assumption.
Defined.

(** *** Without the AWSCluster nothing is released *)

Lemma clustersNamed_objects clusterName w w' :
  objects w' = objects w → clustersNamed clusterName w' = clustersNamed clusterName w.
Proof. intros H. unfold clustersNamed. by rewrite H. Qed.

Lemma GetAWSClusterByName_not_one clusterName w :
  length (clustersNamed clusterName w) ≠ 1 →
  ∃ e err,
    key.GetAWSClusterByName clusterName w
    = (Err e,
       record (Called (ClientList AWSCluster
                         [(key.ClusterNameLabel, clusterName)]) err) w).
Proof.
  intros Hn. unfold key.GetAWSClusterByName, List. rewrite run_bind.
  unfold invoke. destruct (faults w _ _) as [e|]; [by eexists _, _|].
  cbn [fst snd]. fold (clustersNamed clusterName w).
  destruct (clustersNamed clusterName w) as [|item [|item' items]];
    cbn in *; try done; by eexists _, _.
Qed.

(** [reconcileDelete] releases nothing unless it finds the AWSCluster: when
    the list for the cluster name does not yield exactly one AWSCluster,
    the reconcile returns an error, sends no patch request and leaves every
    object, the finalizer of the template included, as it was, whatever
    else fails or succeeds, the teardown of the role included. *)
Theorem reconcileDelete_needs_the_cluster
    (r : AWSMachineTemplateReconciler) (iamService : iam.IAMService)
    (awsMachineTemplate : Object) (clusterName namespace role : string)
    (w : World) :
  length (clustersNamed clusterName w) ≠ 1 →
  (∃ e, (reconcileDelete r iamService awsMachineTemplate clusterName namespace
           role w).1 = Err e)
  ∧ count isPatchCall
      (since w (reconcileDelete r iamService awsMachineTemplate clusterName
                  namespace role w).2) = 0
  ∧ objects (reconcileDelete r iamService awsMachineTemplate clusterName
               namespace role w).2 = objects w.
Proof.
  intros Hn. rewrite reconcileDelete_phases, run_bind.
  destruct (teardown_run r iamService awsMachineTemplate role w)
    as (t & Ht & Htd & Ho & _).
  pose proof (teardownTrace_no_patch _ _ _ _ Htd) as Hnp.
  destruct (reconcileDelete_teardown r iamService awsMachineTemplate role w)
    as [[[]|e] w1]; cbn [fst snd] in *.
  2:{ split; [by exists e|]. rewrite (since_app _ _ t) by done.
      split; [by apply count_none|done]. }
  rewrite run_bind. unfold reconcileDelete_finalizers. rewrite run_bind.
  destruct (GetAWSClusterByName_not_one clusterName w1) as (e & err & Hrun).
  { by rewrite (clustersNamed_objects _ w). }
  rewrite Hrun. cbn [fst snd]. split; [by exists e|].
  rewrite (since_app _ _ (t ++ [Called (ClientList AWSCluster
                                          [(key.ClusterNameLabel, clusterName)])
                                  err]))
    by (cbn; by rewrite Ht, app_assoc).
  split; [|done]. rewrite count_app, (count_none _ t) by done. reflexivity.
Qed.

Lemma reconcileDelete_needs_the_cluster_witness :
  (reconcileDelete sampleReconciler sampleService templateA "test-cluster"
     sampleNamespace iam.ControlPlaneRole orphanWorld).1
  = Err (Errorf "expected 1 AWSCluster but found 0")
  ∧ objects (reconcileDelete sampleReconciler sampleService templateA
               "test-cluster" sampleNamespace iam.ControlPlaneRole
               orphanWorld).2 = objects orphanWorld
  ∧ Roles (iam (reconcileDelete sampleReconciler sampleService templateA
                  "test-cluster" sampleNamespace iam.ControlPlaneRole
                  orphanWorld).2) !! sampleRoleName = None.
Proof.
  split; [vm_compute; reflexivity|]. split; [|vm_compute; reflexivity].
  apply (reconcileDelete_needs_the_cluster sampleReconciler sampleService
           templateA "test-cluster" sampleNamespace iam.ControlPlaneRole
           orphanWorld).
  vm_compute. intros [=].
Defined.

(** ** The loop of removeFinalizer *)

Lemma noFaults_record ev w : noFaults w → noFaults (record ev w).
Proof. intros H n op. apply H. Qed.

Lemma noFaults_setObjects objs w : noFaults w → noFaults (setObjects objs w).
Proof. intros H n op. apply H. Qed.

(** Once the finalizer is gone the loop only takes its snapshots: every
    remaining iteration finds nothing to send. *)
Lemma removeFinalizerLoop_idle remaining :
  ∀ i object w,
    (∀ n k, faults w n (PatchNewHelper k) = None) →
    ContainsFinalizer object controlPlaneFinalizer = false →
    removeFinalizerLoop remaining i object w
    = (Ok tt, {| objects := objects w; iam := iam w;
                 trace := trace w
                          ++ replicate remaining
                               (Called (PatchNewHelper
                                          (ObjectKeyFromObject object)) None);
                 history := history w; faults := faults w;
                 answers := answers w |}).
Proof.
  induction remaining as [|remaining IH]; intros i object w Hf Hc.
  - cbn. rewrite app_nil_r. by destruct w.
  - cbn [removeFinalizerLoop]. rewrite run_bind. unfold wrapped at 1.
    rewrite run_NewHelper by apply Hf. rewrite run_bind. unfold try at 1.
    rewrite run_Patch_nothing; cycle 1.
    { cbn [beforeObject]. rewrite GetFinalizers_RemoveFinalizer.
      symmetry. apply filter_ne_id. by apply ContainsFinalizer_false. }
    cbn [errOf FilterOut].
    rewrite (bool_decide_eq_false_2 (is_Some None)) by apply is_Some_None.
    cbn [andb]. fold controlPlaneFinalizer.
    rewrite IH; [|apply Hf|apply ContainsFinalizer_RemoveFinalizer].
    cbn. by rewrite <- app_assoc.
Qed.

(** An iteration on a fresh copy of the stored object: the patch request
    is accepted and the remaining iterations are idle. *)
Lemma removeFinalizerLoop_fresh remaining i object w :
  noFaults w →
  objects w !! ObjectKeyFromObject object = Some object →
  ContainsFinalizer object controlPlaneFinalizer = true →
  removeFinalizerLoop (S remaining) i object w
  = (Ok tt, {| objects := released object (objects w); iam := iam w;
               trace := trace w
                        ++ [Called (PatchNewHelper (ObjectKeyFromObject object))
                              None;
                            Called (ClientPatch (ObjectKeyFromObject object)
                                      (filter (λ f, f ≠ controlPlaneFinalizer)
                                         (GetFinalizers object))) None]
                        ++ replicate remaining
                             (Called (PatchNewHelper
                                        (ObjectKeyFromObject object)) None);
               history := history w; faults := faults w;
               answers := answers w |}).
Proof.
  intros Hf Ho Hc. unfold released. rewrite Hc.
  set (new := RemoveFinalizer object controlPlaneFinalizer).
  assert (Hnew : ContainsFinalizer new controlPlaneFinalizer = false)
    by apply ContainsFinalizer_RemoveFinalizer.
  set (objs' := if isDeleting object && bool_decide (GetFinalizers new = [])
                then delete (ObjectKeyFromObject object) (objects w)
                else <[ObjectKeyFromObject object := new]> (objects w)).
  rewrite removeFinalizerLoop_S.
  rewrite run_bind. unfold wrapped at 1. rewrite run_NewHelper by apply Hf.
  rewrite run_bind. unfold try at 1. unfold Patch.
  fold new.
  rewrite bool_decide_eq_false_2; cycle 1.
  { cbn [beforeObject]. unfold new. rewrite GetFinalizers_RemoveFinalizer.
    intros Heq. symmetry in Heq. revert Heq. apply filter_ne_changes.
    by apply ContainsFinalizer_true. }
  rewrite run_bind. unfold try at 1, clientPatch.
  rewrite run_invoke_sem by apply Hf.
  cbn [objects record].
  replace (ObjectKeyFromObject new) with (ObjectKeyFromObject object)
    by reflexivity.
  rewrite Ho.
  replace (forallb _ (GetFinalizers new)) with true
    by (symmetry; apply forallb_filter_subset).
  cbn [negb]. rewrite andb_false_r.
  replace (SetFinalizers object (GetFinalizers new)) with new by reflexivity.
  fold objs'.
  assert (Hrun :
    (if isDeleting object && bool_decide (GetFinalizers new = [])
     then (Ok new, setObjects (delete (ObjectKeyFromObject object) (objects w))
                     (record (Called (PatchNewHelper (ObjectKeyFromObject object)) None) w))
     else (Ok new, setObjects (<[ObjectKeyFromObject object := new]> (objects w))
                     (record (Called (PatchNewHelper (ObjectKeyFromObject object)) None) w)))
    = (Ok new, setObjects objs'
                 (record (Called (PatchNewHelper (ObjectKeyFromObject object)) None) w))).
  { unfold objs'. by destruct (_ && _). }
  rewrite Hrun. cbn [fst snd errOf FilterOut mret M_ret].
  rewrite (bool_decide_eq_false_2 (is_Some None)) by apply is_Some_None.
  cbn [andb].
  rewrite removeFinalizerLoop_idle; [|intros; apply Hf|done].
  cbn. by rewrite <- !app_assoc.
Qed.

(** [removeFinalizer] on a fresh copy of a stored object that carries the
    finalizer, when nothing fails: it succeeds with one patch request that
    sends the finalizers without the one of the controller, the store
    holds the object without it (or no longer holds the object, if it was
    being deleted and this was its last finalizer), IAM is untouched, and
    the loop, which does not stop at the success, spends its remaining
    iterations on snapshots of the patch helper that find nothing to
    send.  Running it again on the result sends nothing. *)
Theorem removeFinalizer_removes_once (object : Object) (w : World) :
  noFaults w →
  objects w !! ObjectKeyFromObject object = Some object →
  ContainsFinalizer object controlPlaneFinalizer = true →
  (removeFinalizer object w).1 = Ok tt
  ∧ since w (removeFinalizer object w).2
    = [Called (PatchNewHelper (ObjectKeyFromObject object)) None;
       Called (ClientPatch (ObjectKeyFromObject object)
                 (filter (λ f, f ≠ controlPlaneFinalizer)
                    (GetFinalizers object))) None]
      ++ replicate (maxPatchRetries - 1)
           (Called (PatchNewHelper (ObjectKeyFromObject object)) None)
  ∧ count isPatchCall (since w (removeFinalizer object w).2) = 1
  ∧ objects (removeFinalizer object w).2 = released object (objects w)
  ∧ iam (removeFinalizer object w).2 = iam w
  ∧ removeFinalizer (RemoveFinalizer object controlPlaneFinalizer)
      (removeFinalizer object w).2
    = (Ok tt, (removeFinalizer object w).2).
Proof.
  intros Hf Ho Hc. rewrite removeFinalizer_eq, Hc. cbn [negb].
  change maxPatchRetries with 5. rewrite removeFinalizerLoop_fresh by done.
  cbn [fst snd]. split; [done|].
  match goal with
  | |- since w ?w' = ?t ∧ _ =>
      assert (Hs : since w w' = t) by (by apply since_app); rewrite Hs
  end.
  split; [done|]. split; [reflexivity|].
  split; [done|]. split; [done|].
  rewrite removeFinalizer_eq, ContainsFinalizer_RemoveFinalizer. done.
Qed.

Lemma removeFinalizer_removes_once_witness :
  objects (removeFinalizer sampleCluster
             (sampleWorld sampleStore sampleIam noFault)).2
    !! ObjectKeyFromObject sampleCluster
  = Some (RemoveFinalizer sampleCluster controlPlaneFinalizer)
  ∧ count isPatchCall
      (since (sampleWorld sampleStore sampleIam noFault)
         (removeFinalizer sampleCluster
            (sampleWorld sampleStore sampleIam noFault)).2) = 1.
Proof.
  destruct (removeFinalizer_removes_once sampleCluster
              (sampleWorld sampleStore sampleIam noFault))
    as (_ & _ & Hn & Ho & _).
  - by intros ? ?.
  - vm_compute. reflexivity.
  - reflexivity.
  - split; [|exact Hn]. rewrite Ho. vm_compute. reflexivity.
Defined.

(** *** Recovery from a stale copy *)

Lemma forallb_stale (f : string) (l l' : list string) :
  f ∈ l' → f ∉ l → forallb (λ x, bool_decide (x ∈ l)) l' = false.
Proof.
  intros Hin Hn. apply not_true_is_false. intros Hall.
  rewrite forallb_forall in Hall.
  specialize (Hall f (proj1 (list_elem_of_In _ _) Hin)).
  by apply bool_decide_eq_true in Hall.
Qed.

Lemma removeFinalizer_stale_run (object stored : Object) (stale : string)
    (w : World) :
  noFaults w →
  objects w !! ObjectKeyFromObject object = Some stored →
  ObjectKeyFromObject stored = ObjectKeyFromObject object →
  isDeleting stored = true →
  ContainsFinalizer object controlPlaneFinalizer = true →
  ContainsFinalizer stored controlPlaneFinalizer = true →
  stale ∈ GetFinalizers object → stale ≠ controlPlaneFinalizer →
  stale ∉ GetFinalizers stored →
  removeFinalizer object w
  = (Ok tt,
     {| objects := released stored (objects w); iam := iam w;
        trace := trace w
                 ++ [Called (PatchNewHelper (ObjectKeyFromObject object)) None;
                     Called (ClientPatch (ObjectKeyFromObject object)
                               (filter (λ f, f ≠ controlPlaneFinalizer)
                                  (GetFinalizers object)))
                       (Some (StatusError StatusReasonInvalid));
                     Called (ClientGet (ObjectKeyFromObject object)) None;
                     Called (PatchNewHelper (ObjectKeyFromObject object)) None;
                     Called (ClientPatch (ObjectKeyFromObject object)
                               (filter (λ f, f ≠ controlPlaneFinalizer)
                                  (GetFinalizers stored))) None]
                 ++ replicate 3
                      (Called (PatchNewHelper (ObjectKeyFromObject object))
                         None);
        history := history w; faults := faults w; answers := answers w |}).
Proof.
  intros Hf Ho Hk Hd Hc Hcs Hin Hne Hout.
  rewrite removeFinalizer_eq, Hc. cbn [negb]. change maxPatchRetries with 5.
  rewrite removeFinalizerLoop_S.
  rewrite run_bind. unfold wrapped at 1. rewrite run_NewHelper by apply Hf.
  rewrite run_bind. unfold try at 1.
  set (new := RemoveFinalizer object controlPlaneFinalizer).
  rewrite run_Patch_sent; cycle 1.
  { cbn [beforeObject]. unfold new. rewrite GetFinalizers_RemoveFinalizer.
    intros Heq. symmetry in Heq. revert Heq. apply filter_ne_changes.
    by apply ContainsFinalizer_true. }
  unfold clientPatch. rewrite run_invoke_sem by apply Hf.
  cbn [objects record].
  replace (ObjectKeyFromObject new) with (ObjectKeyFromObject object)
    by reflexivity.
  rewrite Ho, Hd.
  rewrite (forallb_stale stale); [|
    unfold new; rewrite GetFinalizers_RemoveFinalizer;
    by apply list_elem_of_filter | done].
  cbn [andb negb fst snd errOf].
  change (bool_decide (is_Some (FilterOut
            (Some (Aggregate [StatusError StatusReasonInvalid]))
            (λ err, negb (IsInvalid err)))))
    with (retryable (Aggregate [StatusError StatusReasonInvalid])).
  rewrite retryable_status, bool_decide_eq_true_2 by done.
  rewrite (bool_decide_eq_true_2 (1 < 5)) by lia. cbn [andb].
  rewrite run_bind. unfold wrapped at 1.
  replace (ObjectKeyFromObject new) with (ObjectKeyFromObject object)
    by reflexivity.
  rewrite (run_Get_found _ stored); [|apply Hf|exact Ho].
  rewrite removeFinalizerLoop_fresh;
    [|by repeat apply noFaults_record|by rewrite Hk|done].
  cbn [fst snd objects record trace iam history faults answers]. rewrite Hk.
  unfold new. rewrite GetFinalizers_RemoveFinalizer.
  f_equal. f_equal. cbn. by rewrite <- !app_assoc.
Qed.

(** The case the comment in [removeFinalizer] describes.  The copy in hand
    still lists a finalizer that another controller has removed from the
    stored object, which is being deleted: the first patch request would
    add that finalizer back and is rejected as invalid (422); the loop
    reads the object again and the second request, computed from the fresh
    copy, is accepted.  Two patch requests and one read are made, and the
    store ends as if the fresh copy had been patched at once. *)
Theorem removeFinalizer_recovers_from_stale_copy
    (object stored : Object) (stale : string) (w : World) :
  noFaults w →
  objects w !! ObjectKeyFromObject object = Some stored →
  ObjectKeyFromObject stored = ObjectKeyFromObject object →
  isDeleting stored = true →
  ContainsFinalizer object controlPlaneFinalizer = true →
  ContainsFinalizer stored controlPlaneFinalizer = true →
  stale ∈ GetFinalizers object → stale ≠ controlPlaneFinalizer →
  stale ∉ GetFinalizers stored →
  (removeFinalizer object w).1 = Ok tt
  ∧ since w (removeFinalizer object w).2
    = [Called (PatchNewHelper (ObjectKeyFromObject object)) None;
       Called (ClientPatch (ObjectKeyFromObject object)
                 (filter (λ f, f ≠ controlPlaneFinalizer)
                    (GetFinalizers object)))
         (Some (StatusError StatusReasonInvalid));
       Called (ClientGet (ObjectKeyFromObject object)) None;
       Called (PatchNewHelper (ObjectKeyFromObject object)) None;
       Called (ClientPatch (ObjectKeyFromObject object)
                 (filter (λ f, f ≠ controlPlaneFinalizer)
                    (GetFinalizers stored))) None]
      ++ replicate (maxPatchRetries - 2)
           (Called (PatchNewHelper (ObjectKeyFromObject object)) None)
  ∧ objects (removeFinalizer object w).2 = released stored (objects w).
Proof.
  intros Hf Ho Hk Hd Hc Hcs Hin Hne Hout.
  rewrite (removeFinalizer_stale_run object stored stale) by done.
  cbn [fst snd]. split; [done|]. split; [|done]. by apply since_app.
Qed.

Lemma removeFinalizer_recovers_from_stale_copy_witness :
  (removeFinalizer staleTemplateA deletionWorld).1 = Ok tt
  ∧ count isPatchCall
      (since deletionWorld (removeFinalizer staleTemplateA deletionWorld).2)
    = 2
  ∧ objects (removeFinalizer staleTemplateA deletionWorld).2
      !! ObjectKeyFromObject templateA = None.
Proof.
  destruct (removeFinalizer_recovers_from_stale_copy staleTemplateA templateA
              staleFinalizer deletionWorld) as (Hr & Ht & Ho).
  - by intros ? ?.
  - vm_compute. reflexivity.
  - reflexivity.
  - reflexivity.
  - reflexivity.
  - reflexivity.
  - apply list_elem_of_here.
  - intros [=].
  - vm_compute. intros H. apply list_elem_of_singleton in H. discriminate H.
  - split; [exact Hr|]. split; [rewrite Ht; reflexivity|].
    rewrite Ho. vm_compute. reflexivity.
Defined.

(** ** AWSManagedControlPlaneReconciler.Reconcile: outcomes *)

Lemma masked_ret {A} (Q : A → Prop) (a : A) : Q a → masked Q (mret a).
Proof. by intros H w. Qed.

Lemma masked_fail {A} (Q : A → Prop) e : masked Q (@fail A (Wrap e)).
Proof. intros w. by exists e. Qed.

Lemma masked_wrapped {A} (m : M A) : masked (λ _, True) (wrapped m).
Proof. intros w. rewrite run_wrapped. destruct (m w) as [[a|e] w']; cbn; eauto. Qed.

Lemma masked_bind {A B} (Q : B → Prop) (m : M A) (f : A → M B) :
  masked (λ _, True) m → (∀ a, masked Q (f a)) → masked Q (m ≫= f).
Proof.
  intros Hm Hf w. rewrite run_bind. specialize (Hm w).
  destruct (m w) as [[a|e] w']; cbn in *; [apply Hf|done].
Qed.

Lemma masked_try_bind {A B} (Q : B → Prop) (m : M A) (f : result A → M B) :
  (∀ r, masked Q (f r)) → masked Q (try m ≫= f).
Proof.
  intros Hf w. rewrite run_bind. unfold try.
  destruct (m w) as [r w']. apply Hf.
Qed.

Lemma masked_if {A} (Q : A → Prop) (b : bool) (m1 m2 : M A) :
  masked Q m1 → masked Q m2 → masked Q (if b then m1 else m2).
Proof. by destruct b. Qed.

Lemma masked_weaken {A} (Q Q' : A → Prop) (m : M A) :
  (∀ a, Q a → Q' a) → masked Q m → masked Q' m.
Proof.
  intros HQ Hm w. specialize (Hm w). destruct ((m w).1); [by apply HQ|done].
Qed.

(** Decomposes a goal [masked Q m] whose steps are wrapped calls. *)
Ltac masked_go :=
  repeat first
    [ apply masked_wrapped
    | apply masked_fail
    | apply masked_bind; [|intros ?]
    | apply masked_if
    | match goal with
      | |- masked _ (match ?x with _ => _ end) => destruct x
      end ].

Lemma masked_managed_branch iamService eksCluster awsClusterRoleIdentity
    roleName :
  masked (λ _, True)
    (if isDeleting eksCluster
     then deleteManagedControlPlane iamService eksCluster
     else reconcileManagedControlPlane iamService eksCluster
            awsClusterRoleIdentity roleName).
Proof.
  unfold deleteManagedControlPlane, reconcileManagedControlPlane.
  masked_go; by apply masked_ret.
Qed.

(** The outcomes of [AWSManagedControlPlaneReconciler.Reconcile]: every
    error it returns is masked, and a success carries an empty result, a
    requeue after one minute, or an immediate requeue; for a control plane
    it handles (read without failure, with the watch label and a role
    name) every success is an immediate requeue, after a deletion as
    after a reconcile. *)
Theorem ManagedControlPlane_Reconcile_outcomes
    (GetClusterIDFromLabels : ObjectMeta → result string)
    (HasCapiWatchLabel : gmap string string → bool)
    (New : iam.IAMServiceConfig → result iam.IAMService)
    (req : string * string) (w : World) :
  match (AWSManagedControlPlaneReconciler_Reconcile GetClusterIDFromLabels
           HasCapiWatchLabel New req w).1 with
  | Ok res =>
      res = emptyResult
      ∨ res = {| Requeue := true; RequeueAfter := Minute |}
      ∨ res = {| Requeue := true; RequeueAfter := 0 |}
  | Err e => ∃ e', e = Wrap e'
  end
  ∧ ∀ eksCluster roleName res,
      faults w (length (trace w)) (ClientGet (AWSManagedControlPlane, req))
      = None →
      objects w !! (AWSManagedControlPlane, req) = Some eksCluster →
      HasCapiWatchLabel (Labels (ObjMeta eksCluster)) = true →
      SpecRoleName eksCluster = Some roleName →
      (AWSManagedControlPlaneReconciler_Reconcile GetClusterIDFromLabels
         HasCapiWatchLabel New req w).1 = Ok res →
      res = {| Requeue := true; RequeueAfter := 0 |}.
Proof.
  split.
  - revert w.
    change (masked (λ res, res = emptyResult
                           ∨ res = {| Requeue := true; RequeueAfter := Minute |}
                           ∨ res = {| Requeue := true; RequeueAfter := 0 |})
              (AWSManagedControlPlaneReconciler_Reconcile
                 GetClusterIDFromLabels HasCapiWatchLabel New req)).
    unfold AWSManagedControlPlaneReconciler_Reconcile.
    apply masked_try_bind. intros [eksCluster|err].
    2:{ apply masked_if; [apply masked_ret; by left|apply masked_fail]. }
    apply masked_bind; [apply masked_wrapped|]. intros clusterName.
    apply masked_if; [apply masked_ret; by left|].
    destruct (SpecRoleName eksCluster) as [roleName|];
      [|apply masked_ret; right; by left].
    apply masked_bind; [apply masked_wrapped|]. intros identity.
    apply masked_bind; [apply masked_wrapped|]. intros _.
    apply masked_bind; [apply masked_wrapped|]. intros _.
    apply masked_bind; [apply masked_wrapped|]. intros iamService.
    apply masked_bind; [|intros _; apply masked_ret; right; by right].
    apply (masked_managed_branch iamService eksCluster identity roleName).
  - intros eksCluster roleName res Hf Ho Hl Hr.
    unfold AWSManagedControlPlaneReconciler_Reconcile.
    rewrite run_bind. unfold try. rewrite (run_Get_found _ eksCluster) by done.
    match goal with
    | |- (?k ?w1).1 = _ → _ =>
        assert (Hk : masked (λ res, res = {| Requeue := true; RequeueAfter := 0 |}) k)
    end.
    { apply masked_bind; [apply masked_wrapped|]. intros clusterName.
      rewrite Hl, Hr. cbn [negb].
      apply masked_bind; [apply masked_wrapped|]. intros identity.
      apply masked_bind; [apply masked_wrapped|]. intros _.
      apply masked_bind; [apply masked_wrapped|]. intros _.
      apply masked_bind; [apply masked_wrapped|]. intros iamService.
      apply masked_bind; [|intros _; by apply masked_ret].
      apply (masked_managed_branch iamService eksCluster identity roleName). }
    match goal with
    | |- (?k ?w1).1 = _ → _ => intros Hres; specialize (Hk w1)
    end.
    by rewrite Hres in Hk.
Qed.

(** [AWSManagedControlPlaneReconciler.Reconcile] never calls
    [ReconcileRole] or [DeleteRole], the methods of the IAM service that
    create and tear down its main role: whatever the object and the
    failures, of the four methods whose entry and return the trace records
    it enters only [DeleteRolesForIRSA] and [ReconcileRolesForIRSA].  Its
    other uses of the service ([GetIRSAOpenIDURlForEKS], [GetRoleARN],
    [SetPrincipalRoleARN]) are a call of EKS, a read of IAM and a setter,
    and are not methods in this sense. *)
Theorem ManagedControlPlane_Reconcile_leaves_main_role
    (GetClusterIDFromLabels : ObjectMeta → result string)
    (HasCapiWatchLabel : gmap string string → bool)
    (New : iam.IAMServiceConfig → result iam.IAMService)
    (req : string * string) (w : World) :
  Forall (withinMethods [MDeleteRolesForIRSA; MReconcileRolesForIRSA])
    (since w (AWSManagedControlPlaneReconciler_Reconcile GetClusterIDFromLabels
                HasCapiWatchLabel New req w).2).
Proof.
  assert (Hk : steps (withinMethods [MDeleteRolesForIRSA; MReconcileRolesForIRSA])
                 false false
                 (AWSManagedControlPlaneReconciler_Reconcile
                    GetClusterIDFromLabels HasCapiWatchLabel New req)).
  { unfold AWSManagedControlPlaneReconciler_Reconcile.
    repeat first
      [ apply steps_ret
      | apply steps_fail
      | apply steps_bind; [apply steps_wrapped, steps_liftResult|intros ?]
      | apply steps_bind; [within_k8s|intros ?]
      | apply steps_bind; [apply steps_wrapped, steps_within_external|intros ?]
      | apply steps_bind;
          [apply steps_wrapped;
           eapply steps_weaken;
             [| | |apply (steps_within_DeleteRolesForIRSA
                            [MDeleteRolesForIRSA; MReconcileRolesForIRSA])];
             [done|done|done|elem_solve]
          |intros ?]
      | apply steps_bind;
          [apply steps_wrapped; unfold iam.GetRoleARN;
           eapply (steps_weaken isIamCall _ true false);
             [apply isIamCall_within|done|done|solve [steps_go]]
          |intros ?]
      | apply steps_wrapped;
          eapply steps_weaken;
            [| | |apply (steps_within_ReconcileRolesForIRSA
                           [MDeleteRolesForIRSA; MReconcileRolesForIRSA])];
            [done|done|done|elem_solve]
      | apply steps_bind; [|intros ?]
      | match goal with
        | |- steps _ _ _ (if ?b then _ else _) => destruct b
        | |- steps _ _ _ (match ?x with _ => _ end) => destruct x
        end ]. }
  destruct (Hk w) as [_ (t & Ht & HP)]. by rewrite (since_app _ _ t).
Qed.

Lemma Reconcile_tears_down_only_when_deleting_witness :
  Forall (withinMethods [MDeleteRole; MDeleteRolesForIRSA])
    (since handledWorld
       (AWSMachineTemplateReconciler_Reconcile sampleGetClusterIDFromLabels
          sampleHasCapiWatchLabel sampleIsControlPlaneAWSMachineTemplate
          sampleIsBastionAWSMachineTemplate sampleNew sampleReconciler
          (sampleNamespace, "test-cluster-control-plane-a") handledWorld).2)
  ∧ since handledWorld
      (AWSMachineTemplateReconciler_Reconcile sampleGetClusterIDFromLabels
         sampleHasCapiWatchLabel sampleIsControlPlaneAWSMachineTemplate
         sampleIsBastionAWSMachineTemplate sampleNew sampleReconciler
         (sampleNamespace, "test-cluster-control-plane-a") handledWorld).2
      !! 6 = Some (Enter MDeleteRole).
Proof.
  split; [|vm_compute; reflexivity].
  assert (Ho : objects handledWorld
                 !! (AWSMachineTemplate,
                     (sampleNamespace, "test-cluster-control-plane-a"))
               = Some controlPlaneTemplateA) by (vm_compute; reflexivity).
  pose proof (Reconcile_tears_down_only_when_deleting
                sampleGetClusterIDFromLabels sampleHasCapiWatchLabel
                sampleIsControlPlaneAWSMachineTemplate
                sampleIsBastionAWSMachineTemplate sampleNew sampleReconciler
                (sampleNamespace, "test-cluster-control-plane-a") handledWorld
                controlPlaneTemplateA Ho) as H.
  assert (Hd : isDeleting controlPlaneTemplateA = true) by reflexivity.
  rewrite Hd in H. exact H.
Defined.

(** ** What comes first *)

Lemma guardedBy_quiet {A} guard (Q : Event → Prop) ko ki (m : M A) :
  steps (λ ev, ¬ Q ev) ko ki m → guardedBy guard Q m.
Proof.
  intros Hm w. destruct (Hm w) as [_ (t & Ht & HP)]. exists t.
  split; [done|]. intros pre ev post Heq HQ. exfalso.
  by eapply (not_at_Forall Q).
Qed.

(** A prefix without events of [Q], then a guarded continuation. *)
Lemma guardedBy_bind {A B} guard (Q : Event → Prop) ko ki (m : M A)
    (f : A → M B) :
  steps (λ ev, ¬ Q ev) ko ki m → (∀ a, guardedBy guard Q (f a)) →
  guardedBy guard Q (m ≫= f).
Proof.
  intros Hm Hf w. rewrite run_bind.
  destruct (Hm w) as [_ (t1 & Ht1 & HP1)].
  destruct (m w) as [[a|e] w1]; cbn [fst snd] in *.
  - destruct (Hf a w1) as (t2 & Ht2 & Hg). exists (t1 ++ t2).
    split; [by rewrite Ht2, Ht1, app_assoc|].
    intros pre ev post Heq HQ.
    destruct (prefix_before Q t1 t2 pre post ev Heq HP1 HQ) as (pre' & -> & Heq').
    destruct (Hg pre' ev post Heq' HQ) as (g & Hin & HG).
    exists g. split; [|done]. apply elem_of_app. by right.
  - exists t1. split; [done|]. intros pre ev post Heq HQ. exfalso.
    by eapply (not_at_Forall Q).
Qed.

(** A prefix without events of [Q] that leaves the guard in the trace
    whenever it succeeds, then anything. *)
Lemma guardedBy_pass {A B} (guard : Event → Prop) (Q : Event → Prop) ko ki
    (m : M A) (f : A → M B) :
  steps (λ ev, ¬ Q ev) ko ki m →
  (∀ w a w1, m w = (Ok a, w1) → ∃ g, g ∈ since w w1 ∧ guard g) →
  (∀ a, steps (λ _, True) false false (f a)) →
  guardedBy guard Q (m ≫= f).
Proof.
  intros Hm Hg Hf w. rewrite run_bind.
  destruct (Hm w) as [_ (t1 & Ht1 & HP1)].
  specialize (Hg w).
  destruct (m w) as [[a|e] w1]; cbn [fst snd] in *.
  - destruct (Hf a w1) as [_ (t2 & Ht2 & _)]. exists (t1 ++ t2).
    split; [by rewrite Ht2, Ht1, app_assoc|].
    intros pre ev post Heq HQ.
    destruct (prefix_before Q t1 t2 pre post ev Heq HP1 HQ) as (pre' & -> & _).
    destruct (Hg a w1 eq_refl) as (g & Hin & HG).
    rewrite (since_app _ _ t1) in Hin by done.
    exists g. split; [|done]. apply elem_of_app. by left.
  - exists t1. split; [done|]. intros pre ev post Heq HQ. exfalso.
    by eapply (not_at_Forall Q).
Qed.

Lemma guardedBy_if {A} guard Q (b : bool) (m1 m2 : M A) :
  guardedBy guard Q m1 → guardedBy guard Q m2 →
  guardedBy guard Q (if b then m1 else m2).
Proof. by destruct b. Qed.

Lemma guardedBy_since {A} guard Q (m : M A) w pre ev post :
  guardedBy guard Q m → since w (m w).2 = pre ++ ev :: post → Q ev →
  ∃ g, g ∈ pre ∧ guard g.
Proof.
  intros Hm Heq HQ. destruct (Hm w) as (t & Ht & Hg).
  rewrite (since_app _ _ t) in Heq by done. by eapply Hg.
Qed.

Lemma withinMethods_not_irsa ms ev :
  MReconcileRolesForIRSA ∉ ms → withinMethods ms ev → ¬ entersIRSA ev.
Proof. intros Hn Hw ->. by apply Hn. Qed.

Lemma isK8sCall_not_irsa ev : isK8sCall ev → ¬ entersIRSA ev.
Proof. by intros H ->. Qed.

Lemma isQuietCall_not_irsa ev : isQuietCall ev → ¬ entersIRSA ev.
Proof. by intros H ->. Qed.

Lemma isIamCall_not_irsa ev : isIamCall ev → ¬ entersIRSA ev.
Proof. by intros H ->. Qed.

Lemma steps_k8s_not_irsa {A} (m : M A) :
  steps isK8sCall false true m → steps (λ ev, ¬ entersIRSA ev) false true m.
Proof. apply steps_weaken; [apply isK8sCall_not_irsa|done|done]. Qed.

Lemma not_elem_of_singleton_method (m m' : Method) : m ≠ m' → m ∉ [m'].
Proof. intros Hne Hin. apply list_elem_of_singleton in Hin. done. Qed.

(** *** reconcileNormal: the IRSA roles after the main role *)

Lemma ReconcileRole_left s w w1 :
  iam.ReconcileRole s w = (Ok tt, w1) →
  Leave MReconcileRole None ∈ since w w1.
Proof.
  unfold iam.ReconcileRole.
  match goal with
  | |- iam.method MReconcileRole ?b w = _ → _ => set (body := b)
  end.
  assert (Hb : steps isIamCall true false body) by (unfold body; steps_go).
  destruct (method_shape MReconcileRole body w Hb) as (t & Ht & _).
  intros Hrun. rewrite Hrun in Ht. cbn [fst snd errOf] in Ht.
  rewrite (since_app _ _ _ Ht).
  apply list_elem_of_further, elem_of_app. right. apply list_elem_of_here.
Qed.

Lemma steps_within_reconcileNormal_gated r s awsMachineTemplate clusterName
    namespace role :
  ¬ (role = iam.ControlPlaneRole ∧ EnableRoute53Role r = true) →
  steps (withinMethods [MReconcileRole]) false false
    (reconcileNormal r s awsMachineTemplate clusterName namespace role).
Proof.
  intros Hno. rewrite reconcileNormal_phases.
  apply steps_bind; [unfold reconcileNormal_finalizer; within_k8s|].
  intros _. unfold reconcileNormal_roles.
  apply steps_bind; [within_k8s|]. intros awsCluster.
  apply steps_bind.
  { eapply steps_weaken;
      [| | |apply (steps_within_ReconcileRole [MReconcileRole])];
      [done|done|done|elem_solve]. }
  intros _. case_bool_decide as Hr; [|apply steps_ret].
  destruct (EnableRoute53Role r); [|apply steps_ret]. by destruct Hno.
Qed.

(** The source notes that the Route53 role depends on the KIAM role:
    [reconcileNormal] calls [ReconcileRolesForIRSA] only after
    [ReconcileRole] returned success, whatever fails. *)
Theorem reconcileNormal_irsa_follows_role
    (r : AWSMachineTemplateReconciler) (iamService : iam.IAMService)
    (awsMachineTemplate : Object) (clusterName namespace role : string)
    (w : World) (pre post : list Event) :
  since w (reconcileNormal r iamService awsMachineTemplate clusterName
             namespace role w).2
  = pre ++ Enter MReconcileRolesForIRSA :: post →
  Leave MReconcileRole None ∈ pre
  ∧ role = iam.ControlPlaneRole ∧ EnableRoute53Role r = true.
Proof.
  intros Heq. split.
  - assert (Hg : guardedBy (λ g, g = Leave MReconcileRole None) entersIRSA
                   (reconcileNormal r iamService awsMachineTemplate clusterName
                      namespace role)).
    { rewrite reconcileNormal_phases.
      eapply guardedBy_bind.
      { apply steps_k8s_not_irsa, steps_k8s_reconcileNormal_finalizer. }
      intros _. unfold reconcileNormal_roles.
      eapply guardedBy_bind.
      { apply steps_k8s_not_irsa. steps_go. }
      intros awsCluster. eapply guardedBy_pass.
      - eapply steps_weaken;
          [| | |apply (steps_within_ReconcileRole [MReconcileRole])];
          [|done|done|elem_solve].
        intros ev. apply withinMethods_not_irsa.
        by apply not_elem_of_singleton_method.
      - intros w0 [] w1 Hrun. eexists. split; [|reflexivity].
        by apply (ReconcileRole_left iamService).
      - intros _. repeat apply steps_if; try apply steps_ret.
        eapply steps_weaken;
          [| | |apply (steps_within_reconcileNormal_irsa
                         [MReconcileRolesForIRSA])]; try done.
        elem_solve. }
    destruct (guardedBy_since _ _ _ _ _ _ _ Hg Heq eq_refl) as (g & Hin & ->).
    exact Hin.
  - destruct (decide (role = iam.ControlPlaneRole ∧ EnableRoute53Role r = true))
      as [Hyes|Hno]; [done|]. exfalso.
    destruct (steps_within_reconcileNormal_gated r iamService awsMachineTemplate
                clusterName namespace role Hno w) as [_ (t & Ht & HP)].
    rewrite (since_app _ _ t) in Heq by done.
    eapply (not_at_Forall entersIRSA); [|exact Heq|done].
    eapply Forall_impl; [exact HP|]. intros ev. apply withinMethods_not_irsa.
    by apply not_elem_of_singleton_method.
Qed.

Lemma reconcileNormal_irsa_follows_role_witness :
  since rotationWorld
    (reconcileNormal sampleReconciler sampleService templateB "test-cluster"
       sampleNamespace iam.ControlPlaneRole rotationWorld).2 !! 10
  = Some (Enter MReconcileRolesForIRSA)
  ∧ Leave MReconcileRole None
    ∈ take 10 (since rotationWorld
                 (reconcileNormal sampleReconciler sampleService templateB
                    "test-cluster" sampleNamespace iam.ControlPlaneRole
                    rotationWorld).2).
Proof.
  split; [vm_compute; reflexivity|].
  assert (Heq : since rotationWorld
                  (reconcileNormal sampleReconciler sampleService templateB
                     "test-cluster" sampleNamespace iam.ControlPlaneRole
                     rotationWorld).2
                = take 10 (since rotationWorld
                             (reconcileNormal sampleReconciler sampleService
                                templateB "test-cluster" sampleNamespace
                                iam.ControlPlaneRole rotationWorld).2)
                  ++ Enter MReconcileRolesForIRSA
                  :: drop 11 (since rotationWorld
                                (reconcileNormal sampleReconciler sampleService
                                   templateB "test-cluster" sampleNamespace
                                   iam.ControlPlaneRole rotationWorld).2)).
  { vm_compute. reflexivity. }
  exact (proj1 (reconcileNormal_irsa_follows_role sampleReconciler
                  sampleService templateB "test-cluster" sampleNamespace
                  iam.ControlPlaneRole rotationWorld _ _ Heq)).
Defined.

(** *** AWSManagedControlPlaneReconciler: what comes before the IRSA roles *)

(** A guarded computation, then a continuation without events of [Q]. *)
Lemma guardedBy_then {A B} guard (Q : Event → Prop) ko ki (m : M A)
    (f : A → M B) :
  guardedBy guard Q m → (∀ a, steps (λ ev, ¬ Q ev) ko ki (f a)) →
  guardedBy guard Q (m ≫= f).
Proof.
  intros Hm Hf w. rewrite run_bind. destruct (Hm w) as (t1 & Ht1 & Hg).
  destruct (m w) as [[a|e] w1]; cbn [fst snd] in *; [|by exists t1].
  destruct (Hf a w1) as [_ (t2 & Ht2 & HP2)]. exists (t1 ++ t2).
  split; [by rewrite Ht2, Ht1, app_assoc|].
  intros pre ev post Heq HQ.
  apply app_eq_app in Heq as [l [[-> Heq]|[-> ->]]].
  - destruct l as [|e l]; cbn in Heq.
    + subst t2. exfalso. apply Forall_cons in HP2 as [HP2 _]. done.
    + injection Heq as <- ->. by apply (Hg pre ev l).
  - exfalso. apply Forall_app in HP2 as [_ HP2].
    apply Forall_cons in HP2 as [HP2 _]. done.
Qed.

Lemma GetRoleARN_read roleName w arn w1 :
  iam.GetRoleARN roleName w = (Ok arn, w1) →
  Called (IamGetRole roleName) None ∈ since w w1.
Proof.
  unfold iam.GetRoleARN. rewrite run_bind. unfold iamiface.GetRole.
  rewrite run_invokeIam. destruct (faults w _ _) as [e|]; [done|].
  destruct (Roles (iam w) !! roleName) as [role|]; [|done].
  cbn. intros [= _ <-].
  rewrite (since_app _ _ [Called (IamGetRole roleName) None]) by done.
  apply list_elem_of_here.
Qed.

Lemma add_finalizer_sent o f w w' :
  ContainsFinalizer o f = false →
  (patchHelper ← wrapped (NewHelper o);
   _ ← wrapped (Patch patchHelper (AddFinalizer o f));
   mret tt) w = (Ok tt, w') →
  Called (ClientPatch (ObjectKeyFromObject o) (GetFinalizers o ++ [f])) None
  ∈ since w w'.
Proof.
  intros Hc. rewrite run_bind, run_wrapped. unfold NewHelper, invoke.
  destruct (faults w _ _) as [e|]; [done|]. cbn [fst snd].
  rewrite run_bind, run_wrapped.
  rewrite run_Patch_sent; cycle 1.
  { cbn [beforeObject]. rewrite GetFinalizers_AddFinalizer by done.
    intros Heq. apply (f_equal length) in Heq. rewrite length_app in Heq.
    cbn in Heq. lia. }
  destruct (clientPatch _ _) as [[o'|e] w1] eqn:Hp; [|done].
  intros [= <-].
  apply run_clientPatch_ok in Hp as (cur & objs & Hcur & -> & -> & _).
  rewrite ObjectKey_AddFinalizer, GetFinalizers_AddFinalizer by done.
  rewrite (since_app _ _
             [Called (PatchNewHelper (ObjectKeyFromObject o)) None;
              Called (ClientPatch (ObjectKeyFromObject o)
                        (GetFinalizers o ++ [f])) None])
    by (cbn; by rewrite <- app_assoc).
  apply list_elem_of_further, list_elem_of_here.
Qed.

Lemma steps_any_ReconcileRolesForIRSA s a d o :
  steps (λ _, True) false false (wrapped (iam.ReconcileRolesForIRSA s a d o)).
Proof.
  apply steps_wrapped.
  eapply steps_weaken; [| | |apply steps_iam_ReconcileRolesForIRSA]; done.
Qed.

Lemma steps_not_irsa_external op ko ki :
  steps (λ ev, ¬ entersIRSA ev) ko ki (wrapped (external op)).
Proof.
  apply steps_wrapped.
  eapply (steps_weaken _ _ true true); [| | |apply steps_external]; done.
Qed.

Lemma steps_not_irsa_GetRoleARN roleName :
  steps (λ ev, ¬ entersIRSA ev) true false (wrapped (iam.GetRoleARN roleName)).
Proof.
  apply steps_wrapped. unfold iam.GetRoleARN.
  eapply (steps_weaken isIamCall _ true false);
    [apply isIamCall_not_irsa|done|done|].
  apply steps_bind; [apply steps_iamiface_GetRole|intros ?; apply steps_ret].
Qed.

Lemma steps_not_irsa_add_finalizer o f :
  steps (λ ev, ¬ entersIRSA ev) false true
    (patchHelper ← wrapped (NewHelper o);
     _ ← wrapped (Patch patchHelper (AddFinalizer o f));
     mret tt).
Proof. apply steps_k8s_not_irsa. steps_go. Qed.

(** The reconcile branch: the role of the control plane is read before
    the IRSA roles are reconciled. *)
Lemma reconcileManagedControlPlane_reads_role s eks identity roleName :
  guardedBy (λ g, g = Called (IamGetRole roleName) None) entersIRSA
    (reconcileManagedControlPlane s eks identity roleName).
Proof.
  unfold reconcileManagedControlPlane.
  eapply guardedBy_bind.
  { apply (steps_if _ false true); [apply steps_not_irsa_add_finalizer|].
    apply steps_ret. }
  intros _. eapply guardedBy_bind; [apply (steps_not_irsa_external _ true true)|].
  intros accountID.
  eapply guardedBy_bind; [apply (steps_not_irsa_external _ true true)|].
  intros domain. eapply guardedBy_pass.
  - apply steps_not_irsa_GetRoleARN.
  - intros w arn w1. rewrite run_wrapped.
    destruct (iam.GetRoleARN roleName w) as [[arn'|e] w2] eqn:Hrun; [|done].
    intros [= _ <-]. eexists. split; [|reflexivity].
    by eapply GetRoleARN_read.
  - intros arn. apply steps_any_ReconcileRolesForIRSA.
Qed.

(** The reconcile branch: the finalizer is in place before the IRSA roles
    are reconciled. *)
Lemma reconcileManagedControlPlane_adds_finalizer s eks identity roleName :
  ContainsFinalizer eks irsaFinalizer = false →
  guardedBy
    (λ g, g = Called (ClientPatch (ObjectKeyFromObject eks)
                        (GetFinalizers eks ++ [irsaFinalizer])) None)
    entersIRSA
    (reconcileManagedControlPlane s eks identity roleName).
Proof.
  intros Hc. unfold reconcileManagedControlPlane. fold irsaFinalizer.
  rewrite Hc. cbn [negb].
  eapply guardedBy_pass.
  - apply steps_not_irsa_add_finalizer.
  - intros w [] w1 Hrun. eexists. split; [|reflexivity].
    by apply add_finalizer_sent.
  - intros _.
    apply steps_bind.
    { eapply steps_weaken; [| | |apply (steps_not_irsa_external _ true true)];
        done. }
    intros accountID. apply steps_bind.
    { eapply steps_weaken; [| | |apply (steps_not_irsa_external _ true true)];
        done. }
    intros domain. apply steps_bind.
    { eapply steps_weaken; [| | |apply steps_not_irsa_GetRoleARN]; done. }
    intros arn. apply steps_any_ReconcileRolesForIRSA.
Qed.

Lemma steps_not_irsa_deleteManagedControlPlane s eks :
  steps (λ ev, ¬ entersIRSA ev) false false (deleteManagedControlPlane s eks).
Proof.
  unfold deleteManagedControlPlane. apply steps_bind.
  - apply steps_wrapped.
    eapply steps_weaken;
      [| | |apply (steps_within_DeleteRolesForIRSA [MDeleteRolesForIRSA])];
      [|done|done|elem_solve].
    intros ev. apply withinMethods_not_irsa.
    by apply not_elem_of_singleton_method.
  - intros _. apply steps_if; [|apply steps_ret].
    eapply steps_weaken; [| | |apply steps_k8s_not_irsa]; try done.
    steps_go.
Qed.

(** The part of [Reconcile] after the read of a control plane with a role
    name. *)
Lemma managed_guardedBy_lift guard
    (GetClusterIDFromLabels : ObjectMeta → result string)
    (HasCapiWatchLabel : gmap string string → bool)
    (New : iam.IAMServiceConfig → result iam.IAMService)
    (req : string * string) (w : World) (eks : Object) (roleName : string)
    (pre post : list Event) :
  objects w !! (AWSManagedControlPlane, req) = Some eks →
  SpecRoleName eks = Some roleName →
  (∀ s identity,
     guardedBy guard entersIRSA
       (if isDeleting eks then deleteManagedControlPlane s eks
        else reconcileManagedControlPlane s eks identity roleName)) →
  since w (AWSManagedControlPlaneReconciler_Reconcile GetClusterIDFromLabels
             HasCapiWatchLabel New req w).2
  = pre ++ Enter MReconcileRolesForIRSA :: post →
  ∃ g, g ∈ pre ∧ guard g.
Proof.
  intros Ho Hr Hbranch.
  destruct (faults w (length (trace w)) (ClientGet (AWSManagedControlPlane, req)))
    as [e|] eqn:Hf.
  { unfold AWSManagedControlPlaneReconciler_Reconcile.
    rewrite run_bind. unfold try, Get.
    rewrite (run_invoke_fault _ _ _ e) by done.
    intros Heq. exfalso.
    assert (Ht : Forall (λ ev, ¬ entersIRSA ev)
                   [Called (ClientGet (AWSManagedControlPlane, req)) (Some e)])
      by (by apply Forall_singleton).
    destruct (IsNotFound e); cbn in Heq;
      rewrite (since_app _ _ [Called (ClientGet (AWSManagedControlPlane, req))
                                (Some e)]) in Heq by done;
      by eapply (not_at_Forall entersIRSA). }
  unfold AWSManagedControlPlaneReconciler_Reconcile.
  rewrite run_bind. unfold try. rewrite (run_Get_found _ eks) by done.
  match goal with
  | |- since w (?k ?w1).2 = _ → _ =>
      assert (Hk : guardedBy guard entersIRSA k)
  end.
  { eapply guardedBy_bind.
    { apply steps_wrapped, (steps_liftResult _ true true). }
    intros clusterName.
    apply guardedBy_if.
    { eapply guardedBy_quiet. apply (steps_ret _ true true). }
    rewrite Hr.
    eapply guardedBy_bind; [apply steps_k8s_not_irsa; steps_go|].
    intros identity.
    eapply guardedBy_bind; [apply (steps_not_irsa_external _ true true)|].
    intros _.
    eapply guardedBy_bind; [apply (steps_not_irsa_external _ true true)|].
    intros _. eapply guardedBy_bind.
    { apply steps_wrapped, (steps_liftResult _ true true). }
    intros iamService. eapply guardedBy_then.
    - apply (Hbranch iamService identity).
    - intros _. apply (steps_ret _ true true). }
  match goal with
  | |- since w (?k ?w1).2 = _ → _ =>
      destruct (Hk w1) as (t & Ht & Hg);
      rewrite (since_after_first w w1 (k w1).2
                 (Called (ClientGet (AWSManagedControlPlane, req)) None) t)
        by done
  end.
  intros Heq. destruct pre as [|ev0 pre]; cbn in Heq; [by injection Heq|].
  injection Heq as <- Heq.
  destruct (Hg pre _ post Heq eq_refl) as (g & Hin & HG).
  exists g. split; [by apply list_elem_of_further|done].
Qed.

(** [AWSManagedControlPlaneReconciler.Reconcile] calls
    [ReconcileRolesForIRSA] only for a control plane that is not being
    deleted, after it read the role of the control plane from IAM
    successfully and, when the control plane did not carry the finalizer,
    after the patch request that adds it was accepted. *)
Theorem ManagedControlPlane_irsa_guards
    (GetClusterIDFromLabels : ObjectMeta → result string)
    (HasCapiWatchLabel : gmap string string → bool)
    (New : iam.IAMServiceConfig → result iam.IAMService)
    (req : string * string) (w : World) (eksCluster : Object)
    (roleName : string) (pre post : list Event) :
  objects w !! (AWSManagedControlPlane, req) = Some eksCluster →
  SpecRoleName eksCluster = Some roleName →
  since w (AWSManagedControlPlaneReconciler_Reconcile GetClusterIDFromLabels
             HasCapiWatchLabel New req w).2
  = pre ++ Enter MReconcileRolesForIRSA :: post →
  isDeleting eksCluster = false
  ∧ Called (IamGetRole roleName) None ∈ pre
  ∧ (ContainsFinalizer eksCluster irsaFinalizer = false →
     Called (ClientPatch (ObjectKeyFromObject eksCluster)
               (GetFinalizers eksCluster ++ [irsaFinalizer])) None ∈ pre).
Proof.
  intros Ho Hr Heq.
  assert (Hd : isDeleting eksCluster = false).
  { destruct (isDeleting eksCluster) eqn:Hd; [|done]. exfalso.
    destruct (managed_guardedBy_lift (λ _, False) GetClusterIDFromLabels
                HasCapiWatchLabel New req w eksCluster roleName pre post
                Ho Hr) as (g & _ & []); [|done].
    intros s identity. rewrite Hd. eapply guardedBy_quiet.
    apply steps_not_irsa_deleteManagedControlPlane. }
  split; [done|]. split.
  - destruct (managed_guardedBy_lift
                (λ g, g = Called (IamGetRole roleName) None)
                GetClusterIDFromLabels HasCapiWatchLabel New req w eksCluster
                roleName pre post Ho Hr) as (g & Hin & ->); [|done|done].
    intros s identity. rewrite Hd.
    apply reconcileManagedControlPlane_reads_role.
  - intros Hc.
    destruct (managed_guardedBy_lift
                (λ g, g = Called (ClientPatch (ObjectKeyFromObject eksCluster)
                                    (GetFinalizers eksCluster
                                     ++ [irsaFinalizer])) None)
                GetClusterIDFromLabels HasCapiWatchLabel New req w eksCluster
                roleName pre post Ho Hr) as (g & Hin & ->); [|done|done].
    intros s identity. rewrite Hd.
    by apply reconcileManagedControlPlane_adds_finalizer.
Qed.

Lemma ManagedControlPlane_irsa_guards_witness :
  since eksWorld
    (AWSManagedControlPlaneReconciler_Reconcile sampleGetClusterIDFromLabels
       sampleHasCapiWatchLabel sampleNew (sampleNamespace, "test-cluster")
       eksWorld).2 !! 9
  = Some (Enter MReconcileRolesForIRSA)
  ∧ Called (IamGetRole eksRoleName) None
    ∈ take 9 (since eksWorld
                (AWSManagedControlPlaneReconciler_Reconcile
                   sampleGetClusterIDFromLabels sampleHasCapiWatchLabel
                   sampleNew (sampleNamespace, "test-cluster") eksWorld).2)
  ∧ Called (ClientPatch (ObjectKeyFromObject liveControlPlane)
              (GetFinalizers liveControlPlane ++ [irsaFinalizer])) None
    ∈ take 9 (since eksWorld
                (AWSManagedControlPlaneReconciler_Reconcile
                   sampleGetClusterIDFromLabels sampleHasCapiWatchLabel
                   sampleNew (sampleNamespace, "test-cluster") eksWorld).2).
Proof.
  split; [vm_compute; reflexivity|].
  assert (Ho : objects eksWorld
                 !! (AWSManagedControlPlane, (sampleNamespace, "test-cluster"%string))
               = Some liveControlPlane) by (vm_compute; reflexivity).
  assert (Heq : since eksWorld
                  (AWSManagedControlPlaneReconciler_Reconcile
                     sampleGetClusterIDFromLabels sampleHasCapiWatchLabel
                     sampleNew (sampleNamespace, "test-cluster"%string)
                     eksWorld).2
                = take 9 (since eksWorld
                            (AWSManagedControlPlaneReconciler_Reconcile
                               sampleGetClusterIDFromLabels
                               sampleHasCapiWatchLabel sampleNew
                               (sampleNamespace, "test-cluster"%string)
                               eksWorld).2)
                  ++ Enter MReconcileRolesForIRSA
                  :: drop 10 (since eksWorld
                                (AWSManagedControlPlaneReconciler_Reconcile
                                   sampleGetClusterIDFromLabels
                                   sampleHasCapiWatchLabel sampleNew
                                   (sampleNamespace, "test-cluster"%string)
                                   eksWorld).2)).
  { vm_compute. reflexivity. }
  destruct (ManagedControlPlane_irsa_guards sampleGetClusterIDFromLabels
              sampleHasCapiWatchLabel sampleNew
              (sampleNamespace, "test-cluster"%string) eksWorld
              liveControlPlane eksRoleName _ _ Ho eq_refl Heq)
    as (_ & Hread & Hpatch).
  exact (conj Hread (Hpatch eq_refl)).
Defined.
